(** * The resource-script string extractor of [localization/parse_rc_file.py]

    A shallow embedding of [parse_rc_file] and of the parts of Python's
    [str] and [re] that it calls, followed by the properties of the
    extractor that the specification states. *)

From Stdlib Require Import String Ascii.
From Stdlib Require Import List NArith ZArith Bool Arith Lia.
Import ListNotations.

Local Open Scope N_scope.

(** ** Python strings

    A Python [str] is a sequence of Unicode code points. *)

Definition char := N.
Definition str := list char.

(** [u "text"] is the [str] whose code points are the bytes of an ASCII
    literal. *)
Definition u (s : string) : str := map N_of_ascii (list_ascii_of_string s).

Definition TAB : char := 9.
Definition LF : char := 10.
Definition CR : char := 13.
Definition SP : char := 32.
Definition DQ : char := 34.   (* the double quote *)
Definition BS : char := 92.   (* the backslash *)

(** [quoted b] is [b] between two double quotes. *)
Definition quoted (b : str) : str := DQ :: b ++ [DQ].

(** [a == b] on strings. *)
Fixpoint str_eqb (a b : str) : bool :=
  match a, b with
  | [], [] => true
  | x :: a', y :: b' => (x =? y) && str_eqb a' b'
  | _, _ => false
  end.

(** Exceptions: the operations below that can raise in Python return
    [Raise]. *)
Inductive exn := ValueError | TypeError.

Inductive result (A : Type) :=
| Ok (a : A)
| Raise (e : exn).
Arguments Ok {A} a.
Arguments Raise {A} e.

Definition bind {A B} (m : result A) (f : A -> result B) : result B :=
  match m with
  | Ok a => f a
  | Raise e => Raise e
  end.

Notation "x <- m ;; f" := (bind m (fun x => f))
  (at level 61, m at next level, right associativity).

(** [str.isspace] of one character, as [str.strip] uses it. *)
Definition is_space (c : char) : bool :=
  ((9 <=? c) && (c <=? 13)) || ((28 <=? c) && (c <=? 32))
  || (c =? 133) || (c =? 160) || (c =? 5760)
  || ((8192 <=? c) && (c <=? 8202))
  || (c =? 8232) || (c =? 8233) || (c =? 8239) || (c =? 8287) || (c =? 12288).

(** The line boundaries of [str.splitlines]. *)
Definition is_linebreak (c : char) : bool :=
  ((10 <=? c) && (c <=? 13)) || ((28 <=? c) && (c <=? 30))
  || (c =? 133) || (c =? 8232) || (c =? 8233).

(** [str.splitlines()]: the lines without their boundaries; a carriage
    return directly followed by a line feed is one boundary, and a final
    boundary opens no further line. *)
Fixpoint splitlines (s : str) : list str :=
  match s with
  | [] => []
  | x :: s' =>
      if is_linebreak x then
        [] :: (if x =? CR
               then match s' with
                    | y :: s'' => if y =? LF then splitlines s'' else splitlines s'
                    | [] => []
                    end
               else splitlines s')
      else
        match splitlines s' with
        | [] => [[x]]
        | l :: ls => (x :: l) :: ls
        end
  end.

Fixpoint lstrip (s : str) : str :=
  match s with
  | x :: s' => if is_space x then lstrip s' else s
  | [] => []
  end.

(** [str.strip()] *)
Definition strip (s : str) : str := rev (lstrip (rev (lstrip s))).

(** [str.startswith(p)] *)
Fixpoint startswith (s p : str) {struct p} : bool :=
  match p, s with
  | [], _ => true
  | a :: p', x :: s' => (x =? a) && startswith s' p'
  | _ :: _, [] => false
  end.

(** [str.endswith(p)] *)
Definition endswith (s p : str) : bool := startswith (rev s) (rev p).

(** [str.replace(old, new)] for a non-empty [old]: the occurrences of
    [old] are found from left to right and do not overlap.  [skip] counts
    the characters of an occurrence that are still to be passed. *)
Fixpoint replace_go (old new : str) (skip : nat) (s : str) : str :=
  match s with
  | [] => []
  | x :: s' =>
      match skip with
      | S n => replace_go old new n s'
      | O =>
          if startswith s old
          then new ++ replace_go old new (length old - 1) s'
          else x :: replace_go old new 0 s'
      end
  end.

Definition replace (old new s : str) : str := replace_go old new 0 s.

(** The value of one digit in [int(_, 16)]. *)
Definition hex_value (c : char) : option N :=
  if (48 <=? c) && (c <=? 57) then Some (c - 48)
  else if (65 <=? c) && (c <=? 70) then Some (c - 55)
  else if (97 <=? c) && (c <=? 102) then Some (c - 87)
  else None.

Fixpoint int16_go (acc : N) (s : str) : result N :=
  match s with
  | [] => Ok acc
  | x :: s' =>
      match hex_value x with
      | Some d => int16_go (16 * acc + d) s'
      | None => Raise ValueError
      end
  end.

(** [int(s, 16)] on a string of hexadecimal digits.  [None] raises
    [TypeError] and the empty string [ValueError]; every character that
    is no hexadecimal digit is taken to raise [ValueError] (Python accepts
    a sign, blanks, underscores and a [0x] prefix in some places, so the
    model raises at least where Python does). *)
Definition int16 (s : option str) : result N :=
  match s with
  | None => Raise TypeError
  | Some [] => Raise ValueError
  | Some s => int16_go 0 s
  end.

(** [chr(n)]: raises [ValueError] outside the range of code points. *)
Definition chr (n : N) : result char :=
  if n <? 1114112 then Ok n else Raise ValueError.

(** How an f-string shows a value that is a [str] or [None]. *)
Definition fmt (o : option str) : str :=
  match o with
  | Some s => s
  | None => u "None"
  end.

(** Truth value of a value that is a [str] or [None]. *)
Definition truthy (o : option str) : bool :=
  match o with
  | Some (_ :: _) => true
  | _ => false
  end.

(** ** Python's [re]: a backtracking matcher

    The constructs that the patterns of [parse_rc_file] use.  A character
    set, an escape such as [\w], a literal and the dot are all [Chr] with
    the predicate of the characters they accept. *)

Inductive regex : Type :=
| Eps
| Chr (p : char -> bool)
| Seq (r1 r2 : regex)
| Alt (r1 r2 : regex)              (* r1|r2: r1 is tried first *)
| Star (greedy : bool) (r : regex) (* r* when greedy, r*? otherwise *)
| Grp (n : nat) (r : regex)        (* the capturing group number n *)
| Bol                              (* ^ without re.MULTILINE *)
| Eol.                             (* $ without re.MULTILINE *)

(** Captured groups, the latest capture of a group first. *)
Definition caps := list (nat * str).

(** A continuation receives the position reached, the text that is left
    and the groups captured so far; it answers with the end of the whole
    match, or with [None] to make the matcher backtrack. *)
Definition cont := nat -> str -> caps -> option (nat * caps).

(** The loop of [r*] and [r*?].  [n] bounds the number of iterations by
    the length of the text that was left when the loop was entered; an
    iteration must consume a character to be followed by another one, so
    the bound is never the reason for the loop to stop.  (CPython lets one
    more iteration match the empty string before it leaves the loop; that
    iteration consumes nothing and only sets groups inside the loop, which
    [parse_rc_file] never reads.) *)
Fixpoint star_iter (body : nat -> str -> caps -> cont -> option (nat * caps))
    (greedy : bool) (n : nat) (i : nat) (s : str) (c : caps) (k : cont)
    : option (nat * caps) :=
  match n with
  | O => k i s c
  | S n' =>
      if greedy then
        match body i s c (fun i' s' c' =>
                if (i <? i')%nat then star_iter body greedy n' i' s' c' k
                else None) with
        | Some m => Some m
        | None => k i s c
        end
      else
        match k i s c with
        | Some m => Some m
        | None =>
            body i s c (fun i' s' c' =>
              if (i <? i')%nat then star_iter body greedy n' i' s' c' k
              else None)
        end
  end.

(** [exec r i s c k] matches [r] at position [i], where [s] is the text
    from [i] on, and hands over to [k]; alternatives are tried in the
    order of a backtracking matcher. *)
Fixpoint exec (r : regex) (i : nat) (s : str) (c : caps) (k : cont)
    : option (nat * caps) :=
  match r with
  | Eps => k i s c
  | Chr p =>
      match s with
      | x :: s' => if p x then k (S i) s' c else None
      | [] => None
      end
  | Seq r1 r2 => exec r1 i s c (fun i' s' c' => exec r2 i' s' c' k)
  | Alt r1 r2 =>
      match exec r1 i s c k with
      | Some m => Some m
      | None => exec r2 i s c k
      end
  | Star g r' => star_iter (exec r') g (length s) i s c k
  | Grp n r' =>
      exec r' i s c (fun i' s' c' => k i' s' ((n, firstn (i' - i) s) :: c'))
  | Bol => if (i =? 0)%nat then k i s c else None
  | Eol =>
      match s with
      | [] => k i s c
      | [x] => if x =? LF then k i s c else None
      | _ => None
      end
  end.

Definition accept : cont := fun i _ c => Some (i, c).

(** A match object: where the match starts and ends, its text and its
    groups. *)
Record rmatch := {
  m_start : nat;
  m_end : nat;
  m_text : str;
  m_caps : caps
}.

Fixpoint lookup (n : nat) (c : caps) : option str :=
  match c with
  | [] => None
  | (m, t) :: c' => if (m =? n)%nat then Some t else lookup n c'
  end.

(** [m.group(n)]: [None] for a group that took no part in the match. *)
Definition group (n : nat) (m : rmatch) : option str :=
  match n with
  | O => Some (m_text m)
  | _ => lookup n (m_caps m)
  end.

(** One attempt of the pattern at position [i]. *)
Definition match_at (r : regex) (i : nat) (s : str) : option rmatch :=
  match exec r i s [] accept with
  | Some (j, c) =>
      Some {| m_start := i; m_end := j; m_text := firstn (j - i) s; m_caps := c |}
  | None => None
  end.

(** [re.match(r, s)] *)
Definition re_match (r : regex) (s : str) : option rmatch := match_at r 0 s.

(** [re.search(r, s)]: the first position, from the left, where the
    pattern matches; the end of the text is a position too. *)
Fixpoint search_from (r : regex) (i : nat) (s : str) : option rmatch :=
  match match_at r i s with
  | Some m => Some m
  | None =>
      match s with
      | [] => None
      | _ :: s' => search_from r (S i) s'
      end
  end.

Definition re_search (r : regex) (s : str) : option rmatch := search_from r 0 s.

(** [re.sub] cuts the text into the characters it keeps and the matches
    it replaces.  The matches are found from left to right and do not
    overlap; [skip] counts the characters of the last match that are still
    to be passed.  Every pattern that [parse_rc_file] gives to [re.sub]
    starts with a character that it must consume, so a match is never
    empty; an empty match would be kept as no match here. *)
Inductive piece :=
| Lit (x : char)
| Hit (m : rmatch).

Fixpoint pieces_go (r : regex) (skip : nat) (i : nat) (s : str) : list piece :=
  match skip with
  | S n =>
      match s with
      | [] => []
      | _ :: s' => pieces_go r n (S i) s'
      end
  | O =>
      match match_at r i s with
      | Some m =>
          if (i <? m_end m)%nat then
            Hit m :: match s with
                     | [] => []
                     | _ :: s' => pieces_go r (m_end m - i - 1) (S i) s'
                     end
          else
            match s with
            | [] => []
            | x :: s' => Lit x :: pieces_go r 0 (S i) s'
            end
      | None =>
          match s with
          | [] => []
          | x :: s' => Lit x :: pieces_go r 0 (S i) s'
          end
      end
  end.

Definition pieces (r : regex) (s : str) : list piece := pieces_go r 0 0 s.

(** [re.sub(r, repl, s)] with a template [repl], given as the text that
    the template makes of a match. *)
Definition re_sub (r : regex) (repl : rmatch -> str) (s : str) : str :=
  flat_map (fun p => match p with Lit x => [x] | Hit m => repl m end)
           (pieces r s).

(** [re.sub(r, f, s)] with a function [f], which may raise. *)
Fixpoint sub_pieces (f : rmatch -> result str) (l : list piece) : result str :=
  match l with
  | [] => Ok []
  | Lit x :: l' => t <- sub_pieces f l' ;; Ok (x :: t)
  | Hit m :: l' => a <- f m ;; t <- sub_pieces f l' ;; Ok (a ++ t)
  end.

Definition re_sub_call (r : regex) (f : rmatch -> result str) (s : str)
    : result str :=
  sub_pieces f (pieces r s).

(** The template [\1]: the text of group 1, empty when the group took no
    part in the match. *)
Definition template_1 (m : rmatch) : str :=
  match group 1 m with
  | Some t => t
  | None => []
  end.

(** *** Building patterns *)

Definition lit (a : char) : regex := Chr (N.eqb a).
Definition cat (l : list regex) : regex := fold_right Seq Eps l.
Definition text (s : string) : regex := cat (map lit (u s)).
Definition plus (r : regex) : regex := Seq r (Star true r).   (* r+ *)
Definition opt (r : regex) : regex := Alt r Eps.              (* r? and r{0,1} *)

Definition is_tabsp (c : char) : bool := (c =? TAB) || (c =? SP).  (* [\t ] *)
Definition is_dot (c : char) : bool := negb (c =? LF).             (* . *)
Definition is_notdq (c : char) : bool := negb (c =? DQ).           (* [^Q] *)
Definition is_hex (c : char) : bool :=                             (* [0-9a-fA-F] *)
  ((48 <=? c) && (c <=? 57)) || ((97 <=? c) && (c <=? 102))
  || ((65 <=? c) && (c <=? 70)).

Definition tabsp : regex := Chr is_tabsp.
Definition dot : regex := Chr is_dot.
Definition notdq : regex := Chr is_notdq.
Definition hex : regex := Chr is_hex.
Definition slash : regex := lit 47.
Definition dq : regex := lit DQ.

(** The patterns of [parse_rc_file] that do not use [\w].  In the comments
    that quote a pattern, Q stands for the double quote, and a blank
    separates a star from a closing parenthesis that follows it. *)

(* [\t ]+ *)
Definition blanks_re : regex := plus tabsp.

(* \/\/.*$ *)
Definition comment_re : regex := cat [slash; slash; Star true dot; Eol].

(* ^[\t ]*(CAPTION)[\t ]+(L?Q(.*?(QQ)* )*?Q) *)
Definition caption_re : regex :=
  cat [Bol; Star true tabsp; Grp 1 (text "CAPTION"); plus tabsp;
       Grp 2 (cat [opt (lit 76); dq;
                   Star false (Grp 3 (cat [Star false dot;
                                           Star true (Grp 4 (cat [dq; dq]))]));
                   dq])].

(* (L?Q(.* )Q) *)
Definition quoted_re : regex :=
  Grp 1 (cat [opt (lit 76); dq; Grp 2 (Star true dot); dq]).

(* ^[\t ]*(L?Q(.* )Q) *)
Definition leading_quoted_re : regex :=
  cat [Bol; Star true tabsp;
       Grp 1 (cat [opt (lit 76); dq; Grp 2 (Star true dot); dq])].

(* ^L?Q(.* )Q$ *)
Definition unquote_re : regex :=
  cat [Bol; opt (lit 76); dq; Grp 1 (Star true dot); dq; Eol].

(* \\x([0-9a-fA-F]{4}) *)
Definition hex_re : regex :=
  cat [lit BS; lit 120; Grp 1 (cat [hex; hex; hex; hex])].

(** ** [parse_rc_file] *)

(** The local variables of [parse_rc_file].  [menu], [dialog] and
    [stringtable] hold [False], [True] or [None] in Python and only their
    truth value is read: they are [bool] here, [None] being [false]. *)
Record locals := {
  strings : list str;
  menu : bool;
  dialog : bool;
  stringtable : bool;
  block_level : Z;
  id_str : option str;
  dialog_id : option str;
  hint : option str;
  orig_str : option str
}.

Definition init : locals :=
  {| strings := []; menu := false; dialog := false; stringtable := false;
     block_level := 0%Z; id_str := None; dialog_id := None; hint := None;
     orig_str := None |}.

Definition set_menu (b : bool) (st : locals) : locals :=
  {| strings := strings st; menu := b; dialog := dialog st;
     stringtable := stringtable st; block_level := block_level st;
     id_str := id_str st; dialog_id := dialog_id st; hint := hint st;
     orig_str := orig_str st |}.

Definition set_dialog (b : bool) (d : option str) (st : locals) : locals :=
  {| strings := strings st; menu := menu st; dialog := b;
     stringtable := stringtable st; block_level := block_level st;
     id_str := id_str st; dialog_id := d; hint := hint st;
     orig_str := orig_str st |}.

Definition set_stringtable (b : bool) (st : locals) : locals :=
  {| strings := strings st; menu := menu st; dialog := dialog st;
     stringtable := b; block_level := block_level st;
     id_str := id_str st; dialog_id := dialog_id st; hint := hint st;
     orig_str := orig_str st |}.

Definition set_block_level (n : Z) (st : locals) : locals :=
  {| strings := strings st; menu := menu st; dialog := dialog st;
     stringtable := stringtable st; block_level := n;
     id_str := id_str st; dialog_id := dialog_id st; hint := hint st;
     orig_str := orig_str st |}.

(** [menu = dialog = dialog_id = stringtable = None] *)
Definition close_block (st : locals) : locals :=
  {| strings := strings st; menu := false; dialog := false;
     stringtable := false; block_level := block_level st;
     id_str := id_str st; dialog_id := None; hint := hint st;
     orig_str := orig_str st |}.

(** Assignment to the three variables of the pending string. *)
Definition set_pending (i h o : option str) (st : locals) : locals :=
  {| strings := strings st; menu := menu st; dialog := dialog st;
     stringtable := stringtable st; block_level := block_level st;
     id_str := i; dialog_id := dialog_id st; hint := h; orig_str := o |}.

(** [strings.append(s)] followed by [id_str = hint = orig_str = None] *)
Definition append_string (s : str) (st : locals) : locals :=
  {| strings := strings st ++ [s]; menu := menu st; dialog := dialog st;
     stringtable := stringtable st; block_level := block_level st;
     id_str := None; dialog_id := dialog_id st; hint := None;
     orig_str := None |}.

(** The four [str.replace] calls on the body of a literal, in the order of
    the source.  The last one looks for the three characters backslash,
    backslash, double quote: that is what the raw literal of the source
    denotes. *)
Definition unescape (s : str) : str :=
  replace [BS; BS; DQ] [DQ]
    (replace [BS; 116] [TAB]
      (replace [BS; 110] [LF]
        (replace [BS; 114] [CR] s))).

(** The function given to [re.sub] for a wide literal:
    [chr(int(match.group(1), 16))]. *)
Definition hex_char (m : rmatch) : result str :=
  n <- int16 (group 1 m) ;; x <- chr n ;; Ok [x].

(** The body of [if orig_str:] up to [strings.append]: the text that a raw
    literal stands for. *)
Definition decode (orig : str) : result str :=
  let wide := startswith orig (u "L") in
  let s := re_sub unquote_re template_1 orig in
  let s := unescape s in
  if wide then re_sub_call hex_re hex_char s else Ok s.

Definition emit (st : locals) : result locals :=
  match orig_str st with
  | Some o =>
      if truthy (Some o)
      then s <- decode o ;; Ok (append_string s st)
      else Ok st
  | None => Ok st
  end.

(** The two assignments to [norm_line]. *)
Definition normalize (line : str) : str :=
  re_sub comment_re (fun _ => [])
    (re_sub blanks_re (fun _ => [SP]) (strip line)).

Section Extractor.

(** [\w] is [str.isalnum] or the underscore.  For the characters above
    ASCII it follows the Unicode character database of the interpreter,
    which is no part of the repository: [unicode_alnum] stands for it. *)
Variable unicode_alnum : char -> bool.

Definition is_word (c : char) : bool :=
  if c <? 128 then
    ((48 <=? c) && (c <=? 57)) || ((65 <=? c) && (c <=? 90))
    || ((97 <=? c) && (c <=? 122)) || (c =? 95)
  else unicode_alnum c.

Definition word : regex := Chr is_word.

(* ^(\w+) (DIALOG|DIALOGEX)  -- with a blank at the end *)
Definition dialog_re : regex :=
  cat [Bol; Grp 1 (plus word); lit SP;
       Grp 2 (Alt (text "DIALOG") (text "DIALOGEX")); lit SP].

(* ^[\t ]*(\w+)[\t ]+(L?Q([^Q]*?(QQ)* )*?Q)(,[\t ]*(\w+)){0,1} *)
Definition item_re : regex :=
  cat [Bol; Star true tabsp; Grp 1 (plus word); plus tabsp;
       Grp 2 (cat [opt (lit 76); dq;
                   Star false (Grp 3 (cat [Star false notdq;
                                           Star true (Grp 4 (cat [dq; dq]))]));
                   dq]);
       opt (Grp 5 (cat [lit 44; Star true tabsp; Grp 6 (plus word)]))].

(* ^[\t ]*(\w+)[\t ]*(\/\/.* )*$ *)
Definition ident_re : regex :=
  cat [Bol; Star true tabsp; Grp 1 (plus word); Star true tabsp;
       Star true (Grp 2 (cat [slash; slash; Star true dot])); Eol].

(** The statements of the loop body from [if norm_line.endswith(' MENU')]
    to the end of [if norm_line == 'END']. *)
Definition track (norm_line : str) (st : locals) : locals :=
  let st := if endswith norm_line (u " MENU") then set_menu true st else st in
  let st := match re_match dialog_re norm_line with
            | Some m => set_dialog true (group 1 m) st
            | None => st
            end in
  let st := if str_eqb norm_line (u "STRINGTABLE")
            then set_stringtable true st else st in
  let st := if str_eqb norm_line (u "BEGIN")
            then set_block_level (block_level st + 1) st else st in
  if str_eqb norm_line (u "END") then
    let st := set_block_level (block_level st - 1) st in
    if (block_level st =? 0)%Z then close_block st else st
  else st.

(** The [if dialog and not block_level: ... elif ...: ... else: ...]
    statement. *)
Definition dispatch (line : str) (st : locals) : locals :=
  if dialog st && (block_level st =? 0)%Z then
    match re_match caption_re line with
    | Some m =>
        set_pending
          (Some (fmt (dialog_id st) ++ u ":" ++ fmt (group 1 m)))
          (Some (fmt (dialog_id st) ++ u " " ++ fmt (group 1 m)))
          (group 2 m) st
    | None => st
    end
  else if (menu st || dialog st) && negb (block_level st =? 0)%Z then
    match re_match item_re line with
    | Some m =>
        set_pending
          (group 6 m)
          (if truthy (group 6 m)
           then Some (fmt (group 1 m) ++ u " " ++ fmt (group 6 m))
           else group 1 m)
          (group 2 m) st
    | None => st
    end
  else
    match re_search quoted_re line with
    | Some m => set_pending (id_str st) (hint st) (group 0 m) st
    | None =>
        match re_match ident_re line with
        | Some m => set_pending (group 1 m) (hint st) (orig_str st) st
        | None =>
            match re_match leading_quoted_re line with
            | Some m =>
                if truthy (id_str st)
                then set_pending (id_str st) (id_str st) (group 1 m) st
                else set_pending None (hint st) (orig_str st) st
            | None => set_pending None (hint st) (orig_str st) st
            end
        end
    end.

(** One turn of the [for] loop. *)
Definition loop_body (st : locals) (line : str) : result locals :=
  emit (dispatch line (track (normalize line) st)).

(** The [for] loop over the lines. *)
Fixpoint scan (st : locals) (lines : list str) : result locals :=
  match lines with
  | [] => Ok st
  | line :: rest => st' <- loop_body st line ;; scan st' rest
  end.

Definition parse_rc_file (rc_file_text : str) : result (list str) :=
  st <- scan init (splitlines rc_file_text) ;; Ok (strings st).

End Extractor.

(** A table without any word character above ASCII, to run the extractor
    on ASCII text. *)
Definition no_unicode_alnum : char -> bool := fun _ => false.

(** ** Texts and predicates of the statements *)

(** The lines of a text, joined by line feeds. *)
Fixpoint join_lines (l : list str) : str :=
  match l with
  | [] => []
  | [x] => x
  | x :: r => x ++ LF :: join_lines r
  end.

(** A line that is one literal: [body] between double quotes, after an
    [L] when [wide]. *)
Definition literal (wide : bool) (body : str) : str :=
  (if wide then [76] else []) ++ quoted body.

(** The encoding of a plain string into a literal, in the words of the
    specification: a carriage return, a line feed, a tab and a double
    quote become a backslash followed by [r], [n], [t] and the double
    quote; the result is wrapped in double quotes. *)
Definition escape_char (x : char) : str :=
  if x =? CR then [BS; 114]
  else if x =? LF then [BS; 110]
  else if x =? TAB then [BS; 116]
  else if x =? DQ then [BS; DQ]
  else [x].

Definition rc_literal (s : str) : str := quoted (flat_map escape_char s).

(** The plain strings that the decoding gives back: no double quote, no
    line boundary of [str.splitlines] but the carriage return and the line
    feed, and no backslash directly before [r], [n] or [t]. *)
Fixpoint survives (s : str) : bool :=
  match s with
  | [] => true
  | x :: s' =>
      negb (x =? DQ)
      && (negb (is_linebreak x) || (x =? CR) || (x =? LF))
      && (negb (x =? BS)
          || match s' with
             | y :: _ => negb ((y =? 114) || (y =? 110) || (y =? 116))
             | [] => true
             end)
      && survives s'
  end.

(** The escape [\xHHHH] of a code point below 65536, with the digits
    above 9 in upper case. *)
Definition hex_digit (d : N) : char := if d <? 10 then 48 + d else 55 + d.

Definition hex_escape (x : char) : str :=
  [BS; 120; hex_digit (x / 4096); hex_digit ((x / 256) mod 16);
   hex_digit ((x / 16) mod 16); hex_digit (x mod 16)].

(** The lines that count for the depth of the blocks. *)
Definition is_begin (line : str) : bool := str_eqb (normalize line) (u "BEGIN").
Definition is_end (line : str) : bool := str_eqb (normalize line) (u "END").

Definition count_lines (f : str -> bool) (lines : list str) : Z :=
  Z.of_nat (length (filter f lines)).

(** The menu of the specification. *)
Definition menu_lines : list str :=
  [u "IDR_MAINMENU MENU";
   u "BEGIN";
   u "POPUP " ++ quoted (u "&File");
   u "BEGIN";
   u "MENUITEM " ++ quoted (u "&Open...") ++ u ", ID_FILE_OPEN";
   u "END";
   u "END"].

(** A dialog with a block inside its block. *)
Definition dialog_lines : list str :=
  [u "IDD_MYDIALOG DIALOGEX 0, 0, 200, 100";
   u "BEGIN";
   u "BEGIN";
   u "END";
   u "END"].

(** The variables after the inner and after the outer [END] of
    [dialog_lines]. *)
Definition after_inner_end : locals :=
  {| strings := []; menu := false; dialog := true; stringtable := false;
     block_level := 1; id_str := None;
     dialog_id := Some (u "IDD_MYDIALOG"); hint := None; orig_str := None |}.

Definition after_outer_end : locals :=
  {| strings := []; menu := false; dialog := false; stringtable := false;
     block_level := 0; id_str := Some (u "END"); dialog_id := None;
     hint := None; orig_str := None |}.

Definition greeting_id_line : str := u "IDS_GREETING".
Definition greeting_line : str := quoted (u "Hello, world!").

Definition commented_line : str :=
  u "IDS_FOO " ++ quoted (u "bar") ++ u " // translators: context note".

Definition empty_literal_line : str := u "IDS_EMPTY " ++ quoted [].

(** The text has no line boundary of [str.splitlines]. *)
Definition no_linebreak (s : str) : bool :=
  forallb (fun x => negb (is_linebreak x)) s.

(** [re.sub] from position [i] on, clear of any earlier match. *)
Definition sub_from (r : regex) (f : rmatch -> str) (i : nat) (s : str) : str :=
  flat_map (fun p => match p with Lit x => [x] | Hit m => f m end)
           (pieces_go r 0 i s).

(** The encoding in which only some of the three control characters are
    escaped: what is left of [escape_char] between two [str.replace]
    calls of [unescape]. *)
Definition escape_in (cr lf tab : bool) (x : char) : str :=
  if cr && (x =? CR) then [BS; 114]
  else if lf && (x =? LF) then [BS; 110]
  else if tab && (x =? TAB) then [BS; 116]
  else [x].

(** A literal with the escape of a double quote in it, and one with two
    backslashes before the double quote. *)
Definition escaped_quote_body : str := u "a\" ++ DQ :: u "b".
Definition double_backslash_body : str := u "a\\" ++ DQ :: u "b".

(** The patterns that cannot match without consuming a character, as far
    as their shape shows it. *)
Fixpoint consuming (r : regex) : bool :=
  match r with
  | Chr _ => true
  | Seq r1 r2 => consuming r1 || consuming r2
  | Alt r1 r2 => consuming r1 && consuming r2
  | Grp _ r' => consuming r'
  | _ => false
  end.

(** The state that the dispatch reads to take its last branch. *)
Definition fallback_context (st : locals) : Prop :=
  menu st = false /\ dialog st = false.

(** ** Predicates for further properties *)

(** [demands want r]: the shape of [r] shows that every match of [r]
    consumes a character accepted by [want]. *)
Fixpoint demands (want : char -> bool) (r : regex) : Prop :=
  match r with
  | Chr p => forall x, p x = true -> want x = true
  | Seq r1 r2 => demands want r1 \/ demands want r2
  | Alt r1 r2 => demands want r1 /\ demands want r2
  | Grp _ r' => demands want r'
  | _ => False
  end.

(** The line has a double quote. *)
Definition has_dq (line : str) : bool := existsb (N.eqb DQ) line.

(** The normal form of a line, in the words of the specification: every
    run of tabs and blanks becomes one blank, and the line ends before the
    first two slashes in a row.  [held] tells that the run of the last
    character has already given its blank. *)
Fixpoint collapse_go (held : bool) (s : str) : str :=
  match s with
  | [] => []
  | x :: s' =>
      if is_tabsp x
      then if held then collapse_go true s' else SP :: collapse_go true s'
      else x :: collapse_go false s'
  end.

Definition collapse (s : str) : str := collapse_go false s.

Fixpoint cut_comment (s : str) : str :=
  match s with
  | [] => []
  | x :: s' =>
      match s' with
      | y :: _ => if (x =? 47) && (y =? 47) then [] else x :: cut_comment s'
      | [] => [x]
      end
  end.

(** The number of characters accepted by [p] at the head of the text. *)
Fixpoint run (p : char -> bool) (s : str) : nat :=
  match s with
  | x :: s' => if p x then S (run p s') else 0
  | [] => 0
  end.

(** The text has two slashes in a row. *)
Fixpoint has_comment (s : str) : bool :=
  match s with
  | [] => false
  | x :: s' =>
      match s' with
      | y :: _ => ((x =? 47) && (y =? 47)) || has_comment s'
      | [] => false
      end
  end.

(** The characters of an identifier of a resource script. *)
Definition is_ident_char (c : char) : bool :=
  ((48 <=? c) && (c <=? 57)) || ((65 <=? c) && (c <=? 90))
  || ((97 <=? c) && (c <=? 122)) || (c =? 95).

(** An entry of a string table: tabs and blanks, an identifier, tabs and
    blanks, and a literal that is not wide. *)
Record entry := {
  e_indent : str;
  e_id : str;
  e_gap : str;
  e_body : str
}.

Definition entry_line (e : entry) : str :=
  e_indent e ++ e_id e ++ e_gap e ++ quoted (e_body e).

(** The entries of this development: the identifier and the gap are not
    empty, and the body of the literal has no line boundary and no two
    slashes in a row. *)
Definition entry_ok (e : entry) : bool :=
  forallb is_tabsp (e_indent e)
  && negb (length (e_id e) =? 0)%nat && forallb is_ident_char (e_id e)
  && negb (length (e_gap e) =? 0)%nat && forallb is_tabsp (e_gap e)
  && no_linebreak (e_body e) && negb (has_comment (e_body e)).

(** The text of a string table with the given entries. *)
Definition stringtable_text (es : list entry) : str :=
  join_lines ([u "STRINGTABLE"; u "BEGIN"] ++ map entry_line es ++ [u "END"]).

(** What group 3 has captured when the lazy loop of [caption_re] or
    [item_re] has passed [body], the latest capture first: one character
    at each turn. *)
Definition body_caps (body : str) : caps :=
  rev (map (fun x => (3%nat, [x])) body).

(** The pattern has the capturing group number [g]. *)
Fixpoint captures (g : nat) (r : regex) : bool :=
  match r with
  | Seq r1 r2 | Alt r1 r2 => captures g r1 || captures g r2
  | Star _ r' => captures g r'
  | Grp n r' => (n =? g)%nat || captures g r'
  | _ => false
  end.

(** A line of a menu or of a dialog: tabs and blanks, a word, tabs and
    blanks, a literal, and the rest of the line. *)
Record item := {
  i_indent : str;
  i_word : str;
  i_gap : str;
  i_wide : bool;
  i_body : str;
  i_tail : str
}.

Definition item_line (it : item) : str :=
  i_indent it ++ i_word it ++ i_gap it
  ++ literal (i_wide it) (i_body it) ++ i_tail it.

(** The lines of this development: the word is a non-empty identifier,
    the gap is not empty, the body of the literal has no double quote and
    no line boundary, and the rest of the line has no line feed and does
    not begin with a double quote. *)
Definition item_ok (it : item) : bool :=
  forallb is_tabsp (i_indent it)
  && negb (length (i_word it) =? 0)%nat && forallb is_ident_char (i_word it)
  && negb (length (i_gap it) =? 0)%nat && forallb is_tabsp (i_gap it)
  && negb (has_dq (i_body it)) && no_linebreak (i_body it)
  && negb (startswith (i_tail it) [DQ]) && forallb is_dot (i_tail it).

(** A non-empty ASCII identifier. *)
Definition is_ident (s : str) : bool :=
  negb (length s =? 0)%nat && forallb is_ident_char s.

(** A line inside the block of a menu or a dialog: an item, or a line
    without a double quote. *)
Inductive row :=
| Row_item (it : item)
| Row_plain (line : str).

Definition row_line (r : row) : str :=
  match r with
  | Row_item it => item_line it
  | Row_plain line => line
  end.

(** The rows of this development.  [depth] counts the blocks that are
    open inside the block of the menu or the dialog: a plain line whose
    normal form is [BEGIN] opens one, a plain line whose normal form is
    [END] closes one, and none is closed when none is open. *)
Fixpoint rows_ok (depth : nat) (rows : list row) : bool :=
  match rows with
  | [] => true
  | Row_item it :: rest =>
      item_ok it && no_linebreak (i_tail it) && rows_ok depth rest
  | Row_plain line :: rest =>
      negb (has_dq line) && no_linebreak line
      && if str_eqb (normalize line) (u "BEGIN") then rows_ok (S depth) rest
         else if str_eqb (normalize line) (u "END") then
                match depth with
                | S d => rows_ok d rest
                | O => false
                end
         else rows_ok depth rest
  end.

Fixpoint row_items (rows : list row) : list item :=
  match rows with
  | [] => []
  | Row_item it :: rest => it :: row_items rest
  | Row_plain _ :: rest => row_items rest
  end.

(** [s] is what the literal of the item stands for. *)
Definition stands_for (it : item) (s : str) : Prop :=
  decode (literal (i_wide it) (i_body it)) = Ok s.

(** The variables inside the block of a menu or a dialog, with [depth]
    blocks open inside it and no string pending. *)
Definition in_block (st : locals) (depth : nat) : Prop :=
  (menu st || dialog st) = true
  /\ block_level st = Z.of_nat (S depth)
  /\ truthy (orig_str st) = false.

(** The text of a menu with the given rows. *)
Definition menu_text (name : str) (rows : list row) : str :=
  join_lines ([name ++ u " MENU"; u "BEGIN"] ++ map row_line rows ++ [u "END"]).

(** The line without the tabs and blanks at its beginning. *)
Fixpoint skip_tabsp (s : str) : str :=
  match s with
  | x :: s' => if is_tabsp x then skip_tabsp s' else s
  | [] => []
  end.

(** A line of a dialog before its block: the [CAPTION], or a line that
    does not begin with [CAPTION] after its tabs and blanks and whose
    normal form is neither [BEGIN] nor [END]. *)
Inductive head :=
| Head_caption (it : item)
| Head_other (line : str).

Definition head_line (h : head) : str :=
  match h with
  | Head_caption it => item_line it
  | Head_other line => line
  end.

Definition other_ok (line : str) : bool :=
  negb (startswith (skip_tabsp line) (u "CAPTION"))
  && negb (str_eqb (normalize line) (u "BEGIN"))
  && negb (str_eqb (normalize line) (u "END")).

Definition head_ok (h : head) : bool :=
  match h with
  | Head_caption it =>
      item_ok it && str_eqb (i_word it) (u "CAPTION") && no_linebreak (i_tail it)
  | Head_other line => other_ok line && no_linebreak line
  end.

Fixpoint head_items (heads : list head) : list item :=
  match heads with
  | [] => []
  | Head_caption it :: rest => it :: head_items rest
  | Head_other _ :: rest => head_items rest
  end.

(** The variables in a dialog before its block, with no string pending. *)
Definition in_head (st : locals) : Prop :=
  dialog st = true /\ block_level st = 0%Z /\ truthy (orig_str st) = false.

(** The first line of a dialog: a name, [DIALOG] or [DIALOGEX], and
    [more], which begins with a character that is no white space and has
    no double quote. *)
Definition keyword (ex : bool) : str :=
  if ex then u "DIALOGEX" else u "DIALOG".

Definition dialog_header (name : str) (ex : bool) (more : str) : str :=
  name ++ SP :: keyword ex ++ SP :: more.

Definition more_ok (more : str) : bool :=
  match more with
  | g :: _ => negb (is_space g)
  | [] => false
  end
  && negb (has_dq more) && no_linebreak more.

(** The text of a dialog with the given lines before its block and the
    given rows in its block. *)
Definition dialog_text (name : str) (ex : bool) (more : str)
    (heads : list head) (rows : list row) : str :=
  join_lines ([dialog_header name ex more] ++ map head_line heads
              ++ [u "BEGIN"] ++ map row_line rows ++ [u "END"]).

(** The last branch of the [if dialog and not block_level: ... elif ...:
    ... else: ...] statement is the one that runs. *)
Definition last_branch (st : locals) : bool :=
  negb (dialog st && (block_level st =? 0)%Z)
  && negb ((menu st || dialog st) && negb (block_level st =? 0)%Z).

(** The line is empty after its tabs and blanks, or goes on with a
    character that is no white space and that [is_w] rejects. *)
Definition not_item_start (is_w : char -> bool) (line : str) : bool :=
  match skip_tabsp line with
  | x :: _ => negb (is_space x) && negb (is_w x)
  | [] => true
  end.

(** A menu with a popup, a separator and a comment. *)
Definition popup_rows : list row :=
  [Row_item {| i_indent := u "    "; i_word := u "POPUP"; i_gap := u " ";
               i_wide := false; i_body := u "&File"; i_tail := [] |};
   Row_plain (u "    BEGIN");
   Row_item {| i_indent := u "        "; i_word := u "MENUITEM"; i_gap := u " ";
               i_wide := false; i_body := u "&Open...\tCtrl+O";
               i_tail := u ", ID_FILE_OPEN" |};
   Row_plain (u "        MENUITEM SEPARATOR");
   Row_item {| i_indent := u "        "; i_word := u "MENUITEM"; i_gap := [TAB];
               i_wide := true; i_body := u "E\x0078it";
               i_tail := u ",ID_APP_EXIT // leave" |};
   Row_plain (u "    END")].

(** The lines of a dialog before its block, and its controls. *)
Definition about_heads : list head :=
  [Head_other (u "STYLE DS_MODALFRAME | WS_POPUP");
   Head_caption {| i_indent := []; i_word := u "CAPTION"; i_gap := u " ";
                   i_wide := false; i_body := u "About"; i_tail := [] |};
   Head_other (u "FONT 8, " ++ quoted (u "MS Sans Serif"))].

Definition about_rows : list row :=
  [Row_item {| i_indent := u "    "; i_word := u "LTEXT"; i_gap := u "  ";
               i_wide := false; i_body := u "Version 1.0";
               i_tail := u ",IDC_STATIC,40,10,119,8" |};
   Row_plain (u "                    WS_GROUP");
   Row_item {| i_indent := u "    "; i_word := u "DEFPUSHBUTTON"; i_gap := u " ";
               i_wide := false; i_body := u "OK";
               i_tail := u ",IDOK,178,7,50,14" |}].

(** The variables after the menu of the specification, and a string table
    to follow it. *)
Definition after_menu : locals :=
  {| strings := [u "&File"; u "&Open..."]; menu := false; dialog := false;
     stringtable := false; block_level := 0; id_str := Some (u "END");
     dialog_id := None; hint := None; orig_str := None |}.

Definition table_lines : list str :=
  [u "STRINGTABLE";
   u "BEGIN";
   u "    IDS_HELLO " ++ quoted (u "Hello");
   u "END"].

(** The lines of a text, joined by [sep], and the line ends that
    [str.splitlines] takes for one boundary: one boundary character, or a
    carriage return and a line feed. *)
Fixpoint join_with (sep : str) (l : list str) : str :=
  match l with
  | [] => []
  | [x] => x
  | x :: r => x ++ sep ++ join_with sep r
  end.

Definition line_end (sep : str) : bool :=
  match sep with
  | [b] => is_linebreak b
  | [a; b] => (a =? CR) && (b =? LF)
  | _ => false
  end.

(** The variables that the strings of the result depend on. *)
Definition observed (st : locals) : list str * bool * bool * Z * option str :=
  (strings st, menu st, dialog st, block_level st, orig_str st).

(** The pending string that [if orig_str:] sees: [None] stands for every
    value that the test rejects. *)
Definition pending (st : locals) : option str :=
  if truthy (orig_str st) then orig_str st else None.

(** [st] is [st'] with the strings [p] before its own. *)
Definition extends (p : list str) (st st' : locals) : Prop :=
  strings st = p ++ strings st' /\ menu st = menu st' /\ dialog st = dialog st'
  /\ block_level st = block_level st' /\ pending st = pending st'.

(** ** [to_snake_case] of [menus.py] *)

Definition is_upper (c : char) : bool := (65 <=? c) && (c <=? 90).   (* [A-Z] *)
Definition is_lower (c : char) : bool := (97 <=? c) && (c <=? 122).  (* [a-z] *)
Definition is_digit (c : char) : bool := (48 <=? c) && (c <=? 57).   (* [0-9] *)
Definition is_lower_digit (c : char) : bool :=                       (* [a-z0-9] *)
  is_lower c || is_digit c.
Definition is_not_alnum (c : char) : bool :=                         (* [^a-zA-Z0-9] *)
  negb (is_lower c || is_upper c || is_digit c).

(* (.)([A-Z][a-z]+) *)
Definition camel_re : regex :=
  cat [Grp 1 dot; Grp 2 (cat [Chr is_upper; plus (Chr is_lower)])].

(* __([A-Z]) *)
Definition under_re : regex :=
  cat [lit 95; lit 95; Grp 1 (Chr is_upper)].

(* ([a-z0-9])([A-Z]) *)
Definition hump_re : regex :=
  cat [Grp 1 (Chr is_lower_digit); Grp 2 (Chr is_upper)].

(* [^a-zA-Z0-9] *)
Definition other_re : regex := Chr is_not_alnum.

(** The text that a template makes of group [n]. *)
Definition template_group (n : nat) (m : rmatch) : str :=
  match group n m with
  | Some t => t
  | None => []
  end.

(** The templates [\1_\2] and [_\1]. *)
Definition template_1_2 (m : rmatch) : str :=
  template_group 1 m ++ [95] ++ template_group 2 m.

Definition template_u_1 (m : rmatch) : str := 95 :: template_group 1 m.

Section Lower.

(** [str.lower()] turns the letters [A] to [Z] into [a] to [z].  What it
    makes of a text with a character above ASCII follows the Unicode
    character database of the interpreter, which is no part of the
    repository: [unicode_lower] stands for it. *)
Variable unicode_lower : str -> str.

Definition ascii_lower (c : char) : char := if is_upper c then c + 32 else c.

Definition lower (s : str) : str :=
  if forallb (fun c => c <? 128) s then map ascii_lower s else unicode_lower s.

End Lower.

(** The function of [src/menus.py]. *)
Module Menus.
Section ToSnakeCase.

Variable unicode_lower : str -> str.

Definition to_snake_case (name : str) : str :=
  let name := re_sub camel_re template_1_2 name in
  let name := re_sub under_re template_u_1 name in
  let name := re_sub hump_re template_1_2 name in
  lower unicode_lower name.

End ToSnakeCase.
End Menus.

(** The function of [src/textual_paint/menus.py], which takes the
    ampersands away first and turns what is no letter and no digit into
    an underscore before the text is put in lower case. *)
Module TextualPaint.
Section ToSnakeCase.

Variable unicode_lower : str -> str.

Definition to_snake_case (name : str) : str :=
  let name := replace [38] [] name in
  let name := re_sub camel_re template_1_2 name in
  let name := re_sub under_re template_u_1 name in
  let name := re_sub hump_re template_1_2 name in
  let name := re_sub other_re (fun _ => [95]) name in
  lower unicode_lower name.

End ToSnakeCase.
End TextualPaint.

(** The characters of an identifier in snake case. *)
Definition is_snake (c : char) : bool := is_lower c || is_digit c || (c =? 95).

(** A table that leaves a text with a character above ASCII as it is, to
    run [to_snake_case] on ASCII names. *)
Definition no_unicode_lower : str -> str := fun s => s.

(** The three substitutions of [to_snake_case] as scans of the text from
    the left.  [camel_go copy] puts an underscore after a character that
    a capital letter and a small letter follow, and copies the small
    letters after them, which belong to the same match, while [copy] is
    set; a line feed is never the character before the underscore. *)
Fixpoint camel_go (copy : bool) (s : str) : str :=
  match s with
  | [] => []
  | x :: s' =>
      if copy && is_lower x then x :: camel_go true s'
      else
        match s' with
        | b :: l :: t =>
            if is_dot x && is_upper b && is_lower l
            then x :: 95 :: b :: l :: camel_go true t
            else x :: camel_go false s'
        | _ => x :: camel_go false s'
        end
  end.

(** [under_go] takes one of two underscores before a capital letter
    away. *)
Fixpoint under_go (s : str) : str :=
  match s with
  | [] => []
  | x :: s' =>
      match s' with
      | y :: b :: t =>
          if (x =? 95) && (y =? 95) && is_upper b
          then 95 :: b :: under_go t
          else x :: under_go s'
      | _ => x :: under_go s'
      end
  end.

(** [hump_go] puts an underscore between a small letter or a digit and
    the capital letter that follows it. *)
Fixpoint hump_go (s : str) : str :=
  match s with
  | [] => []
  | x :: s' =>
      match s' with
      | b :: t =>
          if is_lower_digit x && is_upper b
          then x :: 95 :: b :: hump_go t
          else x :: hump_go s'
      | [] => [x]
      end
  end.

(** A word in camel case: a capital letter and the small letters that
    follow it, at least one. *)
Definition word_ok (w : char * str) : bool :=
  is_upper (fst w) && negb (length (snd w) =? 0)%nat && forallb is_lower (snd w).

Definition word_text (w : char * str) : str := fst w :: snd w.

Definition camel (ws : list (char * str)) : str := flat_map word_text ws.

(** The words in lower case, with an underscore between two of them. *)
Fixpoint snake (ws : list (char * str)) : str :=
  match ws with
  | [] => []
  | [w] => (fst w + 32) :: snd w
  | w :: rest => ((fst w + 32) :: snd w) ++ 95 :: snake rest
  end.

(** The words with an underscore after the first, the third, the fifth
    word and so on when [b] is set, and after the second, the fourth and
    so on otherwise; and the words with an underscore between any two. *)
Fixpoint paired (b : bool) (ws : list (char * str)) : str :=
  match ws with
  | [] => []
  | w :: rest =>
      word_text w
      ++ match rest with
         | [] => []
         | _ :: _ => (if b then [95] else []) ++ paired (negb b) rest
         end
  end.

Fixpoint joined (ws : list (char * str)) : str :=
  match ws with
  | [] => []
  | [w] => word_text w
  | w :: rest => word_text w ++ 95 :: joined rest
  end.

(** What follows the small letters of a word: nothing, or the next
    words, after an underscore when [b] is set. *)
Definition after_word (b : bool) (ws : list (char * str)) : str :=
  match ws with
  | [] => []
  | _ :: _ => (if b then [95] else []) ++ paired (negb b) ws
  end.

(** ** [Menu.on_key] of [menus.py]

    What [on_key] makes of [focus_index], given the key and the number of
    items.  The statements of the two versions for the keys [up] and
    [down] are the same; no other branch assigns to [focus_index]. *)
Definition on_key (key : str) (items : Z) (focus_index : Z) : Z :=
  if str_eqb key (u "up") then
    let focus_index := (focus_index - 1)%Z in
    if (focus_index <? 0)%Z then (items - 1)%Z else focus_index
  else if str_eqb key (u "down") then
    let focus_index := (focus_index + 1)%Z in
    if (focus_index >=? items)%Z then 0%Z else focus_index
  else focus_index.

(** [focus_index] after the keys, from its first value 0. *)
Definition after_keys (keys : list str) (items : Z) : Z :=
  fold_left (fun i key => on_key key items i) keys 0%Z.

(** * Properties *)

(** ** Strings *)

Lemma str_eqb_eq a b : str_eqb a b = true <-> a = b.
Proof.
  revert b. induction a as [|x a IH]; intros [|y b]; simpl; split; try congruence; try reflexivity.
  - intros H. apply andb_true_iff in H. destruct H as [H1 H2].
    apply N.eqb_eq in H1. apply IH in H2. congruence.
  - intros H. injection H as -> ->. rewrite N.eqb_refl. simpl. apply IH. reflexivity.
Qed.

Lemma splitlines_no_linebreak x s :
  no_linebreak (x :: s) = true -> splitlines (x :: s) = [x :: s].
Proof.
  revert x. induction s as [|y s IH]; intros x H.
  - simpl in *. destruct (is_linebreak x); [discriminate | reflexivity].
  - change (splitlines (x :: y :: s)) with
      (if is_linebreak x then
        [] :: (if x =? CR
               then if y =? LF then splitlines s else splitlines (y :: s)
               else splitlines (y :: s))
      else
        match splitlines (y :: s) with
        | [] => [[x]]
        | l :: ls => (x :: l) :: ls
        end).
    simpl in H. apply andb_true_iff in H. destruct H as [Hx H].
    destruct (is_linebreak x); [discriminate|].
    rewrite IH; [reflexivity|]. exact H.
Qed.

Lemma lstrip_keep x s : is_space x = false -> lstrip (x :: s) = x :: s.
Proof. intros H. simpl. rewrite H. reflexivity. Qed.

Lemma strip_keep x s y :
  is_space x = false -> is_space y = false -> strip (x :: s ++ [y]) = x :: s ++ [y].
Proof.
  intros Hx Hy. unfold strip. rewrite lstrip_keep by exact Hx.
  change (x :: s ++ [y]) with ((x :: s) ++ [y]).
  rewrite rev_app_distr.
  change (rev [y] ++ rev (x :: s)) with (y :: rev (x :: s)).
  rewrite lstrip_keep by exact Hy.
  change (y :: rev (x :: s)) with (rev [y] ++ rev (x :: s)).
  rewrite <- rev_app_distr. apply rev_involutive.
Qed.

Lemma ltb_succ i : (i <? S i)%nat = true.
Proof. apply Nat.ltb_lt. lia. Qed.

Lemma star_dot_last body : forall n i c (k : cont),
  forallb is_dot body = true -> (length body < n)%nat ->
  k (S (i + length body)) [] c = None ->
  k (i + length body)%nat [DQ] c <> None ->
  star_iter (exec dot) true n i (body ++ [DQ]) c k = k (i + length body)%nat [DQ] c.
Proof.
  induction body as [|x body IH]; intros n i c k Hdot Hn Hend Hlast.
  - simpl in Hend, Hlast. rewrite Nat.add_0_r in *.
    destruct n as [|n]; [simpl in Hn; lia|].
    cbn [star_iter app]. unfold dot at 1. cbn [exec].
    change (is_dot DQ) with true. cbv iota. rewrite ltb_succ.
    assert (E : star_iter (exec dot) true n (S i) [] c k = None).
    { destruct n; cbn [star_iter]; [exact Hend|].
      unfold dot at 1. cbn [exec]. exact Hend. }
    rewrite E. reflexivity.
  - simpl in Hdot. apply andb_true_iff in Hdot. destruct Hdot as [Hx Hdot].
    simpl in Hn. destruct n as [|n]; [lia|].
    cbn [star_iter app]. unfold dot at 1. cbn [exec]. rewrite Hx, ltb_succ.
    simpl length in *. rewrite <- !Nat.add_succ_comm in *.
    rewrite IH by (auto; lia).
    destruct (k (S i + length body)%nat [DQ] c); [reflexivity | congruence].
Qed.

Lemma forallb_no_linebreak_dot body :
  no_linebreak body = true -> forallb is_dot body = true.
Proof.
  unfold no_linebreak. rewrite !forallb_forall. intros H x Hx.
  specialize (H x Hx). unfold is_dot, is_linebreak, LF in *.
  destruct (N.eqb_spec x 10) as [->|]; [discriminate | reflexivity].
Qed.

Lemma length_literal wide body :
  length (literal wide body) = ((if wide then 1 else 0) + S (S (length body)))%nat.
Proof.
  unfold literal, quoted. destruct wide; simpl; rewrite length_app; simpl; lia.
Qed.

Lemma match_quoted wide body :
  forallb is_dot body = true ->
  exists m, match_at quoted_re 0 (literal wide body) = Some m
            /\ group 0 m = Some (literal wide body).
Proof.
  intros Hdot. unfold match_at.
  assert (E : exists c, exec quoted_re 0 (literal wide body) [] accept
                        = Some (length (literal wide body), c)).
  { rewrite length_literal. unfold quoted_re, literal, quoted.
    destruct wide; cbn [exec cat fold_right opt lit dq app N.eqb Pos.eqb DQ].
    - rewrite star_dot_last; try assumption.
      + simpl. eexists. reflexivity.
      + rewrite length_app. simpl. lia.
      + reflexivity.
      + simpl. discriminate.
    - rewrite star_dot_last; try assumption.
      + simpl. eexists. reflexivity.
      + rewrite length_app. simpl. lia.
      + reflexivity.
      + simpl. discriminate. }
  destruct E as [c E]. rewrite E. eexists. split; [reflexivity|].
  simpl. rewrite Nat.sub_0_r, firstn_all. reflexivity.
Qed.

Lemma firstn_length_app (a b : str) : firstn (length a) (a ++ b) = a.
Proof. induction a; simpl; congruence. Qed.

Lemma pieces_unquote_skip s : forall i,
  pieces_go unquote_re (length s) (S i) s = [].
Proof.
  induction s as [|x s IH]; intros i.
  - reflexivity.
  - simpl length. cbn [pieces_go]. apply IH.
Qed.

Lemma exec_unquote wide body :
  forallb is_dot body = true ->
  exec unquote_re 0 (literal wide body) [] accept
  = Some (length (literal wide body), [(1%nat, body)]).
Proof.
  intros Hdot. rewrite length_literal. unfold unquote_re, literal, quoted.
  destruct wide; cbn [exec cat fold_right opt lit dq app N.eqb Pos.eqb DQ Nat.eqb].
  - rewrite star_dot_last; try assumption.
    + cbn [exec lit N.eqb Pos.eqb DQ accept]. 
      rewrite Nat.add_comm, Nat.add_sub, firstn_length_app.
      unfold accept. f_equal. f_equal. lia.
    + rewrite length_app. simpl. lia.
    + reflexivity.
    + simpl. discriminate.
  - rewrite star_dot_last; try assumption.
    + cbn [exec lit N.eqb Pos.eqb DQ accept]. 
      rewrite Nat.add_comm, Nat.add_sub, firstn_length_app.
      unfold accept. f_equal. f_equal. lia.
    + rewrite length_app. simpl. lia.
    + reflexivity.
    + simpl. discriminate.
Qed.

Lemma sub_unquote wide body :
  forallb is_dot body = true ->
  re_sub unquote_re template_1 (literal wide body) = body.
Proof.
  intros Hdot. unfold re_sub, pieces.
  generalize (exec_unquote wide body Hdot).
  generalize (length_literal wide body). intros Hlen E.
  destruct (literal wide body) as [|x s] eqn:El.
  { destruct wide; discriminate. }
  cbn [pieces_go]. unfold match_at. rewrite E. cbn [m_end].
  replace (0 <? length (x :: s))%nat with true by reflexivity.
  simpl length. rewrite Nat.sub_0_r. cbn [Nat.sub].
  rewrite Nat.sub_0_r, pieces_unquote_skip. simpl. apply app_nil_r.
Qed.

Lemma re_sub_from r f s : re_sub r f s = sub_from r f 0 s.
Proof. reflexivity. Qed.

Lemma sub_from_keep r f i x t :
  match_at r i (x :: t) = None ->
  sub_from r f i (x :: t) = x :: sub_from r f (S i) t.
Proof. intros E. unfold sub_from. cbn [pieces_go]. rewrite E. reflexivity. Qed.

Lemma blanks_keep f i x t :
  is_tabsp x = false -> sub_from blanks_re f i (x :: t) = x :: sub_from blanks_re f (S i) t.
Proof.
  intros H. apply sub_from_keep. unfold match_at, blanks_re, plus, tabsp.
  cbn [exec]. rewrite H. reflexivity.
Qed.

Lemma comment_keep f i x t :
  (47 =? x) = false -> sub_from comment_re f i (x :: t) = x :: sub_from comment_re f (S i) t.
Proof.
  intros H. apply sub_from_keep. unfold match_at, comment_re, slash, lit.
  cbn [exec cat fold_right]. rewrite H. reflexivity.
Qed.

Lemma normalize_literal wide body :
  exists rest, normalize (literal wide body) = (if wide then [76] else []) ++ DQ :: rest.
Proof.
  unfold normalize, literal, quoted. destruct wide; cbn [app].
  - change (76 :: DQ :: body ++ [DQ]) with (76 :: (DQ :: body) ++ [DQ]).
    rewrite strip_keep by reflexivity. cbn [app].
    rewrite !re_sub_from.
    rewrite !blanks_keep by reflexivity. rewrite !comment_keep by reflexivity.
    eexists. reflexivity.
  - rewrite strip_keep by reflexivity.
    rewrite !re_sub_from.
    rewrite !blanks_keep by reflexivity. rewrite !comment_keep by reflexivity.
    eexists. reflexivity.
Qed.


(** ** Escapes *)

Lemma escape_in_head cr lf tab y s :
  exists h t, flat_map (escape_in cr lf tab) (y :: s) = h :: t /\ (h = BS \/ h = y).
Proof.
  cbn [flat_map]. unfold escape_in.
  destruct (cr && (y =? CR)); [eexists; eexists; split; [reflexivity | auto]|].
  destruct (lf && (y =? LF)); [eexists; eexists; split; [reflexivity | auto]|].
  destruct (tab && (y =? TAB)); eexists; eexists; (split; [reflexivity | auto]).
Qed.

Lemma survives_tail x s : survives (x :: s) = true -> survives s = true.
Proof. cbn [survives]. intros H. apply andb_true_iff in H. apply H. Qed.

Lemma backslash_stays cr lf tab l s :
  survives (BS :: s) = true ->
  (l =? 114) || (l =? 110) || (l =? 116) = true ->
  startswith (BS :: flat_map (escape_in cr lf tab) s) [BS; l] = false.
Proof.
  intros H Hl. cbn [startswith]. rewrite N.eqb_refl. cbn [andb].
  destruct s as [|y s]; [reflexivity|].
  destruct (escape_in_head cr lf tab y s) as (h & t & -> & Hh).
  cbn [startswith]. rewrite andb_true_r.
  cbn [survives] in H. rewrite N.eqb_refl in H. cbn [negb orb andb] in H.
  apply andb_true_iff in H. destruct H as [H _].
  destruct Hh as [-> | ->].
  - unfold BS. destruct (N.eqb_spec l 114), (N.eqb_spec l 110), (N.eqb_spec l 116);
      try discriminate; subst; reflexivity.
  - destruct (N.eqb_spec y l); [subst|reflexivity].
    rewrite Hl in H. discriminate.
Qed.

Lemma replace_go_skip1 old new x s :
  replace_go old new 1 (x :: s) = replace_go old new 0 s.
Proof. reflexivity. Qed.

Lemma replace_go_step old new x s :
  startswith (x :: s) old = false ->
  replace_go old new 0 (x :: s) = x :: replace_go old new 0 s.
Proof. intros H. cbn [replace_go]. rewrite H. reflexivity. Qed.

Lemma unescape_cr lf tab s :
  survives s = true ->
  replace [BS; 114] [CR] (flat_map (escape_in true lf tab) s)
  = flat_map (escape_in false lf tab) s.
Proof.
  unfold replace. induction s as [|x s IH]; intros H; [reflexivity|].
  specialize (IH (survives_tail _ _ H)).
  cbn [flat_map]. unfold escape_in at 1 3.
  destruct (N.eqb_spec x CR) as [->|Hcr].
  { cbn [andb app]. replace (lf && (CR =? LF)) with false by (destruct lf; reflexivity).
    replace (tab && (CR =? TAB)) with false by (destruct tab; reflexivity).
    cbn [replace_go startswith length Nat.sub app]. cbn. rewrite IH. reflexivity. }
  cbn [andb].
  destruct (lf && (x =? LF)).
  { cbn [app]. rewrite replace_go_step by reflexivity.
    rewrite replace_go_step by reflexivity. rewrite IH. reflexivity. }
  destruct (tab && (x =? TAB)).
  { cbn [app]. rewrite replace_go_step by reflexivity.
    rewrite replace_go_step by reflexivity. rewrite IH. reflexivity. }
  cbn [app].
  destruct (N.eqb_spec x BS) as [->|Hbs].
  - rewrite replace_go_step by (apply backslash_stays; [exact H | reflexivity]).
    rewrite IH. reflexivity.
  - rewrite replace_go_step. { rewrite IH. reflexivity. }
    cbn [startswith]. apply N.eqb_neq in Hbs. rewrite Hbs. reflexivity.
Qed.

Lemma unescape_lf tab s :
  survives s = true ->
  replace [BS; 110] [LF] (flat_map (escape_in false true tab) s)
  = flat_map (escape_in false false tab) s.
Proof.
  unfold replace. induction s as [|x s IH]; intros H; [reflexivity|].
  specialize (IH (survives_tail _ _ H)).
  cbn [flat_map]. unfold escape_in at 1 3. cbn [andb].
  destruct (N.eqb_spec x LF) as [->|Hlf].
  { replace (tab && (LF =? TAB)) with false by (destruct tab; reflexivity).
    cbn. rewrite IH. reflexivity. }
  destruct (tab && (x =? TAB)).
  { cbn [app]. rewrite replace_go_step by reflexivity.
    rewrite replace_go_step by reflexivity. rewrite IH. reflexivity. }
  cbn [app].
  destruct (N.eqb_spec x BS) as [->|Hbs].
  - rewrite replace_go_step by (apply backslash_stays; [exact H | reflexivity]).
    rewrite IH. reflexivity.
  - rewrite replace_go_step. { rewrite IH. reflexivity. }
    cbn [startswith]. apply N.eqb_neq in Hbs. rewrite Hbs. reflexivity.
Qed.

Lemma unescape_tab s :
  survives s = true ->
  replace [BS; 116] [TAB] (flat_map (escape_in false false true) s) = s.
Proof.
  unfold replace. induction s as [|x s IH]; intros H; [reflexivity|].
  specialize (IH (survives_tail _ _ H)).
  cbn [flat_map]. unfold escape_in at 1. cbn [andb].
  destruct (N.eqb_spec x TAB) as [->|Htab].
  { cbn. rewrite IH. reflexivity. }
  cbn [app].
  destruct (N.eqb_spec x BS) as [->|Hbs].
  - rewrite replace_go_step by (apply backslash_stays; [exact H | reflexivity]).
    rewrite IH. reflexivity.
  - rewrite replace_go_step. { rewrite IH. reflexivity. }
    cbn [startswith]. apply N.eqb_neq in Hbs. rewrite Hbs. reflexivity.
Qed.

Lemma replace_no_quote old1 old2 new s :
  forallb is_notdq s = true ->
  replace (old1 :: old2 :: [DQ]) new s = s.
Proof.
  unfold replace. induction s as [|x s IH]; intros H; [reflexivity|].
  cbn [forallb] in H. apply andb_true_iff in H. destruct H as [Hx H].
  rewrite replace_go_step; [rewrite IH by exact H; reflexivity|].
  destruct s as [|y [|z s]]; cbn [startswith];
    rewrite ?andb_false_r; try reflexivity.
  cbn [forallb] in H. apply andb_true_iff in H. destruct H as [_ H].
  apply andb_true_iff in H. destruct H as [Hz _].
  unfold is_notdq in Hz. destruct (z =? DQ); [discriminate|].
  rewrite !andb_false_r. reflexivity.
Qed.

Lemma survives_notdq s : survives s = true -> forallb is_notdq s = true.
Proof.
  induction s as [|x s IH]; intros H; [reflexivity|].
  cbn [forallb]. rewrite IH by (eapply survives_tail; exact H).
  cbn [survives] in H. unfold is_notdq.
  destruct (x =? DQ); [discriminate | reflexivity].
Qed.

Lemma escape_char_in s :
  forallb is_notdq s = true ->
  flat_map escape_char s = flat_map (escape_in true true true) s.
Proof.
  induction s as [|x s IH]; intros H; [reflexivity|].
  cbn [forallb] in H. apply andb_true_iff in H. destruct H as [Hx H].
  cbn [flat_map]. rewrite IH by exact H. f_equal.
  unfold escape_char, escape_in, is_notdq in *. cbn [andb].
  destruct (x =? CR), (x =? LF), (x =? TAB); try reflexivity.
  destruct (x =? DQ); [discriminate | reflexivity].
Qed.

Lemma unescape_escape s :
  survives s = true -> unescape (flat_map escape_char s) = s.
Proof.
  intros H. unfold unescape.
  rewrite escape_char_in by (apply survives_notdq; exact H).
  rewrite unescape_cr, unescape_lf, unescape_tab by exact H.
  apply replace_no_quote, survives_notdq, H.
Qed.

Lemma escape_no_linebreak s :
  survives s = true -> no_linebreak (flat_map escape_char s) = true.
Proof.
  unfold no_linebreak. induction s as [|x s IH]; intros H; [reflexivity|].
  cbn [flat_map]. rewrite forallb_app, IH by (eapply survives_tail; exact H).
  rewrite andb_true_r. cbn [survives] in H.
  apply andb_true_iff in H. destruct H as [H _].
  apply andb_true_iff in H. destruct H as [H _].
  apply andb_true_iff in H. destruct H as [_ H].
  unfold escape_char.
  destruct (N.eqb_spec x CR); [reflexivity|].
  destruct (N.eqb_spec x LF); [reflexivity|].
  destruct (N.eqb_spec x TAB); [reflexivity|].
  destruct (N.eqb_spec x DQ); [reflexivity|].
  rewrite !orb_false_r in H. cbn [forallb]. rewrite H. reflexivity.
Qed.

Lemma below_16 d : d < 16 ->
  d = 0 \/ d = 1 \/ d = 2 \/ d = 3 \/ d = 4 \/ d = 5 \/ d = 6 \/ d = 7 \/
  d = 8 \/ d = 9 \/ d = 10 \/ d = 11 \/ d = 12 \/ d = 13 \/ d = 14 \/ d = 15.
Proof. lia. Qed.

Lemma hex_digit_spec d : d < 16 ->
  is_hex (hex_digit d) = true /\ hex_value (hex_digit d) = Some d
  /\ is_linebreak (hex_digit d) = false /\ (hex_digit d =? BS) = false.
Proof.
  intros H. apply below_16 in H.
  repeat (destruct H as [-> | H]; [repeat split; reflexivity|]).
  subst. repeat split; reflexivity.
Qed.

Lemma hex_escape_digits x : x < 65536 ->
  x / 4096 < 16 /\ (x / 256) mod 16 < 16 /\ (x / 16) mod 16 < 16 /\ x mod 16 < 16
  /\ 16 * (16 * (16 * (16 * 0 + x / 4096) + (x / 256) mod 16) + (x / 16) mod 16)
     + x mod 16 = x.
Proof.
  intros H.
  assert (H1 := N.div_mod' x 16). assert (H2 := N.div_mod' (x / 16) 16).
  assert (H3 := N.div_mod' (x / 16 / 16) 16).
  rewrite N.Div0.div_div in H2, H3. rewrite N.Div0.div_div in H3.
  change (16 * 16) with 256 in *. change (256 * 16) with 4096 in *.
  assert (B1 := N.mod_lt x 16). assert (B2 := N.mod_lt (x / 16) 16).
  assert (B3 := N.mod_lt (x / 256) 16).
  assert (x / 4096 < 16) by (apply N.Div0.div_lt_upper_bound; lia).
  lia.
Qed.

Lemma pieces_skip r n : forall i s t,
  length s = n -> pieces_go r n i (s ++ t) = pieces_go r 0 (n + i) t.
Proof.
  induction n as [|n IH]; intros i s t H.
  - destruct s; [reflexivity | discriminate].
  - destruct s as [|x s]; [discriminate|]. injection H as H.
    cbn [app pieces_go]. rewrite IH by exact H. f_equal. lia.
Qed.

Lemma pieces_hex_escape i h3 h2 h1 h0 rest :
  is_hex h3 = true -> is_hex h2 = true -> is_hex h1 = true -> is_hex h0 = true ->
  exists m, group 1 m = Some [h3; h2; h1; h0]
    /\ pieces_go hex_re 0 i (BS :: (120 : char) :: h3 :: h2 :: h1 :: h0 :: rest)
       = Hit m :: pieces_go hex_re 0 (6 + i) rest.
Proof.
  intros H3 H2 H1 H0. cbn [pieces_go]. unfold match_at, hex_re, hex, lit.
  cbn [exec cat fold_right]. rewrite H3, H2, H1, H0.
  change (BS =? BS) with true. change (120 =? 120) with true. cbv iota.
  unfold accept. cbn [m_end].
  replace (i <? S (S (S (S (S (S i))))))%nat with true
    by (symmetry; apply Nat.ltb_lt; lia).
  replace (S (S (S (S (S (S i))))) - S (S i))%nat with 4%nat by lia.
  replace (S (S (S (S (S (S i))))) - i - 1)%nat with 5%nat by lia.
  eexists. split; [|f_equal; apply (pieces_skip hex_re 5 (S i) [120; h3; h2; h1; h0] rest eq_refl)].
  reflexivity.
Qed.

Lemma hex_char_digits m d3 d2 d1 d0 h3 h2 h1 h0 :
  group 1 m = Some [h3; h2; h1; h0] ->
  hex_value h3 = Some d3 -> hex_value h2 = Some d2 ->
  hex_value h1 = Some d1 -> hex_value h0 = Some d0 ->
  d3 < 16 -> d2 < 16 -> d1 < 16 -> d0 < 16 ->
  hex_char m = Ok [16 * (16 * (16 * (16 * 0 + d3) + d2) + d1) + d0].
Proof.
  intros G V3 V2 V1 V0 B3 B2 B1 B0. unfold hex_char. rewrite G.
  cbn [int16 int16_go]. rewrite V3, V2, V1, V0. cbn [bind]. unfold chr.
  replace (_ <? 1114112) with true by (symmetry; apply N.ltb_lt; lia).
  reflexivity.
Qed.

Lemma sub_hex_escapes cs : forall i,
  Forall (fun x => x < 65536) cs ->
  sub_pieces hex_char (pieces_go hex_re 0 i (flat_map hex_escape cs)) = Ok cs.
Proof.
  induction cs as [|x cs IH]; intros i H.
  - reflexivity.
  - inversion H as [|? ? Hx Hcs]; subst.
    destruct (hex_escape_digits x Hx) as (B3 & B2 & B1 & B0 & E).
    destruct (hex_digit_spec _ B3) as (X3 & V3 & _).
    destruct (hex_digit_spec _ B2) as (X2 & V2 & _).
    destruct (hex_digit_spec _ B1) as (X1 & V1 & _).
    destruct (hex_digit_spec _ B0) as (X0 & V0 & _).
    cbn [flat_map]. unfold hex_escape at 1. cbn [app].
    destruct (pieces_hex_escape i _ _ _ _ (flat_map hex_escape cs) X3 X2 X1 X0)
      as (m & G & ->).
    cbn [sub_pieces].
    rewrite (hex_char_digits m _ _ _ _ _ _ _ _ G V3 V2 V1 V0 B3 B2 B1 B0), E.
    cbn [bind]. rewrite IH by exact Hcs. reflexivity.
Qed.

Lemma hex_escapes_no_linebreak cs :
  Forall (fun x => x < 65536) cs -> no_linebreak (flat_map hex_escape cs) = true.
Proof.
  unfold no_linebreak. induction 1 as [|x cs Hx Hcs IH]; [reflexivity|].
  destruct (hex_escape_digits x Hx) as (B3 & B2 & B1 & B0 & _).
  destruct (hex_digit_spec _ B3) as (_ & _ & L3 & _).
  destruct (hex_digit_spec _ B2) as (_ & _ & L2 & _).
  destruct (hex_digit_spec _ B1) as (_ & _ & L1 & _).
  destruct (hex_digit_spec _ B0) as (_ & _ & L0 & _).
  cbn [flat_map]. rewrite forallb_app, IH. unfold hex_escape. cbn [forallb].
  rewrite L3, L2, L1, L0. reflexivity.
Qed.

Lemma replace_hex_escapes b old new cs :
  (120 =? b) = false ->
  Forall (fun x => x < 65536) cs ->
  replace (BS :: b :: old) new (flat_map hex_escape cs) = flat_map hex_escape cs.
Proof.
  intros Hx. unfold replace. induction 1 as [|x cs Hlt Hcs IH]; [reflexivity|].
  destruct (hex_escape_digits x Hlt) as (B3 & B2 & B1 & B0 & _).
  destruct (hex_digit_spec _ B3) as (_ & _ & _ & N3).
  destruct (hex_digit_spec _ B2) as (_ & _ & _ & N2).
  destruct (hex_digit_spec _ B1) as (_ & _ & _ & N1).
  destruct (hex_digit_spec _ B0) as (_ & _ & _ & N0).
  cbn [flat_map]. unfold hex_escape at 1 3. cbn [app].
  rewrite replace_go_step by (cbn [startswith]; rewrite Hx; reflexivity).
  rewrite replace_go_step by reflexivity.
  rewrite replace_go_step by (cbn [startswith]; rewrite N3; reflexivity).
  rewrite replace_go_step by (cbn [startswith]; rewrite N2; reflexivity).
  rewrite replace_go_step by (cbn [startswith]; rewrite N1; reflexivity).
  rewrite replace_go_step by (cbn [startswith]; rewrite N0; reflexivity).
  rewrite IH. reflexivity.
Qed.

Lemma unescape_hex_escapes cs :
  Forall (fun x => x < 65536) cs ->
  unescape (flat_map hex_escape cs) = flat_map hex_escape cs.
Proof.
  intros H. unfold unescape.
  rewrite !replace_hex_escapes by (reflexivity || exact H). reflexivity.
Qed.

(** ** Progress of the matcher *)

Lemma star_iter_reaches body g n : forall i s c k j c',
  (forall i s c k j c', body i s c k = Some (j, c') ->
     exists i' s' c1, k i' s' c1 = Some (j, c') /\ (i <= i')%nat
       /\ (i' + length s' = i + length s)%nat) ->
  star_iter body g n i s c k = Some (j, c') ->
  exists i' s' c1, k i' s' c1 = Some (j, c') /\ (i <= i')%nat
    /\ (i' + length s' = i + length s)%nat.
Proof.
  induction n as [|n IH]; intros i s c k j c' Hbody E; cbn [star_iter] in E.
  - exists i, s, c. repeat split; [exact E | lia].
  - assert (Hmore : forall K m,
        (forall i' s' c', K i' s' c'
           = if (i <? i')%nat then star_iter body g n i' s' c' k else None) ->
        body i s c K = Some m ->
        exists i' s' c1, k i' s' c1 = Some m /\ (i <= i')%nat
          /\ (i' + length s' = i + length s)%nat).
    { intros K [j1 c1] HK E1. apply Hbody in E1.
      destruct E1 as (i1 & s1 & c2 & E1 & L1 & N1). rewrite HK in E1.
      destruct (i <? i1)%nat; [|discriminate].
      apply IH in E1; [|exact Hbody].
      destruct E1 as (i2 & s2 & c3 & E2 & L2 & N2).
      exists i2, s2, c3. split; [exact E2 | lia]. }
    destruct g.
    + destruct (body i s c _) as [m|] eqn:E1.
      * injection E as ->. exact (Hmore _ _ (fun _ _ _ => eq_refl) E1).
      * exists i, s, c. repeat split; [exact E | lia].
    + destruct (k i s c) as [m|] eqn:E1.
      * injection E as ->. exists i, s, c. repeat split; [exact E1 | lia].
      * exact (Hmore _ _ (fun _ _ _ => eq_refl) E).
Qed.

(** A match ends where the continuation was called: not before the place
    where the pattern was tried, after it when the pattern must consume a
    character, and with as much text left as was not passed. *)
Lemma exec_reaches r : forall i s c k j c',
  exec r i s c k = Some (j, c') ->
  exists i' s' c1, k i' s' c1 = Some (j, c') /\ (i <= i')%nat
    /\ (i' + length s' = i + length s)%nat
    /\ (consuming r = true -> (i < i')%nat).
Proof.
  induction r as [|p|r1 IH1 r2 IH2|r1 IH1 r2 IH2|g r IH|n r IH| |];
    intros i s c k j c' E; cbn [exec] in E; cbn [consuming].
  - exists i, s, c. repeat split; [exact E | lia | discriminate].
  - destruct s as [|x s]; [discriminate|]. destruct (p x); [|discriminate].
    exists (S i), s, c. repeat split; [exact E | lia | cbn [length]; lia | lia].
  - apply IH1 in E. destruct E as (i1 & s1 & c1 & E & L1 & N1 & C1).
    apply IH2 in E. destruct E as (i2 & s2 & c2 & E & L2 & N2 & C2).
    exists i2, s2, c2. repeat split; [exact E | lia | lia |].
    intros H. apply orb_true_iff in H. destruct H as [H|H];
      [specialize (C1 H) | specialize (C2 H)]; lia.
  - destruct (exec r1 i s c k) as [m|] eqn:E1.
    + injection E as ->. apply IH1 in E1.
      destruct E1 as (i1 & s1 & c1 & E & L1 & N1 & C1).
      exists i1, s1, c1. repeat split; [exact E | lia | lia |].
      intros H. apply andb_true_iff in H. apply C1, H.
    + apply IH2 in E. destruct E as (i1 & s1 & c1 & E & L1 & N1 & C1).
      exists i1, s1, c1. repeat split; [exact E | lia | lia |].
      intros H. apply andb_true_iff in H. apply C1, H.
  - apply star_iter_reaches in E.
    + destruct E as (i1 & s1 & c1 & E & L1 & N1).
      exists i1, s1, c1. repeat split; [exact E | lia | lia | discriminate].
    + intros i0 s0 c0 k0 j0 c0' E0. apply IH in E0.
      destruct E0 as (i1 & s1 & c1 & E0 & L1 & N1 & _).
      exists i1, s1, c1. repeat split; [exact E0 | lia | lia].
  - apply IH in E. destruct E as (i1 & s1 & c1 & E & L1 & N1 & C1).
    exists i1, s1, ((n, firstn (i1 - i) s) :: c1).
    repeat split; [exact E | lia | lia | exact C1].
  - destruct (i =? 0)%nat; [|discriminate].
    exists i, s, c. repeat split; [exact E | lia | discriminate].
  - exists i, s, c. repeat split; [| lia | discriminate].
    destruct s as [|x [|y s]]; try discriminate; [exact E|].
    destruct (x =? LF); [exact E | discriminate].
Qed.

(** A match of a pattern that must consume a character ends after its
    start, and its text is not empty. *)
Lemma match_at_consumes r i s m :
  consuming r = true -> match_at r i s = Some m ->
  (i < m_end m)%nat /\ truthy (Some (m_text m)) = true.
Proof.
  unfold match_at. intros Hr E.
  destruct (exec r i s [] accept) as [[j c]|] eqn:X; [|discriminate].
  injection E as <-. cbn [m_end m_text].
  destruct (exec_reaches r _ _ _ _ _ _ X) as (i1 & s1 & c1 & A & _ & N & L).
  specialize (L Hr). injection A as -> _.
  split; [exact L|].
  destruct s as [|x s]; [cbn [length] in N; lia|].
  destruct (j - i)%nat eqn:D; [lia | reflexivity].
Qed.

(** The patterns given to [re.sub] never match the empty string. *)
Lemma sub_patterns_consume r i s m :
  In r [blanks_re; comment_re; unquote_re; hex_re] ->
  match_at r i s = Some m -> (i < m_end m)%nat.
Proof.
  intros Hr E.
  assert (C : consuming r = true).
  { repeat (destruct Hr as [<- | Hr]; [reflexivity|]). destruct Hr. }
  exact (proj1 (match_at_consumes r i s m C E)).
Qed.

Lemma search_from_match r s : forall i m,
  search_from r i s = Some m -> exists i' s', match_at r i' s' = Some m.
Proof.
  induction s as [|x s IH]; intros i m E; cbn [search_from] in E.
  - destruct (match_at r i []) eqn:X; [injection E as ->; eauto | discriminate].
  - destruct (match_at r i (x :: s)) eqn:X; [injection E as ->; eauto | eauto].
Qed.

(** What the last branch of the dispatch finds is never empty. *)
Lemma search_quoted_truthy line m :
  re_search quoted_re line = Some m -> truthy (group 0 m) = true.
Proof.
  intros E. apply search_from_match in E. destruct E as (i & s & E).
  exact (proj2 (match_at_consumes quoted_re i s m eq_refl E)).
Qed.

(** ** The extractor *)

Section Properties.
Variable unicode_alnum : char -> bool.

Lemma track_literal (wide : bool) rest st :
  let st' := track unicode_alnum ((if wide then [76] else []) ++ DQ :: rest) st in
  dialog st' = dialog st /\ block_level st' = block_level st
  /\ strings st' = strings st.
Proof.
  unfold track. destruct wide; cbn [app].
  - replace (re_match (dialog_re unicode_alnum) (76 :: DQ :: rest)) with (@None rmatch).
    2:{ unfold re_match, match_at, dialog_re, plus, word, lit.
        cbn [exec cat fold_right length star_iter]. reflexivity. }
    cbn [str_eqb u map list_ascii_of_string N_of_ascii N.eqb Pos.eqb andb].
    simpl. destruct (endswith _ _); simpl; auto.
  - replace (re_match (dialog_re unicode_alnum) (DQ :: rest)) with (@None rmatch).
    2:{ unfold re_match, match_at, dialog_re, plus, word, lit.
        cbn [exec cat fold_right length star_iter]. reflexivity. }
    simpl. destruct (endswith _ _); simpl; auto.
Qed.

Lemma search_from_hit r i s m :
  match_at r i s = Some m -> search_from r i s = Some m.
Proof. intros E. destruct s; simpl; rewrite E; reflexivity. Qed.

Lemma decode_literal (wide : bool) body :
  no_linebreak body = true ->
  decode (literal wide body)
  = if wide then re_sub_call hex_re hex_char (unescape body)
    else Ok (unescape body).
Proof.
  intros H. unfold decode.
  rewrite sub_unquote by (apply forallb_no_linebreak_dot; exact H).
  destruct wide; reflexivity.
Qed.

Lemma loop_body_literal (wide : bool) body st :
  no_linebreak body = true -> dialog st = false -> block_level st = 0%Z ->
  exists st1,
    strings st1 = strings st
    /\ loop_body unicode_alnum st (literal wide body)
       = s <- decode (literal wide body) ;; Ok (append_string s st1).
Proof.
  intros Hb Hd Hl. unfold loop_body.
  destruct (normalize_literal wide body) as [rest ->].
  destruct (track_literal wide rest st) as (Td & Tl & Ts).
  set (st1 := track unicode_alnum _ st) in *.
  rewrite Hd in Td. rewrite Hl in Tl.
  unfold dispatch. rewrite Td, Tl. cbn [andb Z.eqb negb]. rewrite andb_false_r.
  destruct (match_quoted wide body (forallb_no_linebreak_dot _ Hb)) as (m & Em & Eg).
  unfold re_search. rewrite (search_from_hit _ _ _ _ Em), Eg.
  unfold emit. cbn [orig_str set_pending].
  replace (truthy (Some (literal wide body))) with true
    by (destruct wide; reflexivity).
  eexists. split; [|reflexivity]. exact Ts.
Qed.

Lemma literal_no_linebreak (wide : bool) body :
  no_linebreak body = true -> no_linebreak (literal wide body) = true.
Proof.
  intros H. unfold literal, quoted, no_linebreak in *.
  rewrite forallb_app. cbn [forallb]. rewrite forallb_app, H.
  destruct wide; reflexivity.
Qed.

Lemma parse_literal (wide : bool) body :
  no_linebreak body = true ->
  parse_rc_file unicode_alnum (literal wide body)
  = s <- decode (literal wide body) ;; Ok [s].
Proof.
  intros H. unfold parse_rc_file.
  assert (E : splitlines (literal wide body) = [literal wide body]).
  { generalize (literal_no_linebreak wide body H).
    destruct (literal wide body) as [|x t] eqn:El.
    - destruct wide; discriminate.
    - apply splitlines_no_linebreak. }
  rewrite E. cbn [scan].
  destruct (loop_body_literal wide body init H eq_refl eq_refl) as (st1 & Hs & ->).
  destruct (decode (literal wide body)) as [s|e]; cbn [bind scan]; [|reflexivity].
  cbn [strings append_string]. rewrite Hs. reflexivity.
Qed.

(** *** No exception *)

Lemma is_hex_value h :
  is_hex h = true -> exists d, hex_value h = Some d /\ d < 16.
Proof.
  unfold is_hex, hex_value. intros H.
  destruct (N.leb_spec 48 h), (N.leb_spec h 57); cbn [andb orb] in *;
    [eexists; split; [reflexivity | lia]|..];
    destruct (N.leb_spec 65 h), (N.leb_spec h 70); cbn [andb orb] in *;
    try (eexists; split; [reflexivity | lia]);
    destruct (N.leb_spec 97 h), (N.leb_spec h 102); cbn [andb orb] in *;
    try (eexists; split; [reflexivity | lia]); discriminate.
Qed.

Lemma match_hex_char i s m :
  match_at hex_re i s = Some m -> exists x, hex_char m = Ok [x].
Proof.
  unfold match_at, hex_re, hex, lit. intros E.
  destruct s as [|a [|b [|h3 [|h2 [|h1 [|h0 rest]]]]]];
    cbn [exec cat fold_right] in E;
    try solve [repeat match type of E with
                      | context [if ?b then _ else _] => destruct b
                      end; discriminate E].
  destruct (BS =? a); [|discriminate E].
  destruct (120 =? b); [|discriminate E].
  destruct (is_hex h3) eqn:X3; [|discriminate E].
  destruct (is_hex h2) eqn:X2; [|discriminate E].
  destruct (is_hex h1) eqn:X1; [|discriminate E].
  destruct (is_hex h0) eqn:X0; [|discriminate E].
  unfold accept in E.
  replace (S (S (S (S (S (S i))))) - S (S i))%nat with 4%nat in E by lia.
  cbn [firstn] in E. injection E as <-.
  destruct (is_hex_value _ X3) as (d3 & V3 & B3).
  destruct (is_hex_value _ X2) as (d2 & V2 & B2).
  destruct (is_hex_value _ X1) as (d1 & V1 & B1).
  destruct (is_hex_value _ X0) as (d0 & V0 & B0).
  eexists.
  apply (hex_char_digits _ d3 d2 d1 d0 h3 h2 h1 h0); try assumption; reflexivity.
Qed.

Lemma pieces_hits r m s : forall skip i,
  In (Hit m) (pieces_go r skip i s) -> exists i' s', match_at r i' s' = Some m.
Proof.
  induction s as [|x s IH]; intros skip i H.
  - destruct skip; cbn [pieces_go] in H; [|contradiction].
    destruct (match_at r i []) as [m'|] eqn:E; [|contradiction].
    destruct (i <? m_end m')%nat; [|contradiction].
    destruct H as [H|[]]. injection H as ->. eauto.
  - destruct skip; cbn [pieces_go] in H; [|eauto].
    destruct (match_at r i (x :: s)) as [m'|] eqn:E.
    + destruct (i <? m_end m')%nat.
      * destruct H as [H|H]; [injection H as ->; eauto | eauto].
      * destruct H as [H|H]; [discriminate | eauto].
    + destruct H as [H|H]; [discriminate | eauto].
Qed.

Lemma sub_pieces_total f l :
  (forall m, In (Hit m) l -> exists t, f m = Ok t) ->
  exists t, sub_pieces f l = Ok t.
Proof.
  induction l as [|p l IH]; intros H.
  - eexists. reflexivity.
  - destruct IH as [t Ht]. { intros m Hm. apply H. right. exact Hm. }
    destruct p as [x|m]; cbn [sub_pieces]; rewrite Ht.
    + eexists. reflexivity.
    + destruct (H m (or_introl eq_refl)) as [a ->]. eexists. reflexivity.
Qed.

Lemma decode_total o : exists s, decode o = Ok s.
Proof.
  unfold decode. destruct (startswith o (u "L")); [|eexists; reflexivity].
  apply sub_pieces_total. intros m Hm.
  apply pieces_hits in Hm. destruct Hm as (i & s & Hm).
  destruct (match_hex_char _ _ _ Hm) as [x Hx]. eauto.
Qed.

Lemma emit_total st :
  exists st', emit st = Ok st'
    /\ menu st' = menu st /\ dialog st' = dialog st
    /\ dialog_id st' = dialog_id st /\ block_level st' = block_level st
    /\ (length (strings st') <= S (length (strings st)))%nat.
Proof.
  unfold emit. destruct (orig_str st) as [o|].
  - destruct (truthy (Some o)).
    + destruct (decode_total o) as [s ->]. eexists. split; [reflexivity|].
      cbn. rewrite length_app. cbn. repeat split; lia.
    + eexists. split; [reflexivity|]. repeat split; lia.
  - eexists. split; [reflexivity|]. repeat split; lia.
Qed.

Lemma dispatch_fields line st :
  let st' := dispatch unicode_alnum line st in
  strings st' = strings st /\ menu st' = menu st /\ dialog st' = dialog st
  /\ dialog_id st' = dialog_id st /\ block_level st' = block_level st.
Proof.
  unfold dispatch.
  repeat match goal with
         | |- context [if ?b then _ else _] => destruct b
         | |- context [match ?o with Some _ => _ | None => _ end] => destruct o
         end; cbn; auto.
Qed.

Lemma track_strings norm st : strings (track unicode_alnum norm st) = strings st.
Proof.
  unfold track.
  repeat match goal with
         | |- context [if ?b then _ else _] => destruct b
         | |- context [match ?o with Some _ => _ | None => _ end] => destruct o
         end; reflexivity.
Qed.

Lemma track_block_level norm st :
  block_level (track unicode_alnum norm st)
  = (block_level st + (if str_eqb norm (u "BEGIN") then 1 else 0)
     - (if str_eqb norm (u "END") then 1 else 0))%Z.
Proof.
  unfold track.
  repeat match goal with
         | |- context [if ?b then _ else _] => destruct b
         | |- context [match ?o with Some _ => _ | None => _ end] => destruct o
         end; cbn; lia.
Qed.

(** One turn of the loop always completes; it keeps what [track] made of
    the block variables and appends at most one string. *)
Lemma loop_body_total st line :
  exists st', loop_body unicode_alnum st line = Ok st'
    /\ menu st' = menu (track unicode_alnum (normalize line) st)
    /\ dialog st' = dialog (track unicode_alnum (normalize line) st)
    /\ dialog_id st' = dialog_id (track unicode_alnum (normalize line) st)
    /\ block_level st' = block_level (track unicode_alnum (normalize line) st)
    /\ (length (strings st') <= S (length (strings st)))%nat.
Proof.
  unfold loop_body.
  destruct (dispatch_fields line (track unicode_alnum (normalize line) st))
    as (Ds & Dm & Dd & Di & Db).
  destruct (emit_total (dispatch unicode_alnum line
                          (track unicode_alnum (normalize line) st)))
    as (st' & E & Em & Ed & Ei & Eb & El).
  exists st'. split; [exact E|].
  rewrite Em, Ed, Ei, Eb, Dm, Dd, Di, Db.
  rewrite Ds, track_strings in El. auto.
Qed.

Lemma scan_total lines : forall st,
  exists st', scan unicode_alnum st lines = Ok st'
    /\ (length (strings st') <= length (strings st) + length lines)%nat
    /\ block_level st'
       = (block_level st + count_lines is_begin lines
          - count_lines is_end lines)%Z.
Proof.
  unfold count_lines. induction lines as [|line lines IH]; intros st.
  - exists st. cbn. repeat split; lia.
  - destruct (loop_body_total st line) as (st1 & E & _ & _ & _ & Hb & Hl).
    destruct (IH st1) as (st' & E' & Hl' & Hb').
    exists st'. cbn [scan]. rewrite E. cbn [bind]. split; [exact E'|].
    split; [cbn [length]; lia|].
    rewrite Hb', Hb, track_block_level. cbn [filter]. unfold is_begin, is_end.
    destruct (str_eqb (normalize line) (u "BEGIN")),
             (str_eqb (normalize line) (u "END")); cbn [length]; lia.
Qed.

(** ** The claims *)

(** C1, at the literal whose body is [a], backslash, double quote, [b]:
    the backslash and the double quote both stay in the extracted string,
    because the last replacement of [unescape] looks for two backslashes
    before the double quote; with two backslashes in the body the three
    characters become one double quote. *)
Theorem C1_backslash_quote_is_kept :
  parse_rc_file unicode_alnum (quoted escaped_quote_body)
  = Ok [escaped_quote_body]
  /\ parse_rc_file unicode_alnum (quoted double_backslash_body)
     = Ok [u "a" ++ DQ :: u "b"].
Proof. split; vm_compute; reflexivity. Qed.

(** C2, amended: a plain string without double quote, without a line
    boundary other than carriage return and line feed, and without a
    backslash directly before [r], [n] or [t], encoded as a literal, is
    extracted as the one-element list of itself. *)
Theorem C2_round_trip (s : str) :
  survives s = true ->
  parse_rc_file unicode_alnum (rc_literal s) = Ok [s].
Proof.
  intros H. change (rc_literal s) with (literal false (flat_map escape_char s)).
  rewrite parse_literal, decode_literal by (apply escape_no_linebreak; exact H).
  rewrite unescape_escape by exact H. reflexivity.
Qed.

(** C3: on every text the extractor returns a list, without raising, and
    the list has at most one string for each line. *)
Theorem C3_never_raises (rc_file_text : str) :
  exists out, parse_rc_file unicode_alnum rc_file_text = Ok out
    /\ (length out <= length (splitlines rc_file_text))%nat.
Proof.
  unfold parse_rc_file.
  destruct (scan_total (splitlines rc_file_text) init) as (st & -> & H & _).
  exists (strings st). split; [reflexivity | exact H].
Qed.

(** C4, amended: after every prefix of the lines, [block_level] is the
    number of [BEGIN] lines minus the number of [END] lines of the prefix,
    as a signed integer. *)
Theorem C4_block_level (rc_file_text : str) (k : nat) :
  exists st,
    scan unicode_alnum init (firstn k (splitlines rc_file_text)) = Ok st
    /\ block_level st
       = (count_lines is_begin (firstn k (splitlines rc_file_text))
          - count_lines is_end (firstn k (splitlines rc_file_text)))%Z.
Proof.
  destruct (scan_total (firstn k (splitlines rc_file_text)) init)
    as (st & E & _ & H).
  exists st. split; [exact E|]. rewrite H. cbn [block_level init]. lia.
Qed.

(** C5: in a wide literal every [\xHHHH] escape becomes the character with
    that code point, and in a literal that is not wide the same text is
    extracted as it stands. *)
Theorem C5_wide_hex_escapes (cs : list char) :
  Forall (fun x => x < 65536) cs ->
  parse_rc_file unicode_alnum (literal true (flat_map hex_escape cs)) = Ok [cs]
  /\ parse_rc_file unicode_alnum (literal false (flat_map hex_escape cs))
     = Ok [flat_map hex_escape cs].
Proof.
  intros H.
  rewrite !parse_literal, !decode_literal
    by (apply hex_escapes_no_linebreak; exact H).
  rewrite unescape_hex_escapes by exact H.
  unfold re_sub_call, pieces. rewrite sub_hex_escapes by exact H.
  split; reflexivity.
Qed.

(** C6: the menu of the specification gives its two labels, in order and
    with their ampersands. *)
Theorem C6_menu_block :
  parse_rc_file unicode_alnum (join_lines menu_lines)
  = Ok [u "&File"; u "&Open..."].
Proof. vm_compute. reflexivity. Qed.

Lemma track_dialog_reset norm st :
  dialog st = true ->
  dialog (track unicode_alnum norm st) = false ->
  norm = u "END" /\ block_level (track unicode_alnum norm st) = 0%Z.
Proof.
  unfold track. intros Hd.
  destruct (str_eqb norm (u "END")) eqn:Hend.
  - apply str_eqb_eq in Hend. intros H. split; [exact Hend|]. revert H.
    repeat match goal with
           | |- context [if ?b then _ else _] => destruct b eqn:?
           | |- context [match ?o with Some _ => _ | None => _ end] => destruct o
           end; cbn; intros H; try congruence;
      match goal with Z0 : (_ =? 0)%Z = true |- _ =>
        cbn in Z0; apply Z.eqb_eq in Z0; exact Z0 end.
  - repeat match goal with
           | |- context [if ?b then _ else _] => destruct b eqn:?
           | |- context [match ?o with Some _ => _ | None => _ end] => destruct o
           end; cbn; intros H; congruence.
Qed.
Lemma track_end st :
  track unicode_alnum (u "END") st
  = if (block_level st - 1 =? 0)%Z
    then close_block (set_block_level (block_level st - 1) st)
    else set_block_level (block_level st - 1) st.
Proof.
  unfold track.
  change (endswith (u "END") (u " MENU")) with false.
  change (re_match (dialog_re unicode_alnum) (u "END")) with (@None rmatch).
  change (str_eqb (u "END") (u "STRINGTABLE")) with false.
  change (str_eqb (u "END") (u "BEGIN")) with false.
  change (str_eqb (u "END") (u "END")) with true.
  reflexivity.
Qed.

(** C7: an [END] line lowers [block_level] by one and resets [dialog] and
    [dialog_id] exactly when the level reaches 0; a line that resets a set
    [dialog] is an [END] line that brings the level to 0.  In the dialog
    with a block inside its block, both variables are still set after the
    inner [END], at level 1, and are reset after the outer [END], at
    level 0. *)
Theorem C7_nested_blocks :
  (forall st, exists st',
      loop_body unicode_alnum st (u "END") = Ok st'
      /\ block_level st' = (block_level st - 1)%Z
      /\ if (block_level st - 1 =? 0)%Z
         then dialog st' = false /\ dialog_id st' = None
         else dialog st' = dialog st /\ dialog_id st' = dialog_id st)
  /\ (forall st line, dialog st = true ->
      exists st',
        loop_body unicode_alnum st line = Ok st'
        /\ (dialog st' = false ->
            normalize line = u "END" /\ block_level st' = 0%Z))
  /\ scan unicode_alnum init (firstn 4 dialog_lines) = Ok after_inner_end
  /\ scan unicode_alnum init dialog_lines = Ok after_outer_end.
Proof.
  split; [|split; [|split; vm_compute; reflexivity]].
  - intros st.
    destruct (loop_body_total st (u "END")) as (st' & E & _ & Hd & Hi & Hb & _).
    change (normalize (u "END")) with (u "END") in Hd, Hi, Hb.
    rewrite track_end in Hd, Hi, Hb.
    exists st'. split; [exact E|].
    destruct (block_level st - 1 =? 0)%Z; cbn in Hd, Hi, Hb; auto.
  - intros st line Hs.
    destruct (loop_body_total st line) as (st' & E & _ & Hd & _ & Hb & _).
    exists st'. split; [exact E|]. rewrite Hd, Hb.
    apply track_dialog_reset, Hs.
Qed.

(** C8: in the last branch of the dispatch, the line [IDS_GREETING] adds
    no string and is kept as [id_str]; the literal on the next line is
    then appended.  The text of these two lines gives that one string. *)
Theorem C8_two_line_idiom (st : locals) :
  fallback_context st -> orig_str st = None ->
  (exists st1 st2,
      loop_body unicode_alnum st greeting_id_line = Ok st1
      /\ strings st1 = strings st
      /\ id_str st1 = Some greeting_id_line
      /\ orig_str st1 = None
      /\ loop_body unicode_alnum st1 greeting_line = Ok st2
      /\ strings st2 = strings st ++ [u "Hello, world!"])
  /\ parse_rc_file unicode_alnum (join_lines [greeting_id_line; greeting_line])
     = Ok [u "Hello, world!"].
Proof.
  intros [Hm Hd] Ho. destruct st as [ss m d t bl i di h o].
  cbn in Hm, Hd, Ho. subst m d o.
  split; [|vm_compute; reflexivity].
  eexists. eexists.
  split; [vm_compute; reflexivity|].
  split; [reflexivity|]. split; [reflexivity|]. split; [reflexivity|].
  split; [vm_compute; reflexivity | reflexivity].
Qed.

(** C9: in the last branch of the dispatch, the line
    [IDS_FOO], literal [bar], [// translators: context note] appends
    exactly [bar]; so does the text of that line alone, and the line
    inside a [STRINGTABLE] block. *)
Theorem C9_comment_stripping (st : locals) :
  fallback_context st ->
  (exists st',
      loop_body unicode_alnum st commented_line = Ok st'
      /\ strings st' = strings st ++ [u "bar"])
  /\ parse_rc_file unicode_alnum commented_line = Ok [u "bar"]
  /\ parse_rc_file unicode_alnum
       (join_lines [u "STRINGTABLE"; u "BEGIN"; commented_line; u "END"])
     = Ok [u "bar"].
Proof.
  intros [Hm Hd]. destruct st as [ss m d t bl i di h o].
  cbn in Hm, Hd. subst m d.
  split; [|split; vm_compute; reflexivity].
  eexists. split; [vm_compute; reflexivity | reflexivity].
Qed.

(** C10: in the last branch of the dispatch, a line with the literal of
    the empty body appends the empty string, alone on its line or after an
    identifier; what the pattern of that branch finds on any line is never
    empty for the test of [emit]. *)
Theorem C10_empty_literal (st : locals) :
  fallback_context st ->
  (exists st',
      loop_body unicode_alnum st (quoted []) = Ok st'
      /\ strings st' = strings st ++ [[]])
  /\ (exists st',
      loop_body unicode_alnum st empty_literal_line = Ok st'
      /\ strings st' = strings st ++ [[]])
  /\ (forall line m,
        re_search quoted_re line = Some m -> truthy (group 0 m) = true).
Proof.
  intros [Hm Hd]. destruct st as [ss m d t bl i di h o].
  cbn in Hm, Hd. subst m d.
  split; [|split].
  - eexists. split; [vm_compute; reflexivity | reflexivity].
  - eexists. split; [vm_compute; reflexivity | reflexivity].
  - exact search_quoted_truthy.
Qed.

End Properties.

(** ** Instances *)

Lemma C2_round_trip_witness :
  survives (u "one" ++ [TAB] ++ u "C:\dir" ++ [CR; LF] ++ u "four") = true
  /\ parse_rc_file no_unicode_alnum
       (rc_literal (u "one" ++ [TAB] ++ u "C:\dir" ++ [CR; LF] ++ u "four"))
     = Ok [u "one" ++ [TAB] ++ u "C:\dir" ++ [CR; LF] ++ u "four"].
Proof.
  split; [reflexivity|].
  apply (C2_round_trip no_unicode_alnum); reflexivity.
Defined.

(** The plain string backslash, [n] does not come back: it is extracted
    as a line feed. *)
Lemma C2_counterexample :
  parse_rc_file no_unicode_alnum (rc_literal (u "\n")) = Ok [[LF]]
  /\ parse_rc_file no_unicode_alnum (rc_literal (u "\n")) <> Ok [u "\n"].
Proof.
  split; [vm_compute; reflexivity|].
  intros H. vm_compute in H. discriminate H.
Qed.

(** One [END] line takes [block_level] below 0. *)
Lemma C4_counterexample :
  exists st,
    scan no_unicode_alnum init (firstn 1 (splitlines (u "END"))) = Ok st
    /\ (block_level st < 0)%Z.
Proof. eexists. split; [vm_compute; reflexivity | reflexivity]. Qed.

Lemma C5_wide_hex_escapes_witness :
  Forall (fun x => x < 65536) [65; 66]
  /\ parse_rc_file no_unicode_alnum (literal true (u "\x0041\x0042"))
     = Ok [u "AB"]
  /\ parse_rc_file no_unicode_alnum (literal false (u "\x0041\x0042"))
     = Ok [u "\x0041\x0042"].
Proof.
  assert (H : Forall (fun x => x < 65536) [65; 66])
    by (repeat constructor).
  split; [exact H|].
  exact (C5_wide_hex_escapes no_unicode_alnum [65; 66] H).
Defined.

Lemma C7_nested_blocks_witness :
  dialog after_inner_end = true
  /\ exists st',
       loop_body no_unicode_alnum after_inner_end (u "END") = Ok st'
       /\ (dialog st' = false ->
           normalize (u "END") = u "END" /\ block_level st' = 0%Z).
Proof.
  split; [reflexivity|].
  exact (proj1 (proj2 (C7_nested_blocks no_unicode_alnum))
           after_inner_end (u "END") eq_refl).
Defined.

Lemma C8_two_line_idiom_witness :
  fallback_context init /\ orig_str init = None
  /\ parse_rc_file no_unicode_alnum (join_lines [greeting_id_line; greeting_line])
     = Ok [u "Hello, world!"].
Proof.
  assert (H : fallback_context init) by (split; reflexivity).
  split; [exact H|]. split; [reflexivity|].
  exact (proj2 (C8_two_line_idiom no_unicode_alnum init H eq_refl)).
Defined.

Lemma C9_comment_stripping_witness :
  fallback_context init
  /\ parse_rc_file no_unicode_alnum commented_line = Ok [u "bar"].
Proof.
  assert (H : fallback_context init) by (split; reflexivity).
  split; [exact H|].
  exact (proj1 (proj2 (C9_comment_stripping no_unicode_alnum init H))).
Defined.

Lemma C10_empty_literal_witness :
  fallback_context init
  /\ exists st',
       loop_body no_unicode_alnum init (quoted []) = Ok st'
       /\ strings st' = strings init ++ [[]].
Proof.
  assert (H : fallback_context init) by (split; reflexivity).
  split; [exact H|].
  exact (proj1 (C10_empty_literal no_unicode_alnum init H)).
Defined.

(** * Further properties of the extractor *)

(** ** What a match consumes *)

Lemma star_iter_suffix body g n : forall i s c k j c',
  (forall i s c k j c', body i s c k = Some (j, c') ->
     exists i' s' c1 pre, k i' s' c1 = Some (j, c') /\ s = pre ++ s') ->
  star_iter body g n i s c k = Some (j, c') ->
  exists i' s' c1 pre, k i' s' c1 = Some (j, c') /\ s = pre ++ s'.
Proof.
  induction n as [|n IH]; intros i s c k j c' Hbody E; cbn [star_iter] in E.
  - exists i, s, c, []. split; [exact E | reflexivity].
  - assert (Hmore : forall K m,
        (forall i' s' c', K i' s' c'
           = if (i <? i')%nat then star_iter body g n i' s' c' k else None) ->
        body i s c K = Some m ->
        exists i' s' c1 pre, k i' s' c1 = Some m /\ s = pre ++ s').
    { intros K [j1 c1] HK E1. apply Hbody in E1.
      destruct E1 as (i1 & s1 & c2 & p1 & E1 & ->). rewrite HK in E1.
      destruct (i <? i1)%nat; [|discriminate].
      apply IH in E1; [|exact Hbody].
      destruct E1 as (i2 & s2 & c3 & p2 & E2 & ->).
      exists i2, s2, c3, (p1 ++ p2). split; [exact E2 | apply app_assoc]. }
    destruct g.
    + destruct (body i s c _) as [m|] eqn:E1.
      * injection E as ->. exact (Hmore _ _ (fun _ _ _ => eq_refl) E1).
      * exists i, s, c, []. split; [exact E | reflexivity].
    + destruct (k i s c) as [m|] eqn:E1.
      * injection E as ->. exists i, s, c, []. split; [exact E1 | reflexivity].
      * exact (Hmore _ _ (fun _ _ _ => eq_refl) E).
Qed.

(** The continuation is called on a suffix of the text, and what lies
    before it holds a character that the pattern demands. *)
Lemma exec_demands want r : forall i s c k j c',
  exec r i s c k = Some (j, c') ->
  exists i' s' c1 pre, k i' s' c1 = Some (j, c') /\ s = pre ++ s'
    /\ (demands want r -> existsb want pre = true).
Proof.
  induction r as [|p|r1 IH1 r2 IH2|r1 IH1 r2 IH2|g r IH|n r IH| |];
    intros i s c k j c' E; cbn [exec] in E; cbn [demands].
  - exists i, s, c, []. repeat split; [exact E | contradiction].
  - destruct s as [|x s]; [discriminate|]. destruct (p x) eqn:Px; [|discriminate].
    exists (S i), s, c, [x]. repeat split; [exact E|].
    intros H. cbn. rewrite (H x Px). reflexivity.
  - apply IH1 in E. destruct E as (i1 & s1 & c1 & p1 & E & -> & D1).
    apply IH2 in E. destruct E as (i2 & s2 & c2 & p2 & E & -> & D2).
    exists i2, s2, c2, (p1 ++ p2). repeat split; [exact E | apply app_assoc |].
    rewrite existsb_app. intros [H|H]; [rewrite (D1 H) | rewrite (D2 H)];
      [reflexivity | apply orb_true_r].
  - destruct (exec r1 i s c k) as [m|] eqn:E1.
    + injection E as ->. apply IH1 in E1.
      destruct E1 as (i1 & s1 & c1 & p1 & E & -> & D1).
      exists i1, s1, c1, p1. repeat split; [exact E|]. intros [H _]. exact (D1 H).
    + apply IH2 in E. destruct E as (i1 & s1 & c1 & p1 & E & -> & D1).
      exists i1, s1, c1, p1. repeat split; [exact E|]. intros [_ H]. exact (D1 H).
  - apply star_iter_suffix in E.
    + destruct E as (i1 & s1 & c1 & p1 & E & ->).
      exists i1, s1, c1, p1. repeat split; [exact E | contradiction].
    + intros i0 s0 c0 k0 j0 c0' E0. apply IH in E0.
      destruct E0 as (i1 & s1 & c1 & p1 & E0 & -> & _).
      exists i1, s1, c1, p1. split; [exact E0 | reflexivity].
  - apply IH in E. destruct E as (i1 & s1 & c1 & p1 & E & -> & D1).
    exists i1, (s1), ((n, firstn (i1 - i) (p1 ++ s1)) :: c1), p1.
    repeat split; [exact E | exact D1].
  - destruct (i =? 0)%nat; [|discriminate].
    exists i, s, c, []. repeat split; [exact E | contradiction].
  - exists i, s, c, []. repeat split; [| contradiction].
    destruct s as [|x [|y s]]; try discriminate; [exact E|].
    destruct (x =? LF); [exact E | discriminate].
Qed.

Lemma match_at_demands want r i s m :
  demands want r -> match_at r i s = Some m -> existsb want s = true.
Proof.
  unfold match_at. intros D E.
  destruct (exec r i s [] accept) as [[j c]|] eqn:X; [|discriminate].
  destruct (exec_demands want r _ _ _ _ _ _ X) as (i1 & s1 & c1 & p & _ & -> & H).
  rewrite existsb_app, (H D). reflexivity.
Qed.

Lemma search_from_demands want r s : forall i m,
  demands want r -> search_from r i s = Some m -> existsb want s = true.
Proof.
  induction s as [|x s IH]; intros i m D E; cbn [search_from] in E.
  - destruct (match_at r i []) eqn:X; [|discriminate].
    exact (match_at_demands want r _ _ _ D X).
  - destruct (match_at r i (x :: s)) eqn:X.
    + exact (match_at_demands want r _ _ _ D X).
    + cbn [existsb]. rewrite (IH _ _ D E). apply orb_true_r.
Qed.

(** ** Lines without a double quote *)

Lemma caption_demands_dq : demands (N.eqb DQ) caption_re.
Proof. cbn. do 4 right. left. right. left. exact (fun x H => H). Qed.

Lemma quoted_demands_dq : demands (N.eqb DQ) quoted_re.
Proof. cbn. right. left. exact (fun x H => H). Qed.

Lemma leading_quoted_demands_dq : demands (N.eqb DQ) leading_quoted_re.
Proof. cbn. do 2 right. left. right. left. exact (fun x H => H). Qed.

Section Further.

Variable unicode_alnum : char -> bool.

Lemma item_demands_dq : demands (N.eqb DQ) (item_re unicode_alnum).
Proof. cbn. do 4 right. left. right. left. exact (fun x H => H). Qed.

Lemma dispatch_no_dq line st :
  has_dq line = false ->
  orig_str (dispatch unicode_alnum line st) = orig_str st.
Proof.
  unfold has_dq. intros H. unfold dispatch, re_match, re_search.
  destruct (dialog st && (block_level st =? 0)%Z).
  { destruct (match_at caption_re 0 line) eqn:E; [|reflexivity].
    apply (match_at_demands _ _ _ _ _ caption_demands_dq) in E. exact (False_ind _ (eq_true_false_abs _ E H)). }
  destruct ((menu st || dialog st) && negb (block_level st =? 0)%Z).
  { destruct (match_at (item_re unicode_alnum) 0 line) eqn:E; [|reflexivity].
    apply (match_at_demands _ _ _ _ _ item_demands_dq) in E. exact (False_ind _ (eq_true_false_abs _ E H)). }
  destruct (search_from quoted_re 0 line) eqn:E.
  { apply (search_from_demands _ _ _ _ _ quoted_demands_dq) in E. exact (False_ind _ (eq_true_false_abs _ E H)). }
  destruct (match_at (ident_re unicode_alnum) 0 line); [reflexivity|].
  destruct (match_at leading_quoted_re 0 line) eqn:E'; [|reflexivity].
  apply (match_at_demands _ _ _ _ _ leading_quoted_demands_dq) in E'.
  exact (False_ind _ (eq_true_false_abs _ E' H)).
Qed.

Lemma track_orig_str norm st :
  orig_str (track unicode_alnum norm st) = orig_str st.
Proof.
  unfold track.
  repeat match goal with
         | |- context [if ?b then _ else _] => destruct b
         | |- context [match ?o with Some _ => _ | None => _ end] => destruct o
         end; reflexivity.
Qed.

(** One turn of the loop leaves no pending literal behind, and appends
    nothing when the line has no double quote and no literal was pending. *)
Lemma loop_body_pending st line :
  exists st', loop_body unicode_alnum st line = Ok st'
    /\ truthy (orig_str st') = false
    /\ (truthy (orig_str st) = false -> has_dq line = false ->
        strings st' = strings st)
    /\ (length (strings st') <= S (length (strings st)))%nat.
Proof.
  unfold loop_body.
  set (st1 := dispatch unicode_alnum line (track unicode_alnum (normalize line) st)).
  assert (Hs : strings st1 = strings st).
  { unfold st1. destruct (dispatch_fields unicode_alnum line
      (track unicode_alnum (normalize line) st)) as (-> & _).
    apply track_strings. }
  assert (Ho : has_dq line = false -> orig_str st1 = orig_str st).
  { intros H. unfold st1. rewrite dispatch_no_dq by exact H.
    apply track_orig_str. }
  unfold emit. destruct (orig_str st1) as [o|] eqn:Eo.
  - destruct (truthy (Some o)) eqn:Et.
    + destruct (decode_total o) as [s ->]. eexists. split; [reflexivity|].
      cbn [bind orig_str append_string strings]. split; [reflexivity|]. split.
      * intros Hn Hq. rewrite <- (Ho Hq), Et in Hn. discriminate.
      * rewrite length_app, Hs. cbn. lia.
    + exists st1. split; [reflexivity|]. rewrite Eo. split; [exact Et|].
      split; [intros; exact Hs | rewrite Hs; lia].
  - exists st1. split; [reflexivity|]. rewrite Eo. split; [reflexivity|].
    split; [intros; exact Hs | rewrite Hs; lia].
Qed.

Lemma scan_quoted_lines lines : forall st,
  truthy (orig_str st) = false ->
  exists st', scan unicode_alnum st lines = Ok st'
    /\ (length (strings st')
        <= length (strings st) + length (filter has_dq lines))%nat.
Proof.
  induction lines as [|line lines IH]; intros st Hn.
  - exists st. split; [reflexivity | cbn; lia].
  - destruct (loop_body_pending st line) as (st1 & E & Hn1 & Hq & Hl).
    destruct (IH st1 Hn1) as (st' & E' & Hl').
    exists st'. cbn [scan]. rewrite E. cbn [bind]. split; [exact E'|].
    cbn [filter]. destruct (has_dq line) eqn:Q.
    + cbn [length]. lia.
    + rewrite (Hq Hn eq_refl) in Hl'. exact Hl'.
Qed.

Lemma parse_quoted_lines (rc_file_text : str) :
  exists out, parse_rc_file unicode_alnum rc_file_text = Ok out
    /\ (length out <= length (filter has_dq (splitlines rc_file_text)))%nat.
Proof.
  unfold parse_rc_file.
  destruct (scan_quoted_lines (splitlines rc_file_text) init eq_refl)
    as (st & -> & H).
  exists (strings st). split; [reflexivity | exact H].
Qed.

(** X1: the extractor returns at most one string for each line that has
    a double quote. *)
Theorem X1_one_string_per_quoted_line (rc_file_text : str) :
  exists out, parse_rc_file unicode_alnum rc_file_text = Ok out
    /\ (length out <= length (filter has_dq (splitlines rc_file_text)))%nat.
Proof. exact (parse_quoted_lines rc_file_text). Qed.

Lemma splitlines_cons a s :
  splitlines (a :: s)
  = if is_linebreak a then
      [] :: (if a =? CR
             then match s with
                  | y :: s'' => if y =? LF then splitlines s'' else splitlines s
                  | [] => []
                  end
             else splitlines s)
    else
      match splitlines s with
      | [] => [[a]]
      | l :: ls => (a :: l) :: ls
      end.
Proof. reflexivity. Qed.

Lemma splitlines_chars s :
  (forall line x, In line (splitlines s) -> In x line -> In x s)
  /\ (forall a line x, In line (splitlines (a :: s)) -> In x line -> In x (a :: s)).
Proof.
  induction s as [|b t [IH1 IH2]].
  - split; [intros line x []|]. intros a line x Hl Hx. rewrite splitlines_cons in Hl.
    destruct (is_linebreak a).
    + destruct (a =? CR); destruct Hl as [<-|[]]; destruct Hx.
    + destruct Hl as [<-|[]]. exact Hx.
  - split; [exact (IH2 b)|]. intros a line x Hl Hx. rewrite splitlines_cons in Hl.
    destruct (is_linebreak a).
    + destruct Hl as [<-|Hl]; [destruct Hx|]. right.
      destruct (a =? CR); [destruct (b =? LF)|].
      * right. exact (IH1 _ _ Hl Hx).
      * exact (IH2 b _ _ Hl Hx).
      * exact (IH2 b _ _ Hl Hx).
    + pose proof (IH2 b) as IHb.
      destruct (splitlines (b :: t)) as [|l ls].
      * destruct Hl as [<-|[]]. destruct Hx as [<-|[]]. left. reflexivity.
      * destruct Hl as [<-|Hl].
        -- destruct Hx as [<-|Hx]; [left; reflexivity|].
           right. exact (IHb l x (or_introl eq_refl) Hx).
        -- right. exact (IHb line x (or_intror Hl) Hx).
Qed.

Lemma no_dq_lines s :
  has_dq s = false -> filter has_dq (splitlines s) = [].
Proof.
  intros H. destruct (filter has_dq (splitlines s)) as [|l ls] eqn:F; [reflexivity|].
  assert (Hl : In l (filter has_dq (splitlines s))) by (rewrite F; left; reflexivity).
  apply filter_In in Hl. destruct Hl as [Hl Hq].
  unfold has_dq in Hq. apply existsb_exists in Hq. destruct Hq as (x & Hx & Ex).
  assert (Hs : has_dq s = true).
  { unfold has_dq. apply existsb_exists. exists x. split; [|exact Ex].
    exact (proj1 (splitlines_chars s) l x Hl Hx). }
  rewrite H in Hs. discriminate Hs.
Qed.

(** X2: a text without any double quote gives the empty list. *)
Theorem X2_no_quote_no_string (rc_file_text : str) :
  has_dq rc_file_text = false ->
  parse_rc_file unicode_alnum rc_file_text = Ok [].
Proof.
  intros H.
  destruct (parse_quoted_lines rc_file_text) as (out & -> & L).
  rewrite (no_dq_lines _ H) in L. destruct out; [reflexivity | cbn in L; lia].
Qed.
End Further.

(** ** The normal form of a line *)

Lemma star_chr_accept p s : forall n i c,
  (length s <= n)%nat ->
  star_iter (exec (Chr p)) true n i s c accept = Some ((i + run p s)%nat, c).
Proof.
  induction s as [|x s IH]; intros n i c Hn.
  - cbn [run]. rewrite Nat.add_0_r. destruct n; reflexivity.
  - destruct n as [|n]; [cbn in Hn; lia|]. cbn [star_iter exec run].
    destruct (p x).
    + rewrite ltb_succ, IH by (cbn in Hn; lia). f_equal. f_equal. lia.
    + rewrite Nat.add_0_r. reflexivity.
Qed.

Lemma match_blanks i (x : char) (s : str) :
  match_at blanks_re i (x :: s)
  = if is_tabsp x
    then Some {| m_start := i; m_end := S i + run is_tabsp s;
                 m_text := firstn (S i + run is_tabsp s - i) (x :: s);
                 m_caps := [] |}
    else None.
Proof.
  unfold match_at, blanks_re, plus. unfold tabsp at 1. cbn [exec].
  destruct (is_tabsp x); [|reflexivity].
  unfold tabsp. rewrite star_chr_accept by lia. reflexivity.
Qed.

Lemma match_blanks_nil i : match_at blanks_re i [] = None.
Proof. reflexivity. Qed.

Lemma sub_blanks s : forall i,
  sub_from blanks_re (fun _ => [SP]) i s = collapse_go false s
  /\ flat_map (fun p => match p with Lit x => [x] | Hit _ => [SP] end)
       (pieces_go blanks_re (run is_tabsp s) i s)
     = collapse_go true s.
Proof.
  unfold sub_from. induction s as [|x s IH]; intros i.
  - split; reflexivity.
  - destruct (IH (S i)) as [IH0 IH1].
    assert (E0 : flat_map (fun p => match p with Lit x => [x] | Hit _ => [SP] end)
                   (pieces_go blanks_re 0 i (x :: s))
                 = collapse_go false (x :: s)).
    { cbn [pieces_go collapse_go]. rewrite match_blanks.
      destruct (is_tabsp x).
      - cbn [m_end]. replace (i <? S i + run is_tabsp s)%nat with true
          by (symmetry; apply Nat.ltb_lt; lia).
        replace (S i + run is_tabsp s - i - 1)%nat with (run is_tabsp s) by lia.
        cbn [flat_map app]. rewrite IH1. reflexivity.
      - cbn [flat_map app]. rewrite IH0. reflexivity. }
    split; [exact E0|].
    cbn [run collapse_go]. destruct (is_tabsp x) eqn:T.
    + cbn [pieces_go]. exact IH1.
    + rewrite E0. cbn [collapse_go]. rewrite T. reflexivity.
Qed.

Lemma re_sub_blanks s : re_sub blanks_re (fun _ => [SP]) s = collapse s.
Proof. exact (proj1 (sub_blanks s 0)). Qed.

Lemma star_dot_all t : forall n i c (k : cont),
  forallb is_dot t = true -> (length t <= n)%nat ->
  k (i + length t)%nat [] c <> None ->
  star_iter (exec dot) true n i t c k = k (i + length t)%nat [] c.
Proof.
  induction t as [|x t IH]; intros n i c k Hdot Hn Hk.
  - cbn [length] in *. rewrite Nat.add_0_r in *.
    destruct n; cbn [star_iter]; [reflexivity|].
    unfold dot at 1. cbn [exec]. reflexivity.
  - cbn [forallb] in Hdot. apply andb_true_iff in Hdot. destruct Hdot as [Hx Hdot].
    cbn [length] in *. destruct n as [|n]; [lia|].
    cbn [star_iter]. unfold dot at 1. cbn [exec]. rewrite Hx, ltb_succ.
    rewrite <- Nat.add_succ_comm in *.
    rewrite IH by (auto; lia).
    destruct (k (S i + length t)%nat [] c); [reflexivity | congruence].
Qed.

Lemma match_comment i (t : str) :
  forallb is_dot t = true ->
  match_at comment_re i ((47 : char) :: (47 : char) :: t)
  = Some {| m_start := i; m_end := S (S i) + length t;
            m_text := firstn (S (S i) + length t - i)
                        ((47 : char) :: (47 : char) :: t);
            m_caps := [] |}.
Proof.
  intros H. unfold match_at, comment_re, slash, lit.
  cbn [exec cat fold_right N.eqb Pos.eqb].
  rewrite star_dot_all by (auto; cbn; discriminate). reflexivity.
Qed.

Lemma match_comment_none i (x : char) (s : str) :
  (x =? 47) && match s with y :: _ => y =? 47 | [] => false end = false ->
  match_at comment_re i (x :: s) = None.
Proof.
  intros H. unfold match_at, comment_re, slash, lit. cbn [exec cat fold_right].
  rewrite (N.eqb_sym 47 x). destruct (x =? 47); [|reflexivity].
  destruct s as [|y s]; [reflexivity|]. rewrite (N.eqb_sym 47 y).
  cbn [andb] in H. rewrite H. reflexivity.
Qed.

Lemma pieces_skip_end r n i s :
  length s = n -> pieces_go r n i s = pieces_go r 0 (n + i) [].
Proof.
  intros H. pose proof (pieces_skip r n i s [] H) as P.
  rewrite app_nil_r in P. exact P.
Qed.

Lemma sub_comment s : forall i,
  forallb is_dot s = true ->
  sub_from comment_re (fun _ => []) i s = cut_comment s.
Proof.
  unfold sub_from. induction s as [|x s IH]; intros i H; [reflexivity|].
  cbn [forallb] in H. apply andb_true_iff in H. destruct H as [_ H].
  cbn [pieces_go cut_comment].
  destruct ((x =? 47) && match s with y :: _ => y =? 47 | [] => false end) eqn:C.
  - destruct s as [|y t]; [rewrite andb_false_r in C; discriminate|].
    apply andb_true_iff in C. destruct C as [Cx Cy].
    rewrite Cx, Cy. apply N.eqb_eq in Cx, Cy. subst x y.
    cbn [forallb] in H. apply andb_true_iff in H. destruct H as [_ H].
    rewrite (match_comment i t H). cbn [m_end andb].
    replace (i <? S (S i) + length t)%nat with true
      by (symmetry; apply Nat.ltb_lt; lia).
    replace (S (S i) + length t - i - 1)%nat with (length ((47 : char) :: t))
      by (cbn [length]; lia).
    rewrite (pieces_skip_end comment_re _ (S i) _ eq_refl).
    reflexivity.
  - rewrite (match_comment_none i x s C). cbn [flat_map app].
    rewrite (IH (S i) H).
    destruct s as [|y t]; [reflexivity|]. rewrite C. reflexivity.
Qed.

Lemma lstrip_dot s : forallb is_dot s = true -> forallb is_dot (lstrip s) = true.
Proof.
  induction s as [|x s IH]; intros H; [reflexivity|]. cbn [lstrip].
  destruct (is_space x); [|exact H].
  cbn [forallb] in H. apply andb_true_iff in H. apply IH, H.
Qed.

Lemma rev_dot s : forallb is_dot s = true -> forallb is_dot (rev s) = true.
Proof.
  rewrite !forallb_forall. intros H x Hx. apply H, in_rev, Hx.
Qed.

Lemma strip_dot s : forallb is_dot s = true -> forallb is_dot (strip s) = true.
Proof.
  intros H. unfold strip. apply rev_dot, lstrip_dot, rev_dot, lstrip_dot, H.
Qed.

Lemma collapse_go_dot s : forall held,
  forallb is_dot s = true -> forallb is_dot (collapse_go held s) = true.
Proof.
  induction s as [|x s IH]; intros held H; [reflexivity|].
  cbn [forallb] in H. apply andb_true_iff in H. destruct H as [Hx H].
  cbn [collapse_go]. destruct (is_tabsp x); [destruct held|]; cbn [forallb];
    rewrite ?Hx, IH by exact H; reflexivity.
Qed.

Lemma normalize_cut_collapse (line : str) :
  forallb is_dot line = true ->
  normalize line = cut_comment (collapse (strip line)).
Proof.
  intros H. unfold normalize. rewrite re_sub_blanks, re_sub_from.
  apply sub_comment, collapse_go_dot, strip_dot, H.
Qed.

(** X3: on a line without line feed, [norm_line] is the line trimmed,
    with every run of tabs and blanks turned into one blank, and cut
    before the first two slashes in a row. *)
Theorem X3_normal_form (line : str) :
  forallb is_dot line = true ->
  normalize line = cut_comment (collapse (strip line)).
Proof. exact (normalize_cut_collapse line). Qed.

(** ** [BEGIN] and [END] lines *)

Lemma lstrip_spaces (ws : str) (x : char) (t : str) :
  forallb is_space ws = true -> is_space x = false ->
  lstrip (ws ++ x :: t) = x :: t.
Proof.
  intros H Hx. induction ws as [|w ws IH]; cbn [app lstrip].
  - rewrite Hx. reflexivity.
  - cbn [forallb] in H. apply andb_true_iff in H. destruct H as [-> H].
    apply IH, H.
Qed.

Lemma strip_spaces (ws1 ws2 : str) (x y : char) (mid : str) :
  forallb is_space ws1 = true -> forallb is_space ws2 = true ->
  is_space x = false -> is_space y = false ->
  strip (ws1 ++ (x :: mid ++ [y]) ++ ws2) = x :: mid ++ [y].
Proof.
  intros H1 H2 Hx Hy. unfold strip. cbn [app].
  rewrite lstrip_spaces by assumption.
  replace (rev (x :: (mid ++ [y]) ++ ws2)) with (rev ws2 ++ y :: rev (x :: mid)).
  2:{ change (x :: (mid ++ [y]) ++ ws2) with (((x :: mid) ++ [y]) ++ ws2).
      rewrite !rev_app_distr. reflexivity. }
  rewrite lstrip_spaces;
    [| rewrite forallb_forall in *; intros z Hz; apply H2, in_rev, Hz | exact Hy].
  change (y :: rev (x :: mid)) with (rev [y] ++ rev (x :: mid)).
  rewrite <- rev_app_distr. apply rev_involutive.
Qed.

Section Blocks.

Variable unicode_alnum : char -> bool.

(** X4: a [BEGIN] line raises [block_level] by one and an [END] line
    lowers it by one, whatever white space stands before and after the
    word. *)
Theorem X4_indented_begin_end (st : locals) (ws1 ws2 : str) :
  forallb is_space ws1 = true -> forallb is_space ws2 = true ->
  (exists st', loop_body unicode_alnum st (ws1 ++ u "BEGIN" ++ ws2) = Ok st'
               /\ block_level st' = (block_level st + 1)%Z)
  /\ (exists st', loop_body unicode_alnum st (ws1 ++ u "END" ++ ws2) = Ok st'
                  /\ block_level st' = (block_level st - 1)%Z).
Proof.
  intros H1 H2. split.
  - destruct (loop_body_total unicode_alnum st (ws1 ++ u "BEGIN" ++ ws2))
      as (st' & E & _ & _ & _ & Hb & _).
    exists st'. split; [exact E|]. rewrite Hb, track_block_level.
    unfold normalize.
    assert (S : strip (ws1 ++ u "BEGIN" ++ ws2) = u "BEGIN")
      by exact (strip_spaces ws1 ws2 66 78 [69; 71; 73] H1 H2 eq_refl eq_refl).
    rewrite S.
    replace (re_sub comment_re (fun _ => [])
               (re_sub blanks_re (fun _ => [SP]) (u "BEGIN")))
      with (u "BEGIN") by (vm_compute; reflexivity).
    change (str_eqb (u "BEGIN") (u "BEGIN")) with true.
    change (str_eqb (u "BEGIN") (u "END")) with false. cbv iota. lia.
  - destruct (loop_body_total unicode_alnum st (ws1 ++ u "END" ++ ws2))
      as (st' & E & _ & _ & _ & Hb & _).
    exists st'. split; [exact E|]. rewrite Hb, track_block_level.
    unfold normalize.
    assert (S : strip (ws1 ++ u "END" ++ ws2) = u "END")
      by exact (strip_spaces ws1 ws2 69 68 [78] H1 H2 eq_refl eq_refl).
    rewrite S.
    replace (re_sub comment_re (fun _ => [])
               (re_sub blanks_re (fun _ => [SP]) (u "END")))
      with (u "END") by (vm_compute; reflexivity).
    change (str_eqb (u "END") (u "BEGIN")) with false.
    change (str_eqb (u "END") (u "END")) with true. cbv iota. lia.
Qed.

End Blocks.

Lemma lstrip_app_keep (a : str) (y : char) (t : str) :
  is_space y = false -> exists a', lstrip (a ++ y :: t) = a' ++ y :: t.
Proof.
  intros Hy. induction a as [|w a IH].
  - exists []. cbn [app lstrip]. rewrite Hy. reflexivity.
  - cbn [app lstrip]. destruct (is_space w); [exact IH|].
    exists (w :: a). reflexivity.
Qed.

(** [str.strip] keeps a prefix that begins and ends with characters that
    are no white space. *)
Lemma strip_prefix (x : char) (mid : str) (y : char) (c : str) :
  is_space x = false -> is_space y = false ->
  exists c', strip ((x :: mid ++ [y]) ++ c) = (x :: mid ++ [y]) ++ c'.
Proof.
  intros Hx Hy. unfold strip. cbn [app lstrip]. rewrite Hx.
  replace (rev (x :: (mid ++ [y]) ++ c)) with (rev c ++ y :: rev (x :: mid)).
  2:{ change (x :: (mid ++ [y]) ++ c) with (((x :: mid) ++ [y]) ++ c).
      rewrite !rev_app_distr. reflexivity. }
  destruct (lstrip_app_keep (rev c) y (rev (x :: mid)) Hy) as [a' ->].
  exists (rev a'). rewrite rev_app_distr.
  change (y :: rev (x :: mid)) with (rev [y] ++ rev (x :: mid)).
  rewrite <- (rev_app_distr (x :: mid) [y]), rev_involutive.
  reflexivity.
Qed.

Lemma app_two_slashes (x : char) (mid c : str) :
  x :: mid ++ [47; 47] ++ c = (x :: (mid ++ [47]) ++ [47]) ++ c.
Proof. cbn [app]. f_equal. rewrite <- !app_assoc. reflexivity. Qed.

Lemma normalize_commented (x : char) (mid : str) (c : str) :
  is_space x = false -> forallb is_dot (x :: mid ++ [47; 47] ++ c) = true ->
  exists c', normalize (x :: mid ++ [47; 47] ++ c)
             = cut_comment (collapse (x :: mid ++ [47; 47] ++ c')).
Proof.
  intros Hx Hd. rewrite normalize_cut_collapse by exact Hd.
  destruct (strip_prefix x (mid ++ [47]) 47 c Hx eq_refl) as [c' E].
  exists c'.
  assert (E2 : strip (x :: mid ++ [47; 47] ++ c) = x :: mid ++ [47; 47] ++ c').
  { rewrite (app_two_slashes x mid c), (app_two_slashes x mid c'). exact E. }
  rewrite E2. reflexivity.
Qed.

Section Comments.

Variable unicode_alnum : char -> bool.

(** X5: a blank between [BEGIN] or [END] and a comment keeps the line
    from changing [block_level], because the blank stays at the end of
    [norm_line]; without the blank the line counts. *)
Theorem X5_comment_after_begin_end (st : locals) (c : str) :
  forallb is_dot c = true ->
  (exists st', loop_body unicode_alnum st (u "BEGIN //" ++ c) = Ok st'
               /\ block_level st' = block_level st)
  /\ (exists st', loop_body unicode_alnum st (u "END //" ++ c) = Ok st'
                  /\ block_level st' = block_level st)
  /\ (exists st', loop_body unicode_alnum st (u "BEGIN//" ++ c) = Ok st'
                  /\ block_level st' = (block_level st + 1)%Z)
  /\ (exists st', loop_body unicode_alnum st (u "END//" ++ c) = Ok st'
                  /\ block_level st' = (block_level st - 1)%Z).
Proof.
  intros Hc.
  assert (N1 : normalize (u "BEGIN //" ++ c) = u "BEGIN ").
  { destruct (normalize_commented 66 [69; 71; 73; 78; 32] c eq_refl) as [c' E].
    - cbn [app forallb]. exact Hc.
    - etransitivity; [exact E | reflexivity]. }
  assert (N2 : normalize (u "END //" ++ c) = u "END ").
  { destruct (normalize_commented 69 [78; 68; 32] c eq_refl) as [c' E].
    - cbn [app forallb]. exact Hc.
    - etransitivity; [exact E | reflexivity]. }
  assert (N3 : normalize (u "BEGIN//" ++ c) = u "BEGIN").
  { destruct (normalize_commented 66 [69; 71; 73; 78] c eq_refl) as [c' E].
    - cbn [app forallb]. exact Hc.
    - etransitivity; [exact E | reflexivity]. }
  assert (N4 : normalize (u "END//" ++ c) = u "END").
  { destruct (normalize_commented 69 [78; 68] c eq_refl) as [c' E].
    - cbn [app forallb]. exact Hc.
    - etransitivity; [exact E | reflexivity]. }
  repeat split.
  - destruct (loop_body_total unicode_alnum st (u "BEGIN //" ++ c))
      as (st' & E & _ & _ & _ & Hb & _).
    exists st'. split; [exact E|]. rewrite Hb, track_block_level, N1.
    change (str_eqb (u "BEGIN ") (u "BEGIN")) with false.
    change (str_eqb (u "BEGIN ") (u "END")) with false. cbv iota. lia.
  - destruct (loop_body_total unicode_alnum st (u "END //" ++ c))
      as (st' & E & _ & _ & _ & Hb & _).
    exists st'. split; [exact E|]. rewrite Hb, track_block_level, N2.
    change (str_eqb (u "END ") (u "BEGIN")) with false.
    change (str_eqb (u "END ") (u "END")) with false. cbv iota. lia.
  - destruct (loop_body_total unicode_alnum st (u "BEGIN//" ++ c))
      as (st' & E & _ & _ & _ & Hb & _).
    exists st'. split; [exact E|]. rewrite Hb, track_block_level, N3.
    change (str_eqb (u "BEGIN") (u "BEGIN")) with true.
    change (str_eqb (u "BEGIN") (u "END")) with false. cbv iota. lia.
  - destruct (loop_body_total unicode_alnum st (u "END//" ++ c))
      as (st' & E & _ & _ & _ & Hb & _).
    exists st'. split; [exact E|]. rewrite Hb, track_block_level, N4.
    change (str_eqb (u "END") (u "BEGIN")) with false.
    change (str_eqb (u "END") (u "END")) with true. cbv iota. lia.
Qed.

End Comments.

(** ** String tables *)

Lemma exec_quoted_at (wide : bool) (body : str) (i : nat) :
  forallb is_dot body = true ->
  exists c, exec quoted_re i (literal wide body) [] accept
            = Some ((i + length (literal wide body))%nat, c).
Proof.
  intros Hdot. rewrite length_literal. unfold quoted_re, literal, quoted.
  destruct wide; cbn [exec cat fold_right opt lit dq app N.eqb Pos.eqb DQ].
  - rewrite star_dot_last; try assumption.
    + cbn [exec lit N.eqb Pos.eqb DQ]. unfold accept. eexists. f_equal. f_equal. lia.
    + rewrite length_app. cbn [length]. lia.
    + reflexivity.
    + cbn [exec lit N.eqb Pos.eqb DQ]. discriminate.
  - rewrite star_dot_last; try assumption.
    + cbn [exec lit N.eqb Pos.eqb DQ]. unfold accept. eexists. f_equal. f_equal. lia.
    + rewrite length_app. cbn [length]. lia.
    + reflexivity.
    + cbn [exec lit N.eqb Pos.eqb DQ]. discriminate.
Qed.

Lemma match_quoted_at (wide : bool) (body : str) (i : nat) :
  forallb is_dot body = true ->
  exists m, match_at quoted_re i (literal wide body) = Some m
            /\ group 0 m = Some (literal wide body).
Proof.
  intros Hdot. unfold match_at.
  destruct (exec_quoted_at wide body i Hdot) as [c ->].
  eexists. split; [reflexivity|]. cbn [group m_text].
  rewrite Nat.add_comm, Nat.add_sub, firstn_all. reflexivity.
Qed.

Lemma match_quoted_none (x : char) (s : str) (i : nat) :
  (DQ =? x) = false ->
  (76 =? x) = false
  \/ match s with y :: _ => (DQ =? y) = false | [] => True end ->
  match_at quoted_re i (x :: s) = None.
Proof.
  intros Hx Hs. unfold match_at, quoted_re, lit, dq.
  cbn [exec cat fold_right opt lit]. rewrite Hx.
  destruct (76 =? x); [|reflexivity].
  destruct Hs as [Hs|Hs]; [discriminate Hs|].
  destruct s as [|y s]; [reflexivity|]. rewrite Hs. reflexivity.
Qed.

(** The search of the last branch passes a prefix without double quote
    that does not end with [L]. *)
Lemma search_quoted_after (pre : str) (wide : bool) (body : str) : forall i,
  has_dq pre = false -> last pre 0 <> 76 ->
  forallb is_dot body = true ->
  exists m, search_from quoted_re i (pre ++ literal wide body) = Some m
            /\ group 0 m = Some (literal wide body).
Proof.
  induction pre as [|x pre IH]; intros i Hq Hl Hdot.
  - destruct (match_quoted_at wide body i Hdot) as (m & E & G).
    exists m. split; [apply search_from_hit, E | exact G].
  - unfold has_dq in Hq. cbn [existsb] in Hq. apply orb_false_iff in Hq.
    destruct Hq as [Hx Hq].
    cbn [app search_from]. rewrite match_quoted_none.
    + apply IH; [exact Hq | | exact Hdot].
      destruct pre; [cbn; discriminate | exact Hl].
    + exact Hx.
    + destruct pre as [|y pre]; cbn [app].
      * left. cbn [last] in Hl. apply N.eqb_neq. congruence.
      * right. unfold has_dq in Hq. cbn [existsb] in Hq.
        apply orb_false_iff in Hq. apply Hq.
Qed.

(** Comparisons of a character that a range decides. *)
Ltac decide_cmp :=
  repeat match goal with
         | |- context [(?a <=? ?b)%N] =>
             first [ replace (a <=? b)%N with true
                       by (symmetry; apply N.leb_le; lia)
                   | replace (a <=? b)%N with false
                       by (symmetry; apply N.leb_gt; lia) ]
         | |- context [(?a <? ?b)%N] =>
             first [ replace (a <? b)%N with true
                       by (symmetry; apply N.ltb_lt; lia)
                   | replace (a <? b)%N with false
                       by (symmetry; apply N.ltb_ge; lia) ]
         | |- context [(?a =? ?b)%N] =>
             first [ replace (a =? b)%N with false
                       by (symmetry; apply N.eqb_neq; lia)
                   | replace (a =? b)%N with true
                       by (symmetry; apply N.eqb_eq; lia) ]
         end.

Lemma ident_char_range (x : char) :
  is_ident_char x = true ->
  (48 <= x <= 57) \/ (65 <= x <= 90) \/ (97 <= x <= 122) \/ x = 95.
Proof.
  unfold is_ident_char. intros H.
  destruct (N.leb_spec 48 x), (N.leb_spec x 57); cbn [andb orb] in H; auto;
  destruct (N.leb_spec 65 x), (N.leb_spec x 90); cbn [andb orb] in H; auto;
  destruct (N.leb_spec 97 x), (N.leb_spec x 122); cbn [andb orb] in H; auto;
  destruct (N.eqb_spec x 95); auto; discriminate H.
Qed.

Section Idents.

Variable unicode_alnum : char -> bool.

Lemma ident_char_facts (x : char) :
  is_ident_char x = true ->
  is_word unicode_alnum x = true /\ is_tabsp x = false /\ is_space x = false
  /\ is_dot x = true /\ (x =? 47) = false /\ (DQ =? x) = false
  /\ (SP =? x) = false.
Proof.
  intros H. apply ident_char_range in H.
  unfold is_word, is_tabsp, is_space, is_dot, TAB, SP, LF, DQ.
  destruct H as [H|[H|[H|H]]]; decide_cmp; repeat split; reflexivity.
Qed.

End Idents.

Lemma collapse_go_keep (a r : str) :
  forallb (fun x => negb (is_tabsp x)) a = true ->
  collapse_go false (a ++ r) = a ++ collapse_go false r.
Proof.
  induction a as [|x a IH]; intros H; [reflexivity|].
  cbn [forallb] in H. apply andb_true_iff in H. destruct H as [Hx H].
  cbn [app collapse_go]. destruct (is_tabsp x); [discriminate|].
  rewrite IH by exact H. reflexivity.
Qed.

Lemma collapse_go_held (ws r : str) :
  forallb is_tabsp ws = true -> collapse_go true (ws ++ r) = collapse_go true r.
Proof.
  induction ws as [|w ws IH]; intros H; [reflexivity|].
  cbn [forallb] in H. apply andb_true_iff in H. destruct H as [Hw H].
  cbn [app collapse_go]. rewrite Hw. apply IH, H.
Qed.

Lemma collapse_go_gap (ws r : str) :
  ws <> [] -> forallb is_tabsp ws = true ->
  collapse_go false (ws ++ r) = SP :: collapse_go true r.
Proof.
  destruct ws as [|w ws]; [congruence|]. intros _ H.
  cbn [forallb] in H. apply andb_true_iff in H. destruct H as [Hw H].
  cbn [app collapse_go]. rewrite Hw, collapse_go_held by exact H. reflexivity.
Qed.

Lemma collapse_go_snoc (s : str) (y : char) : forall held,
  is_tabsp y = false -> collapse_go held (s ++ [y]) = collapse_go held s ++ [y].
Proof.
  induction s as [|x s IH]; intros held Hy.
  - cbn [app collapse_go]. rewrite Hy. reflexivity.
  - cbn [app collapse_go]. destruct (is_tabsp x); [destruct held|];
      rewrite IH by exact Hy; reflexivity.
Qed.

Lemma has_comment_two (x y : char) (s : str) :
  has_comment (x :: y :: s) = ((x =? 47) && (y =? 47)) || has_comment (y :: s).
Proof. reflexivity. Qed.

Lemma has_comment_cons (x : char) (s : str) :
  (x =? 47) = false -> has_comment (x :: s) = has_comment s.
Proof.
  intros H. cbn [has_comment]. rewrite H. destruct s; reflexivity.
Qed.

Lemma has_comment_tail (x : char) (s : str) :
  has_comment (x :: s) = false -> has_comment s = false.
Proof.
  cbn [has_comment]. destruct s as [|y s]; [reflexivity|].
  intros H. apply orb_false_iff in H. apply H.
Qed.

Lemma has_comment_snoc (s : str) (y : char) :
  has_comment s = false -> (y =? 47) = false -> has_comment (s ++ [y]) = false.
Proof.
  intros H Hy. induction s as [|x s IH]; [reflexivity|].
  specialize (IH (has_comment_tail _ _ H)).
  destruct s as [|z s].
  - cbn. rewrite Hy. rewrite andb_false_r. reflexivity.
  - cbn [app has_comment] in *. apply orb_false_iff in H. destruct H as [H _].
    rewrite H. exact IH.
Qed.

Lemma collapse_head (s : str) (t : str) :
  collapse_go false s = 47 :: t -> exists s', s = 47 :: s'.
Proof.
  destruct s as [|x s]; [discriminate|]. cbn [collapse_go].
  destruct (is_tabsp x).
  - intros H. discriminate H.
  - intros H. injection H as -> _. eauto.
Qed.

Lemma collapse_no_comment (s : str) : forall held,
  has_comment s = false -> has_comment (collapse_go held s) = false.
Proof.
  induction s as [|x s IH]; intros held H; [reflexivity|].
  pose proof (has_comment_tail _ _ H) as Ht.
  cbn [collapse_go]. destruct (is_tabsp x) eqn:T.
  - destruct held; [apply IH, Ht|].
    rewrite has_comment_cons by reflexivity. apply IH, Ht.
  - destruct (x =? 47) eqn:X; [|rewrite has_comment_cons by exact X; apply IH, Ht].
    destruct (collapse_go false s) as [|y t] eqn:C; [reflexivity|].
    rewrite has_comment_two, X. cbn [andb].
    pose proof (IH false Ht) as I. rewrite C in I. rewrite I, orb_false_r.
    destruct (y =? 47) eqn:Y; [|reflexivity].
    apply N.eqb_eq in Y. subst y. apply collapse_head in C.
    destruct C as [s' ->]. rewrite has_comment_two, X in H. discriminate H.
Qed.

Lemma cut_comment_id (s : str) : has_comment s = false -> cut_comment s = s.
Proof.
  induction s as [|x s IH]; intros H; [reflexivity|].
  pose proof (has_comment_tail _ _ H) as Ht.
  cbn [cut_comment has_comment] in *. destruct s as [|y s]; [reflexivity|].
  apply orb_false_iff in H. destruct H as [-> _]. rewrite IH by exact Ht.
  reflexivity.
Qed.

Lemma star_chr_none p (a : str) : forall (t : str) n i c (k : cont),
  forallb p a = true ->
  match t with y :: _ => p y = false | [] => True end ->
  (forall j, (j <= length a)%nat -> k (i + j)%nat (skipn j a ++ t) c = None) ->
  star_iter (exec (Chr p)) true n i (a ++ t) c k = None.
Proof.
  induction a as [|x a IH]; intros t n i c k Ha Ht Hk.
  - pose proof (Hk 0%nat (Nat.le_0_l _)) as K0. cbn [skipn app] in K0.
    rewrite Nat.add_0_r in K0. cbn [app].
    destruct n; cbn [star_iter exec]; [exact K0|].
    destruct t as [|y t]; [exact K0|]. rewrite Ht. exact K0.
  - pose proof (Hk 0%nat (Nat.le_0_l _)) as K0. cbn [skipn app] in K0.
    rewrite Nat.add_0_r in K0.
    cbn [forallb] in Ha. apply andb_true_iff in Ha. destruct Ha as [Hx Ha].
    cbn [app]. destruct n; cbn [star_iter exec]; [exact K0|].
    rewrite Hx, ltb_succ, IH; [exact K0 | exact Ha | exact Ht |].
    intros j Hj. specialize (Hk (S j)). cbn [skipn length] in Hk.
    rewrite Nat.add_succ_r in Hk. apply Hk. lia.
Qed.

Lemma skipn_cases (j : nat) (a : str) :
  skipn j a = [] \/ exists y r, skipn j a = y :: r /\ In y a.
Proof.
  revert j. induction a as [|x a IH]; intros j.
  - left. destruct j; reflexivity.
  - destruct j as [|j].
    + right. exists x, a. split; [reflexivity | left; reflexivity].
    + cbn [skipn]. destruct (IH j) as [H|(y & r & H & Hin)]; [left; exact H|].
      right. exists y, r. split; [exact H | right; exact Hin].
Qed.

Section StringTable.

Variable unicode_alnum : char -> bool.

Lemma dialog_no_match (x : char) (id' rest : str) :
  is_ident_char x = true -> forallb is_ident_char id' = true ->
  re_match (dialog_re unicode_alnum) (x :: id' ++ SP :: DQ :: rest) = None.
Proof.
  intros Hx Hid.
  destruct (ident_char_facts unicode_alnum x Hx) as (Wx & _).
  unfold re_match, match_at, dialog_re, plus.
  cbn [cat fold_right]. cbn [exec Nat.eqb].
  unfold word at 1. cbn [exec]. rewrite Wx. unfold word.
  rewrite star_chr_none; [reflexivity | | reflexivity |].
  - rewrite forallb_forall in *. intros y Hy.
    apply (ident_char_facts unicode_alnum y (Hid y Hy)).
  - intros j _. destruct (skipn_cases j id') as [-> | (y & r & -> & Hy)].
    + reflexivity.
    + cbn [app exec lit].
      rewrite forallb_forall in Hid.
      destruct (ident_char_facts unicode_alnum y (Hid y Hy))
        as (_ & _ & _ & _ & _ & _ & ->).
      reflexivity.
Qed.

Lemma endswith_other (X : str) (y : char) (p : str) (z : char) :
  (y =? z) = false -> endswith (X ++ [y]) (p ++ [z]) = false.
Proof.
  intros H. unfold endswith. rewrite !rev_app_distr. cbn [rev app startswith].
  rewrite H. reflexivity.
Qed.

Lemma track_fallback (norm : str) (st : locals) :
  fallback_context st ->
  endswith norm (u " MENU") = false ->
  re_match (dialog_re unicode_alnum) norm = None ->
  fallback_context (track unicode_alnum norm st).
Proof.
  intros [Hm Hd] He Hr. unfold track. rewrite He, Hr. unfold fallback_context.
  repeat match goal with
         | |- context [if ?b then _ else _] => destruct b
         end; cbn; auto.
Qed.

(** In the last branch, a line that is a literal after a prefix without
    double quote, not ending with [L], appends what the literal stands
    for. *)
Lemma loop_body_after_prefix (st : locals) (pre : str) (wide : bool) (body : str) :
  fallback_context (track unicode_alnum (normalize (pre ++ literal wide body)) st) ->
  has_dq pre = false -> last pre 0 <> 76 -> no_linebreak body = true ->
  exists st1,
    strings st1 = strings st /\ fallback_context st1
    /\ loop_body unicode_alnum st (pre ++ literal wide body)
       = s <- decode (literal wide body) ;;
         Ok (append_string s st1).
Proof.
  intros [Tm Td] Hq Hl Hb. unfold loop_body.
  set (st0 := track unicode_alnum _ st) in *.
  assert (Ts : strings st0 = strings st) by apply track_strings.
  unfold dispatch. rewrite Tm, Td. cbn [andb orb].
  destruct (search_quoted_after pre wide body 0 Hq Hl
              (forallb_no_linebreak_dot _ Hb)) as (m & Em & Eg).
  unfold re_search. rewrite Em, Eg.
  unfold emit. cbn [orig_str set_pending].
  replace (truthy (Some (literal wide body))) with true
    by (destruct wide; reflexivity).
  eexists. split; [|split; [|reflexivity]].
  - exact Ts.
  - split; [exact Tm | exact Td].
Qed.
End StringTable.

Lemma has_comment_keep (a r : str) :
  forallb (fun x => negb (x =? 47)) a = true ->
  has_comment (a ++ r) = has_comment r.
Proof.
  induction a as [|x a IH]; intros H; [reflexivity|].
  cbn [forallb] in H. apply andb_true_iff in H. destruct H as [Hx H].
  cbn [app]. rewrite has_comment_cons by (destruct (x =? 47); [discriminate | reflexivity]).
  apply IH, H.
Qed.

Lemma last_app_nonempty (a b : str) :
  b <> [] -> last (a ++ b) 0 = last b 0.
Proof.
  intros Hb. induction a as [|y a IHa]; [reflexivity|].
  cbn [app]. destruct (a ++ b) eqn:A; [|exact IHa].
  destruct a; [cbn in A; congruence | discriminate A].
Qed.

Lemma last_in (a : str) : a <> [] -> In (last a 0) a.
Proof.
  induction a as [|y a IHa]; [congruence|]. intros _.
  destruct a; [left; reflexivity | right; apply IHa; discriminate].
Qed.

Lemma has_dq_app (a b : str) : has_dq (a ++ b) = has_dq a || has_dq b.
Proof. apply existsb_app. Qed.

Section Entries.

Variable unicode_alnum : char -> bool.

Lemma entry_ok_parts (e : entry) :
  entry_ok e = true ->
  forallb is_tabsp (e_indent e) = true
  /\ (exists x id', e_id e = x :: id' /\ is_ident_char x = true
                    /\ forallb is_ident_char id' = true)
  /\ e_gap e <> [] /\ forallb is_tabsp (e_gap e) = true
  /\ no_linebreak (e_body e) = true /\ has_comment (e_body e) = false.
Proof.
  unfold entry_ok. intros H.
  repeat (apply andb_true_iff in H; destruct H as [H ?]).
  split; [exact H|]. split.
  - destruct (e_id e) as [|x id']; [discriminate|].
    exists x, id'. split; [reflexivity|].
    match goal with F : forallb is_ident_char _ = true |- _ =>
      cbn [forallb] in F; apply andb_true_iff in F; exact F end.
  - repeat split; try assumption.
    + destruct (e_gap e); [discriminate | discriminate].
    + match goal with F : negb (has_comment _) = true |- _ =>
        destruct (has_comment (e_body e)); [discriminate F | reflexivity] end.
Qed.

Lemma tabsp_space (ws : str) :
  forallb is_tabsp ws = true -> forallb is_space ws = true.
Proof.
  rewrite !forallb_forall. intros H x Hx. specialize (H x Hx).
  unfold is_tabsp, TAB, SP in H. apply orb_true_iff in H.
  destruct H as [H|H]; apply N.eqb_eq in H; subst x; reflexivity.
Qed.

Lemma tabsp_facts (ws : str) :
  forallb is_tabsp ws = true ->
  forallb is_dot ws = true /\ has_dq ws = false
  /\ forallb (fun x => negb (x =? 47)) ws = true.
Proof.
  intros H.
  induction ws as [|w ws IH]; [repeat split; reflexivity|].
  cbn [forallb] in H. apply andb_true_iff in H. destruct H as [Hw H].
  destruct (IH H) as (I1 & I2 & I3).
  change (has_dq (w :: ws)) with ((DQ =? w) || has_dq ws).
  cbn [forallb]. rewrite I1, I2, I3.
  unfold is_tabsp, TAB, SP in Hw. apply orb_true_iff in Hw.
  destruct Hw as [Hw|Hw]; apply N.eqb_eq in Hw; subst w; repeat split; reflexivity.
Qed.

Lemma ident_facts (a : str) :
  forallb is_ident_char a = true ->
  forallb is_dot a = true /\ has_dq a = false
  /\ forallb (fun x => negb (x =? 47)) a = true
  /\ forallb (fun x => negb (is_tabsp x)) a = true.
Proof.
  intros H.
  induction a as [|x a IH]; [repeat split; reflexivity|].
  cbn [forallb] in H. apply andb_true_iff in H. destruct H as [Hx H].
  destruct (IH H) as (I1 & I2 & I3 & I4).
  change (has_dq (x :: a)) with ((DQ =? x) || has_dq a).
  cbn [forallb]. rewrite I1, I2, I3, I4.
  destruct (ident_char_facts unicode_alnum x Hx) as (_ & -> & _ & -> & -> & -> & _).
  repeat split; reflexivity.
Qed.

Lemma normalize_entry (e : entry) :
  entry_ok e = true ->
  normalize (entry_line e)
  = e_id e ++ SP :: DQ :: collapse (e_body e) ++ [DQ].
Proof.
  intros H.
  destruct (entry_ok_parts e H) as (Hi & (x & id' & Eid & Hx & Hid) & Hg0 & Hg & Hb & Hc).
  assert (Hidf : forallb is_ident_char (e_id e) = true)
    by (rewrite Eid; cbn [forallb]; rewrite Hx, Hid; reflexivity).
  destruct (ident_facts _ Hidf) as (D2 & _ & S2 & T2).
  destruct (tabsp_facts _ Hi) as (D1 & _ & _).
  destruct (tabsp_facts _ Hg) as (D3 & _ & S3).
  pose proof (forallb_no_linebreak_dot _ Hb) as D4.
  unfold entry_line, quoted.
  rewrite normalize_cut_collapse
    by (rewrite !forallb_app, D1, D2, D3; cbn [forallb]; rewrite forallb_app, D4;
        reflexivity).
  assert (S : strip (e_indent e ++ e_id e ++ e_gap e ++ DQ :: e_body e ++ [DQ])
              = e_id e ++ e_gap e ++ DQ :: e_body e ++ [DQ]).
  { rewrite Eid.
    replace (e_indent e ++ (x :: id') ++ e_gap e ++ DQ :: e_body e ++ [DQ])
      with (e_indent e
            ++ (x :: (id' ++ e_gap e ++ DQ :: e_body e) ++ [DQ]) ++ []).
    2:{ rewrite app_nil_r. cbn [app]. f_equal. f_equal.
        rewrite <- !app_assoc. reflexivity. }
    rewrite strip_spaces;
      [| apply tabsp_space, Hi | reflexivity
       | apply (ident_char_facts unicode_alnum x Hx) | reflexivity].
    cbn [app]. f_equal. rewrite <- !app_assoc. reflexivity. }
  rewrite S. unfold collapse.
  rewrite collapse_go_keep by exact T2.
  rewrite collapse_go_gap by assumption.
  cbn [collapse_go]. change (is_tabsp DQ) with false. cbv iota.
  rewrite collapse_go_snoc by reflexivity.
  apply cut_comment_id.
  rewrite has_comment_keep by exact S2.
  rewrite !has_comment_cons by reflexivity.
  apply has_comment_snoc; [|reflexivity].
  apply collapse_no_comment, Hc.
Qed.

(** One entry of a string table, in the last branch of the dispatch. *)
Lemma loop_body_entry (st : locals) (e : entry) :
  fallback_context st -> entry_ok e = true ->
  exists st',
    loop_body unicode_alnum st (entry_line e) = Ok st'
    /\ strings st' = strings st ++ [unescape (e_body e)]
    /\ fallback_context st'.
Proof.
  intros Hf H.
  destruct (entry_ok_parts e H) as (Hi & (x & id' & Eid & Hx & Hid) & Hg0 & Hg & Hb & Hc).
  assert (Hidf : forallb is_ident_char (e_id e) = true)
    by (rewrite Eid; cbn [forallb]; rewrite Hx, Hid; reflexivity).
  destruct (ident_facts _ Hidf) as (_ & Q2 & _).
  destruct (tabsp_facts _ Hi) as (_ & Q1 & _).
  destruct (tabsp_facts _ Hg) as (_ & Q3 & _).
  destruct (loop_body_after_prefix unicode_alnum st
              (e_indent e ++ e_id e ++ e_gap e) false (e_body e))
    as (st1 & Hs & Hf1 & E).
  - replace ((e_indent e ++ e_id e ++ e_gap e) ++ literal false (e_body e))
      with (entry_line e)
      by (unfold entry_line, literal; cbn [app]; rewrite <- !app_assoc; reflexivity).
    rewrite (normalize_entry e H). apply track_fallback; [exact Hf | |].
    + replace (e_id e ++ SP :: DQ :: collapse (e_body e) ++ [DQ])
        with ((e_id e ++ SP :: DQ :: collapse (e_body e)) ++ [DQ])
        by (rewrite <- app_assoc; reflexivity).
      exact (endswith_other _ DQ (u " MEN") 85 eq_refl).
    + rewrite Eid. cbn [app]. apply dialog_no_match; assumption.
  - rewrite !has_dq_app, Q1, Q2, Q3. reflexivity.
  - rewrite !app_assoc, last_app_nonempty by exact Hg0.
    intros C. pose proof (last_in (e_gap e) Hg0) as I.
    rewrite forallb_forall in Hg. specialize (Hg _ I). rewrite C in Hg.
    discriminate Hg.
  - exact Hb.
  - replace ((e_indent e ++ e_id e ++ e_gap e) ++ literal false (e_body e))
      with (entry_line e) in E
      by (unfold entry_line, literal; cbn [app]; rewrite <- !app_assoc; reflexivity).
    rewrite decode_literal in E by exact Hb. cbn [bind] in E.
    eexists. split; [exact E|]. cbn [strings append_string]. rewrite Hs.
    split; [reflexivity|]. destruct Hf1 as [M D]. split; [exact M | exact D].
Qed.

End Entries.

Lemma splitlines_app_lf (l rest : str) :
  no_linebreak l = true -> splitlines (l ++ LF :: rest) = l :: splitlines rest.
Proof.
  induction l as [|x l IH]; intros H.
  - reflexivity.
  - unfold no_linebreak in H. cbn [forallb] in H.
    apply andb_true_iff in H. destruct H as [Hx H].
    cbn [app]. rewrite splitlines_cons.
    destruct (is_linebreak x); [discriminate|].
    rewrite IH by exact H. reflexivity.
Qed.

Lemma splitlines_join (ls : list str) :
  forallb no_linebreak ls = true -> last ls [LF] <> [] ->
  splitlines (join_lines ls) = ls.
Proof.
  induction ls as [|x ls IH]; intros H Hl; [reflexivity|].
  cbn [forallb] in H. apply andb_true_iff in H. destruct H as [Hx H].
  destruct ls as [|y ls].
  - cbn [join_lines last] in *. destruct x as [|a x]; [congruence|].
    apply splitlines_no_linebreak, Hx.
  - change (join_lines (x :: y :: ls)) with (x ++ LF :: join_lines (y :: ls)).
    rewrite splitlines_app_lf by exact Hx. f_equal. apply IH; [exact H | exact Hl].
Qed.

Section Tables.

Variable unicode_alnum : char -> bool.

Lemma scan_app (l1 l2 : list str) : forall st,
  scan unicode_alnum st (l1 ++ l2)
  = st1 <- scan unicode_alnum st l1 ;; scan unicode_alnum st1 l2.
Proof.
  induction l1 as [|x l1 IH]; intros st; [reflexivity|].
  cbn [app scan]. destruct (loop_body unicode_alnum st x); [|reflexivity].
  cbn [bind]. apply IH.
Qed.

Lemma scan_entries (es : list entry) : forall st,
  fallback_context st -> truthy (orig_str st) = false ->
  forallb entry_ok es = true ->
  exists st',
    scan unicode_alnum st (map entry_line es) = Ok st'
    /\ strings st' = strings st ++ map (fun e => unescape (e_body e)) es
    /\ fallback_context st' /\ truthy (orig_str st') = false.
Proof.
  induction es as [|e es IH]; intros st Hf Ho H.
  - exists st. split; [reflexivity|]. cbn [map]. rewrite app_nil_r. auto.
  - cbn [forallb] in H. apply andb_true_iff in H. destruct H as [He H].
    destruct (loop_body_entry unicode_alnum st e Hf He) as (st1 & E1 & S1 & F1).
    assert (O1 : truthy (orig_str st1) = false).
    { destruct (loop_body_pending unicode_alnum st (entry_line e))
        as (st1' & E1' & O1' & _).
      rewrite E1 in E1'. injection E1' as <-. exact O1'. }
    destruct (IH st1 F1 O1 H) as (st' & E' & S' & F').
    exists st'. cbn [map scan]. rewrite E1. cbn [bind].
    split; [exact E'|]. split; [|exact F'].
    rewrite S', S1, <- app_assoc. reflexivity.
Qed.

Lemma entry_line_no_linebreak (e : entry) :
  entry_ok e = true -> no_linebreak (entry_line e) = true.
Proof.
  intros H.
  destruct (entry_ok_parts e H)
    as (Hi & (x & id' & Eid & Hx & Hid) & _ & Hg & Hb & _).
  assert (Hidf : forallb is_ident_char (e_id e) = true)
    by (rewrite Eid; cbn [forallb]; rewrite Hx, Hid; reflexivity).
  assert (T : forall ws y, forallb is_tabsp ws = true -> In y ws ->
                           negb (is_linebreak y) = true).
  { intros ws y Hw Hy. rewrite forallb_forall in Hw.
    specialize (Hw y Hy). unfold is_tabsp, TAB, SP in Hw.
    apply orb_true_iff in Hw.
    destruct Hw as [Hw|Hw]; apply N.eqb_eq in Hw; subst y; reflexivity. }
  unfold no_linebreak in *. apply forallb_forall. intros y Hy.
  unfold entry_line, quoted in Hy.
  apply in_app_or in Hy. destruct Hy as [Hy|Hy]; [exact (T _ _ Hi Hy)|].
  apply in_app_or in Hy. destruct Hy as [Hy|Hy].
  { rewrite forallb_forall in Hidf. specialize (Hidf y Hy).
    apply ident_char_range in Hidf. unfold is_linebreak.
    destruct Hidf as [R|[R|[R|R]]]; decide_cmp; reflexivity. }
  apply in_app_or in Hy. destruct Hy as [Hy|Hy]; [exact (T _ _ Hg Hy)|].
  destruct Hy as [<-|Hy]; [reflexivity|].
  apply in_app_or in Hy. destruct Hy as [Hy|Hy].
  - rewrite forallb_forall in Hb. exact (Hb y Hy).
  - destruct Hy as [<-|[]]. reflexivity.
Qed.

(** X6: a string table whose lines are [STRINGTABLE], [BEGIN], entries
    made of an identifier, tabs or blanks and a literal that is not wide,
    and [END], gives what the literals stand for, in the order of the
    entries. *)
Theorem X6_string_table (es : list entry) :
  forallb entry_ok es = true ->
  parse_rc_file unicode_alnum (stringtable_text es)
  = Ok (map (fun e => unescape (e_body e)) es).
Proof.
  intros H. unfold parse_rc_file, stringtable_text.
  rewrite splitlines_join.
  - change ([u "STRINGTABLE"; u "BEGIN"] ++ map entry_line es ++ [u "END"])
      with (u "STRINGTABLE" :: u "BEGIN" :: (map entry_line es ++ [u "END"])).
    cbn [scan].
    replace (loop_body unicode_alnum init (u "STRINGTABLE"))
      with (Ok (set_pending (Some (u "STRINGTABLE")) None None
                  (set_stringtable true init)))
      by (vm_compute; reflexivity).
    cbn [bind].
    set (st1 := set_pending _ _ _ _).
    replace (loop_body unicode_alnum st1 (u "BEGIN"))
      with (Ok (set_pending (Some (u "BEGIN")) None None
                  (set_block_level 1 st1)))
      by (vm_compute; reflexivity).
    cbn [bind]. set (st2 := set_pending _ _ _ (set_block_level 1 st1)).
    rewrite scan_app.
    destruct (scan_entries es st2 (conj eq_refl eq_refl) eq_refl H)
      as (st3 & -> & S3 & F3 & O3).
    cbn [bind scan].
    destruct (loop_body_pending unicode_alnum st3 (u "END")) as (st4 & -> & _ & S4 & _).
    cbn [bind]. rewrite S4, S3; [reflexivity | exact O3 | reflexivity].
  - cbn [app forallb]. rewrite forallb_app. cbn [forallb].
    replace (forallb no_linebreak (map entry_line es)) with true; [reflexivity|].
    symmetry. rewrite forallb_forall in *. intros l Hl.
    apply in_map_iff in Hl. destruct Hl as (e & <- & He).
    apply entry_line_no_linebreak, H, He.
  - rewrite !app_assoc, last_last. discriminate.
Qed.

End Tables.

(** ** Lines of a menu or a dialog *)

Lemma star_chr_greedy p (a : str) : forall (t : str) n i c (k : cont) v,
  forallb p a = true ->
  match t with y :: _ => p y = false | [] => True end ->
  (length a <= n)%nat ->
  k (i + length a)%nat t c = Some v ->
  star_iter (exec (Chr p)) true n i (a ++ t) c k = Some v.
Proof.
  induction a as [|x a IH]; intros t n i c k v Ha Ht Hn Hk.
  - cbn [length app] in *. rewrite Nat.add_0_r in Hk.
    destruct n; cbn [star_iter exec]; [exact Hk|].
    destruct t as [|y t]; [exact Hk|]. rewrite Ht. exact Hk.
  - cbn [forallb] in Ha. apply andb_true_iff in Ha. destruct Ha as [Hx Ha].
    cbn [length] in *. destruct n as [|n]; [lia|].
    cbn [app star_iter exec]. rewrite Hx, ltb_succ.
    rewrite IH with (v := v); [reflexivity | exact Ha | exact Ht | lia |].
    rewrite <- Hk. f_equal. lia.
Qed.

(** The loop of doubled double quotes does nothing where no two double
    quotes follow. *)
Lemma pairs_none (s : str) (i : nat) (c : caps) (k : cont) :
  startswith s [DQ; DQ] = false ->
  exec (Star true (Grp 4 (cat [dq; dq]))) i s c k = k i s c.
Proof.
  intros H. cbn [exec]. destruct s as [|a [|b r]]; cbn [length star_iter].
  - reflexivity.
  - unfold dq, lit. cbn [exec cat fold_right]. destruct (DQ =? a); reflexivity.
  - unfold dq, lit. cbn [exec cat fold_right].
    cbn [startswith] in H. rewrite andb_true_r in H.
    rewrite (N.eqb_sym DQ a), (N.eqb_sym DQ b).
    destruct (a =? DQ); [|reflexivity]. cbn [andb] in H. rewrite H. reflexivity.
Qed.

(** The lazy loop of a literal passes a body without double quote one
    character at a turn and stops at the double quote that follows. *)
Lemma lazy_body p (body : str) : forall (tail : str) n i c (k : cont) v,
  forallb p body = true -> has_dq body = false ->
  startswith tail [DQ] = false ->
  (length body < n)%nat ->
  (forall j y s' c', (DQ =? y) = false -> k j (y :: s') c' = None) ->
  k (i + length body)%nat (DQ :: tail) (body_caps body ++ c) = Some v ->
  star_iter
    (exec (Grp 3 (cat [Star false (Chr p); Star true (Grp 4 (cat [dq; dq]))])))
    false n i (body ++ DQ :: tail) c k = Some v.
Proof.
  induction body as [|x b IH]; intros tail n i c k v Hp Hq Ht Hn Kf Ks.
  - cbn [length app body_caps map rev] in *. rewrite Nat.add_0_r in Ks.
    destruct n; [lia|]. cbn [star_iter]. rewrite Ks. reflexivity.
  - cbn [forallb] in Hp. apply andb_true_iff in Hp. destruct Hp as [Px Hp].
    change (has_dq (x :: b)) with ((DQ =? x) || has_dq b) in Hq.
    apply orb_false_iff in Hq. destruct Hq as [Qx Hq].
    cbn [length] in Hn. destruct n as [|n]; [lia|].
    cbn [app star_iter]. rewrite (Kf i x _ c Qx).
    set (G := Star true (Grp 4 (cat [dq; dq]))).
    set (B := exec (Grp 3 (cat [Star false (Chr p); G]))).
    unfold B at 1. cbn [cat fold_right]. cbn [exec].
    cbn [length star_iter]. unfold G at 1.
    rewrite pairs_none
      by (cbn [startswith]; rewrite (N.eqb_sym x DQ), Qx; reflexivity).
    rewrite Nat.ltb_irrefl, Px, ltb_succ.
    assert (L : exists m, length (b ++ DQ :: tail) = S m).
    { rewrite length_app. cbn [length]. exists (length b + length tail)%nat. lia. }
    destruct L as [m ->]. cbn [star_iter]. unfold G at 1.
    rewrite pairs_none.
    2:{ destruct b as [|y b]; cbn [app startswith].
        - cbn [startswith] in Ht. rewrite N.eqb_refl. cbn [andb].
          destruct tail as [|z tail]; [reflexivity|].
          rewrite andb_true_r in Ht |- *. exact Ht.
        - change (has_dq (y :: b)) with ((DQ =? y) || has_dq b) in Hq.
          apply orb_false_iff in Hq. destruct Hq as [Qy _].
          rewrite (N.eqb_sym y DQ), Qy. reflexivity. }
    rewrite ltb_succ.
    replace (S i - i)%nat with 1%nat by lia. cbn [firstn].
    unfold B, G. rewrite IH with (v := v); try assumption; [reflexivity | lia |].
    rewrite <- Ks. cbn [length body_caps map rev]. f_equal; [lia|].
    unfold body_caps. rewrite <- app_assoc. reflexivity.
Qed.

Lemma literal_app (wide : bool) (body tail : str) :
  literal wide body ++ tail
  = (if wide then [76] else []) ++ DQ :: body ++ DQ :: tail.
Proof.
  unfold literal, quoted. rewrite <- app_assoc. cbn [app].
  rewrite <- app_assoc. reflexivity.
Qed.

(** Group 2 of [caption_re] and of [item_re] takes a literal whose body
    has no double quote, when no double quote follows the literal. *)
Lemma exec_literal_group p (wide : bool) (body tail : str) i c (k : cont) v :
  forallb p body = true -> has_dq body = false ->
  startswith tail [DQ] = false ->
  k (i + length (literal wide body))%nat tail
    ((2%nat, literal wide body) :: body_caps body ++ c) = Some v ->
  exec (Grp 2 (cat [opt (lit 76); dq;
                    Star false (Grp 3 (cat [Star false (Chr p);
                                            Star true (Grp 4 (cat [dq; dq]))]));
                    dq]))
       i (literal wide body ++ tail) c k = Some v.
Proof.
  intros Hp Hq Ht Hk. rewrite literal_app. rewrite length_literal in Hk.
  set (B := Star false (Grp 3 (cat [Star false (Chr p);
                                    Star true (Grp 4 (cat [dq; dq]))]))).
  cbn [cat fold_right]. cbn [exec opt]. unfold dq, lit.
  destruct wide; cbn [app exec N.eqb Pos.eqb DQ].
  - unfold B. cbn [exec].
    match goal with
    | |- context [star_iter ?b false ?n ?i0 ?s ?c0 ?k0] =>
        assert (E : star_iter b false n i0 s c0 k0 = Some v);
          [|rewrite E; reflexivity]
    end.
    apply (lazy_body p body tail); try assumption.
    + rewrite length_app. cbn [length]. lia.
    + intros j y s' c' Hy. cbn. unfold DQ in Hy.
      destruct y; [reflexivity|]. cbn in Hy. rewrite Hy. reflexivity.
    + change (k (S (S (S i) + length body)) tail
                ((2%nat, firstn (S (S (S i) + length body) - i)
                           (76 :: DQ :: body ++ DQ :: tail))
                 :: body_caps body ++ c) = Some v).
      rewrite <- Hk. f_equal; [lia|]. f_equal. f_equal.
      replace (S (S (S i) + length body) - i)%nat
        with (length ((76 : char) :: DQ :: body ++ [DQ])).
      2:{ cbn [length]. rewrite length_app. cbn [length]. lia. }
      change ((76 : char) :: DQ :: body ++ DQ :: tail)
        with ((76 : char) :: DQ :: body ++ [DQ] ++ tail).
      rewrite app_assoc.
      exact (firstn_length_app ((76 : char) :: DQ :: body ++ [DQ]) tail).
  - unfold B. cbn [exec].
    match goal with
    | |- context [star_iter ?b false ?n ?i0 ?s ?c0 ?k0] =>
        assert (E : star_iter b false n i0 s c0 k0 = Some v);
          [|rewrite E; reflexivity]
    end.
    apply (lazy_body p body tail); try assumption.
    + rewrite length_app. cbn [length]. lia.
    + intros j y s' c' Hy. cbn. unfold DQ in Hy.
      destruct y; [reflexivity|]. cbn in Hy. rewrite Hy. reflexivity.
    + change (k (S (S i + length body)) tail
                ((2%nat, firstn (S (S i + length body) - i)
                           (DQ :: body ++ DQ :: tail))
                 :: body_caps body ++ c) = Some v).
      rewrite <- Hk. f_equal; [lia|]. f_equal. f_equal.
      replace (S (S i + length body) - i)%nat
        with (length (DQ :: body ++ [DQ])).
      2:{ cbn [length]. rewrite length_app. cbn [length]. lia. }
      change (DQ :: body ++ DQ :: tail) with (DQ :: body ++ [DQ] ++ tail).
      rewrite app_assoc.
      exact (firstn_length_app (DQ :: body ++ [DQ]) tail).
Qed.

Lemma seq_bol (r : regex) (s : str) c (k : cont) :
  exec (Seq Bol r) 0 s c k = exec r 0 s c k.
Proof. reflexivity. Qed.

Lemma seq_star_greedy p (r : regex) (a t : str) i c (k : cont) v :
  forallb p a = true ->
  match t with y :: _ => p y = false | [] => True end ->
  exec r (i + length a)%nat t c k = Some v ->
  exec (Seq (Star true (Chr p)) r) i (a ++ t) c k = Some v.
Proof.
  intros Ha Ht Hr. cbn [exec].
  apply (star_chr_greedy p a t); try assumption.
  rewrite length_app. lia.
Qed.

Lemma seq_plus_greedy p (r : regex) (x : char) (a t : str) i c (k : cont) v :
  p x = true -> forallb p a = true ->
  match t with y :: _ => p y = false | [] => True end ->
  exec r (S i + length a)%nat t c k = Some v ->
  exec (Seq (plus (Chr p)) r) i (x :: a ++ t) c k = Some v.
Proof.
  intros Hx Ha Ht Hr. unfold plus. cbn [exec]. rewrite Hx.
  apply (star_chr_greedy p a t); try assumption.
  rewrite length_app. lia.
Qed.

Lemma seq_grp_plus p g (r : regex) (x : char) (a t : str) i c (k : cont) v :
  p x = true -> forallb p a = true ->
  match t with y :: _ => p y = false | [] => True end ->
  exec r (S i + length a)%nat t ((g, x :: a) :: c) k = Some v ->
  exec (Seq (Grp g (plus (Chr p))) r) i (x :: a ++ t) c k = Some v.
Proof.
  intros Hx Ha Ht Hr. unfold plus. cbn [exec]. rewrite Hx.
  apply (star_chr_greedy p a t); try assumption.
  - rewrite length_app. lia.
  - rewrite <- Hr. f_equal. f_equal. f_equal.
    replace (S i + length a - i)%nat with (length (x :: a)) by (cbn [length]; lia).
    exact (firstn_length_app (x :: a) t).
Qed.

Lemma seq_literal_group p (r : regex) (wide : bool) (body tail : str)
    i c (k : cont) v :
  forallb p body = true -> has_dq body = false ->
  startswith tail [DQ] = false ->
  exec r (i + length (literal wide body))%nat tail
    ((2%nat, literal wide body) :: body_caps body ++ c) k = Some v ->
  exec (Seq (Grp 2 (cat [opt (lit 76); dq;
                         Star false (Grp 3 (cat [Star false (Chr p);
                                                 Star true (Grp 4 (cat [dq; dq]))]));
                         dq])) r)
       i (literal wide body ++ tail) c k = Some v.
Proof.
  intros Hp Hq Ht Hr.
  change (exec (Seq ?a r) i ?s c k)
    with (exec a i s c (fun i' s' c' => exec r i' s' c' k)).
  apply exec_literal_group; assumption.
Qed.

Lemma star_iter_keeps g body gr n : forall i s c (k : cont) v,
  (forall i s c (k : cont) v, body i s c k = Some v ->
     exists i' s' c1, k i' s' c1 = Some v /\ lookup g c1 = lookup g c) ->
  star_iter body gr n i s c k = Some v ->
  exists i' s' c1, k i' s' c1 = Some v /\ lookup g c1 = lookup g c.
Proof.
  induction n as [|n IH]; intros i s c k v Hbody E; cbn [star_iter] in E.
  - eauto.
  - assert (Hmore : forall K m,
        (forall i' s' c', K i' s' c'
           = if (i <? i')%nat then star_iter body gr n i' s' c' k else None) ->
        body i s c K = Some m ->
        exists i' s' c1, k i' s' c1 = Some m /\ lookup g c1 = lookup g c).
    { intros K m HK E1. apply Hbody in E1.
      destruct E1 as (i1 & s1 & c2 & E1 & L1). rewrite HK in E1.
      destruct (i <? i1)%nat; [|discriminate].
      apply IH in E1; [|exact Hbody].
      destruct E1 as (i2 & s2 & c3 & E2 & L2).
      exists i2, s2, c3. split; [exact E2 | congruence]. }
    destruct gr.
    + destruct (body i s c _) as [m|] eqn:E1.
      * injection E as ->. exact (Hmore _ _ (fun _ _ _ => eq_refl) E1).
      * eauto.
    + destruct (k i s c) as [m|] eqn:E1.
      * injection E as ->. eauto.
      * exact (Hmore _ _ (fun _ _ _ => eq_refl) E).
Qed.

(** A pattern leaves the groups alone that it does not have. *)
Lemma exec_keeps g r : captures g r = false ->
  forall i s c (k : cont) v,
  exec r i s c k = Some v ->
  exists i' s' c1, k i' s' c1 = Some v /\ lookup g c1 = lookup g c.
Proof.
  induction r as [|p|r1 IH1 r2 IH2|r1 IH1 r2 IH2|gr r IH|n r IH| |];
    cbn [captures]; intros C i s c k v E; cbn [exec] in E.
  - eauto.
  - destruct s as [|x s]; [discriminate|]. destruct (p x); [|discriminate]. eauto.
  - apply orb_false_iff in C. destruct C as [C1 C2].
    apply (IH1 C1) in E. destruct E as (i1 & s1 & c1 & E & L1).
    apply (IH2 C2) in E. destruct E as (i2 & s2 & c2 & E & L2).
    exists i2, s2, c2. split; [exact E | congruence].
  - apply orb_false_iff in C. destruct C as [C1 C2].
    destruct (exec r1 i s c k) as [m|] eqn:E1.
    + injection E as ->. exact (IH1 C1 _ _ _ _ _ E1).
    + exact (IH2 C2 _ _ _ _ _ E).
  - apply star_iter_keeps with (g := g) in E; [exact E|].
    intros i0 s0 c0 k0 v0 E0. exact (IH C _ _ _ _ _ E0).
  - apply orb_false_iff in C. destruct C as [Cn C].
    apply (IH C) in E. destruct E as (i1 & s1 & c1 & E & L1).
    exists i1, s1, ((n, firstn (i1 - i) s) :: c1). split; [exact E|].
    cbn [lookup]. rewrite Cn. exact L1.
  - destruct (i =? 0)%nat; [|discriminate]. eauto.
  - exists i, s, c. split; [|reflexivity].
    destruct s as [|x [|y s]]; try discriminate; [exact E|].
    destruct (x =? LF); [exact E | discriminate].
Qed.

(** An optional pattern at the end of a match always lets the match
    end. *)
Lemma opt_accept g (r : regex) i (s : str) c :
  captures g r = false ->
  exists v, exec (Seq (opt r) Eps) i s c accept = Some v
            /\ lookup g (snd v) = lookup g c.
Proof.
  intros C. unfold opt. cbn [exec].
  destruct (exec r i s c _) as [v|] eqn:E.
  - exists v. split; [reflexivity|].
    destruct (exec_keeps g r C _ _ _ _ _ E) as (i1 & s1 & c1 & A & L).
    unfold accept in A. injection A as <-. exact L.
  - exists (i, c). split; reflexivity.
Qed.

Lemma cut_comment_keep (a r : str) :
  forallb (fun x => negb (x =? 47)) a = true ->
  cut_comment (a ++ r) = a ++ cut_comment r.
Proof.
  induction a as [|x a IH]; intros H; [reflexivity|].
  cbn [forallb] in H. apply andb_true_iff in H. destruct H as [Hx H].
  cbn [app cut_comment]. rewrite IH by exact H.
  destruct (x =? 47); [discriminate|]. cbn [andb].
  destruct (a ++ r) eqn:E; [|reflexivity].
  apply app_eq_nil in E. destruct E as [-> ->]. reflexivity.
Qed.

(** [str.strip] takes the white space before a core that begins and ends
    with other characters, and of what follows the core it keeps a part. *)
Lemma strip_core (ws : str) (x : char) (mid : str) (y : char) (c : str) :
  forallb is_space ws = true -> is_space x = false -> is_space y = false ->
  exists c', strip (ws ++ (x :: mid ++ [y]) ++ c) = (x :: mid ++ [y]) ++ c'.
Proof.
  intros Hw Hx Hy.
  destruct (strip_prefix x mid y c Hx Hy) as [c' E]. exists c'.
  unfold strip in *. cbn [app] in *. rewrite lstrip_spaces by assumption.
  cbn [lstrip] in E. rewrite Hx in E. exact E.
Qed.

Lemma str_eqb_blank (a z w : str) :
  forallb (fun x => negb (x =? SP)) w = true -> str_eqb (a ++ SP :: z) w = false.
Proof.
  intros H. destruct (str_eqb (a ++ SP :: z) w) eqn:E; [|reflexivity].
  apply str_eqb_eq in E. subst w. rewrite forallb_app in H.
  apply andb_true_iff in H. destruct H as [_ H]. cbn in H. discriminate H.
Qed.

Lemma text_head_none (a : char) (w : string) (y : char) (rest : str)
    (i : nat) (c : caps) (k : cont) :
  (a =? y) = false ->
  exec (cat (map lit (a :: u w))) i (y :: rest) c k = None.
Proof.
  intros H. cbn [map cat fold_right]. unfold lit at 1. cbn [exec].
  rewrite H. reflexivity.
Qed.

Section Items.

Variable unicode_alnum : char -> bool.

Lemma dialog_no_match_after (x : char) (id' : str) (y : char) (rest : str) :
  is_ident_char x = true -> forallb is_ident_char id' = true ->
  (68 =? y) = false ->
  re_match (dialog_re unicode_alnum) (x :: id' ++ SP :: y :: rest) = None.
Proof.
  intros Hx Hid Hy.
  destruct (ident_char_facts unicode_alnum x Hx) as (Wx & _).
  unfold re_match, match_at, dialog_re, plus.
  cbn [cat fold_right]. cbn [exec Nat.eqb].
  unfold word at 1. cbn [exec]. rewrite Wx. unfold word.
  rewrite star_chr_none; [reflexivity | | reflexivity |].
  - rewrite forallb_forall in *. intros z Hz.
    apply (ident_char_facts unicode_alnum z (Hid z Hz)).
  - intros j _. destruct (skipn_cases j id') as [-> | (z & r & -> & Hz)].
    + cbn [app]. unfold lit at 1. cbn [exec]. rewrite N.eqb_refl.
      change (text "DIALOG") with (cat (map lit (68 :: u "IALOG"))).
      change (text "DIALOGEX") with (cat (map lit (68 :: u "IALOGEX"))).
      rewrite !text_head_none by exact Hy. reflexivity.
    + cbn [app exec lit].
      rewrite forallb_forall in Hid.
      destruct (ident_char_facts unicode_alnum z (Hid z Hz))
        as (_ & _ & _ & _ & _ & _ & ->).
      reflexivity.
Qed.

Lemma item_ok_parts (it : item) :
  item_ok it = true ->
  forallb is_tabsp (i_indent it) = true
  /\ (exists x w', i_word it = x :: w' /\ is_ident_char x = true
                   /\ forallb is_ident_char w' = true)
  /\ (exists g gs, i_gap it = g :: gs /\ is_tabsp g = true
                   /\ forallb is_tabsp gs = true)
  /\ has_dq (i_body it) = false /\ no_linebreak (i_body it) = true
  /\ startswith (i_tail it) [DQ] = false /\ forallb is_dot (i_tail it) = true.
Proof.
  unfold item_ok. intros H.
  repeat (apply andb_true_iff in H; destruct H as [H ?]).
  split; [exact H|]. split; [|split].
  - destruct (i_word it) as [|x w']; [discriminate|].
    exists x, w'. split; [reflexivity|].
    match goal with F : forallb is_ident_char _ = true |- _ =>
      cbn [forallb] in F; apply andb_true_iff in F; exact F end.
  - destruct (i_gap it) as [|g gs]; [discriminate|].
    exists g, gs. split; [reflexivity|].
    match goal with F : forallb is_tabsp (_ :: _) = true |- _ =>
      cbn [forallb] in F; apply andb_true_iff in F; exact F end.
  - repeat split; try assumption.
    + match goal with F : negb (has_dq _) = true |- _ =>
        destruct (has_dq (i_body it)); [discriminate F | reflexivity] end.
    + match goal with F : negb (startswith _ _) = true |- _ =>
        destruct (startswith (i_tail it) [DQ]); [discriminate F | reflexivity] end.
Qed.

(** The head of the literal: [L] and the double quote, or the double
    quote. *)
Lemma literal_head (wide : bool) (body tail : str) :
  exists y mid, literal wide body ++ tail = (y :: mid ++ [DQ]) ++ tail
                /\ (y = 76 \/ y = DQ).
Proof.
  unfold literal, quoted. destruct wide; cbn [app].
  - exists 76, (DQ :: body). split; [reflexivity | left; reflexivity].
  - exists DQ, body. split; [reflexivity | right; reflexivity].
Qed.

Lemma normalize_item (it : item) :
  item_ok it = true ->
  exists y z, normalize (item_line it) = i_word it ++ SP :: y :: z
              /\ (y = 76 \/ y = DQ).
Proof.
  intros H.
  destruct (item_ok_parts it H)
    as (Hi & (x & w' & Ew & Hx & Hw) & (g & gs & Eg & Hg & Hgs) & Hq & Hb & Ht & Hd).
  assert (Hwf : forallb is_ident_char (i_word it) = true)
    by (rewrite Ew; cbn [forallb]; rewrite Hx, Hw; reflexivity).
  assert (Hgf : forallb is_tabsp (i_gap it) = true)
    by (rewrite Eg; cbn [forallb]; rewrite Hg, Hgs; reflexivity).
  destruct (ident_facts unicode_alnum _ Hwf) as (D2 & _ & S2 & T2).
  destruct (tabsp_facts _ Hi) as (D1 & _ & _).
  destruct (tabsp_facts _ Hgf) as (D3 & _ & _).
  pose proof (forallb_no_linebreak_dot _ Hb) as D4.
  unfold item_line.
  rewrite normalize_cut_collapse.
  2:{ rewrite !forallb_app, D1, D2, D3, Hd. unfold literal, quoted.
      rewrite forallb_app. cbn [forallb]. rewrite forallb_app, D4.
      destruct (i_wide it); reflexivity. }
  destruct (literal_head (i_wide it) (i_body it) (i_tail it))
    as (y & mid & El & Hy).
  rewrite El.
  assert (Ny : is_tabsp y = false /\ (y =? 47) = false /\ is_space y = false)
    by (destruct Hy as [-> | ->]; repeat split; reflexivity).
  destruct Ny as (Ty & Sy & Py).
  assert (S : exists c', strip (i_indent it ++ i_word it ++ i_gap it
                                ++ (y :: mid ++ [DQ]) ++ i_tail it)
                         = i_word it ++ i_gap it ++ (y :: mid ++ [DQ]) ++ c').
  { rewrite Ew.
    destruct (strip_core (i_indent it) x (w' ++ i_gap it ++ y :: mid) DQ (i_tail it)
                (tabsp_space _ Hi)
                (proj1 (proj2 (proj2 (ident_char_facts unicode_alnum x Hx))))
                eq_refl) as [c' E].
    exists c'.
    replace (i_indent it ++ (x :: w') ++ i_gap it ++ (y :: mid ++ [DQ]) ++ i_tail it)
      with (i_indent it ++ (x :: (w' ++ i_gap it ++ y :: mid) ++ [DQ]) ++ i_tail it).
    2:{ cbn [app]. repeat (rewrite <- app_assoc; cbn [app]). reflexivity. }
    rewrite E. cbn [app]. repeat (rewrite <- app_assoc; cbn [app]).
    reflexivity. }
  destruct S as [c' ->]. unfold collapse.
  rewrite collapse_go_keep by exact T2.
  rewrite collapse_go_gap; [|rewrite Eg; discriminate | exact Hgf].
  cbn [app collapse_go]. rewrite Ty.
  rewrite cut_comment_keep by exact S2.
  set (Z := collapse_go false _).
  exists y. destruct Z as [|z Z].
  - exists []. split; [reflexivity | exact Hy].
  - exists (cut_comment (z :: Z)). split; [|exact Hy].
    cbn [cut_comment]. change (SP =? 47) with false. cbn [andb].
    rewrite Sy. reflexivity.
Qed.

(** What [track] makes of the block variables on a line of a menu or a
    dialog: the level and [dialog] stay, [menu] is not reset. *)
Lemma track_item (st : locals) (it : item) :
  item_ok it = true ->
  let st' := track unicode_alnum (normalize (item_line it)) st in
  block_level st' = block_level st /\ dialog st' = dialog st
  /\ (menu st = true -> menu st' = true) /\ strings st' = strings st.
Proof.
  intros H.
  destruct (normalize_item it H) as (y & z & -> & Hy).
  destruct (item_ok_parts it H) as (_ & (x & w' & Ew & Hx & Hw) & _).
  unfold track.
  rewrite !str_eqb_blank by reflexivity.
  rewrite Ew. cbn [app].
  rewrite dialog_no_match_after
    by (try assumption; destruct Hy as [-> | ->]; reflexivity).
  destruct (endswith _ _); cbn; auto.
Qed.

End Items.

Lemma has_dq_notdq (body : str) :
  has_dq body = false -> forallb is_notdq body = true.
Proof.
  unfold has_dq. induction body as [|x body IH]; [reflexivity|].
  cbn [existsb forallb]. intros H. apply orb_false_iff in H.
  destruct H as [Hx H]. rewrite IH by exact H. unfold is_notdq.
  rewrite N.eqb_sym, Hx. reflexivity.
Qed.

Lemma literal_head_tabsp (wide : bool) (body tail : str) :
  match literal wide body ++ tail with
  | y :: _ => is_tabsp y = false
  | [] => True
  end.
Proof. destruct wide; reflexivity. Qed.

Lemma seq_grp_caption (r : regex) (t : str) i c (k : cont) :
  exec (Seq (Grp 1 (text "CAPTION")) r) i (u "CAPTION" ++ t) c k
  = exec r (7 + i)%nat t
      ((1%nat, firstn (7 + i - i) (u "CAPTION" ++ t)) :: c) k.
Proof. reflexivity. Qed.

Section ItemLines.

Variable unicode_alnum : char -> bool.

(** [item_re] matches a line of a menu or a dialog, and its group 2 is
    the literal. *)
Lemma match_item (it : item) :
  item_ok it = true ->
  exists m, re_match (item_re unicode_alnum) (item_line it) = Some m
            /\ group 2 m = Some (literal (i_wide it) (i_body it)).
Proof.
  intros H.
  destruct (item_ok_parts it H)
    as (Hi & (x & w' & Ew & Hx & Hw) & (g & gs & Eg & Hg & Hgs) & Hq & Hb & Ht & Hd).
  destruct (ident_char_facts unicode_alnum x Hx) as (Wx & Tx & _).
  assert (Ww : forallb (is_word unicode_alnum) w' = true).
  { rewrite forallb_forall in *. intros z Hz.
    apply (ident_char_facts unicode_alnum z (Hw z Hz)). }
  assert (Wg : is_word unicode_alnum g = false).
  { unfold is_tabsp, TAB, SP in Hg. apply orb_true_iff in Hg.
    destruct Hg as [Hg | Hg]; apply N.eqb_eq in Hg; subst g; reflexivity. }
  unfold item_line. rewrite Ew, Eg.
  set (L := literal (i_wide it) (i_body it)).
  set (i4 := (S (S (0 + length (i_indent it)) + length w') + length gs
              + length L)%nat).
  set (c4 := (2%nat, L) :: body_caps (i_body it) ++ [(1%nat, x :: w')]).
  destruct (opt_accept 2
              (Grp 5 (cat [lit 44; Star true tabsp;
                           Grp 6 (plus (word unicode_alnum))]))
              i4 (i_tail it) c4 eq_refl) as (v & Ev & Lv).
  assert (E : exec (item_re unicode_alnum) 0
                (i_indent it ++ (x :: w') ++ (g :: gs) ++ L ++ i_tail it)
                [] accept = Some v).
  { unfold item_re. cbn [cat fold_right]. rewrite seq_bol.
    apply seq_star_greedy; [exact Hi | exact Tx |].
    apply (seq_grp_plus (is_word unicode_alnum) 1 _ x w'
             ((g :: gs) ++ L ++ i_tail it));
      [exact Wx | exact Ww | exact Wg |].
    apply (seq_plus_greedy is_tabsp _ g gs (L ++ i_tail it));
      [exact Hg | exact Hgs | apply literal_head_tabsp |].
    apply (seq_literal_group is_notdq);
      [apply has_dq_notdq; exact Hq | exact Hq | exact Ht |].
    exact Ev. }
  unfold re_match, match_at. rewrite E. destruct v as [j c].
  eexists. split; [reflexivity|].
  cbn [group m_caps]. cbn [snd] in Lv. rewrite Lv. reflexivity.
Qed.

(** [caption_re] matches a [CAPTION] line, and its group 2 is the
    literal. *)
Lemma match_caption (it : item) :
  item_ok it = true -> i_word it = u "CAPTION" ->
  exists m, re_match caption_re (item_line it) = Some m
            /\ group 2 m = Some (literal (i_wide it) (i_body it)).
Proof.
  intros H Ew.
  destruct (item_ok_parts it H)
    as (Hi & _ & (g & gs & Eg & Hg & Hgs) & Hq & Hb & Ht & Hd).
  unfold item_line. rewrite Ew, Eg.
  set (L := literal (i_wide it) (i_body it)).
  set (t := (g :: gs) ++ L ++ i_tail it).
  set (i1 := (0 + length (i_indent it))%nat).
  set (c1 := [(1%nat, firstn (7 + i1 - i1) (u "CAPTION" ++ t))]).
  set (i4 := (S (7 + i1) + length gs + length L)%nat).
  set (c4 := (2%nat, L) :: body_caps (i_body it) ++ c1).
  assert (E : exec caption_re 0 (i_indent it ++ u "CAPTION" ++ t) [] accept
              = Some (i4, c4)).
  { unfold caption_re. cbn [cat fold_right]. rewrite seq_bol.
    apply seq_star_greedy; [exact Hi | reflexivity |].
    rewrite seq_grp_caption.
    apply (seq_plus_greedy is_tabsp _ g gs (L ++ i_tail it));
      [exact Hg | exact Hgs | apply literal_head_tabsp |].
    apply (seq_literal_group is_dot);
      [apply forallb_no_linebreak_dot; exact Hb | exact Hq | exact Ht |].
    reflexivity. }
  unfold re_match, match_at. rewrite E.
  eexists. split; reflexivity.
Qed.

Lemma emit_pending (i h : option str) (wide : bool) (body : str) (st : locals) :
  exists s, decode (literal wide body) = Ok s
    /\ emit (set_pending i h (Some (literal wide body)) st)
       = Ok (append_string s (set_pending i h (Some (literal wide body)) st)).
Proof.
  destruct (decode_total (literal wide body)) as [s Es].
  exists s. split; [exact Es|].
  unfold emit. cbn [orig_str set_pending].
  replace (truthy (Some (literal wide body))) with true
    by (destruct wide; reflexivity).
  rewrite Es. reflexivity.
Qed.

(** A line of a menu or a dialog inside its block: the literal is decoded
    and appended, whatever follows it on the line. *)
Lemma loop_body_item (st : locals) (it : item) :
  (menu st || dialog st) = true -> block_level st <> 0%Z ->
  item_ok it = true ->
  exists st' s,
    loop_body unicode_alnum st (item_line it) = Ok st'
    /\ decode (literal (i_wide it) (i_body it)) = Ok s
    /\ strings st' = strings st ++ [s]
    /\ block_level st' = block_level st
    /\ (menu st' || dialog st') = true
    /\ orig_str st' = None.
Proof.
  intros Hmd Hbl H.
  destruct (track_item unicode_alnum st it H) as (Bl & Dl & Mn & Sr).
  destruct (match_item it H) as (m & Em & Gm).
  unfold loop_body.
  set (st1 := track unicode_alnum (normalize (item_line it)) st) in *.
  assert (Hmd1 : (menu st1 || dialog st1) = true).
  { rewrite Dl. destruct (menu st) eqn:M.
    - rewrite (Mn eq_refl). reflexivity.
    - cbn [orb] in Hmd. rewrite Hmd. apply orb_true_r. }
  unfold dispatch. rewrite Bl.
  apply Z.eqb_neq in Hbl. rewrite Hbl, andb_false_r, Hmd1.
  cbn [negb andb]. rewrite Em, Gm.
  match goal with |- context [emit (set_pending ?i ?h _ ?s1)] =>
    destruct (emit_pending i h (i_wide it) (i_body it) s1) as (s & Es & Ee)
  end.
  eexists. exists s. split; [exact Ee|]. split; [exact Es|].
  cbn [strings block_level menu dialog orig_str append_string set_pending].
  rewrite Sr, Bl. repeat split. exact Hmd1.
Qed.

(** The [CAPTION] line of a dialog before its block: the literal is
    decoded and appended. *)
Lemma loop_body_caption (st : locals) (it : item) :
  dialog st = true -> block_level st = 0%Z ->
  item_ok it = true -> i_word it = u "CAPTION" ->
  exists st' s,
    loop_body unicode_alnum st (item_line it) = Ok st'
    /\ decode (literal (i_wide it) (i_body it)) = Ok s
    /\ strings st' = strings st ++ [s]
    /\ block_level st' = 0%Z /\ dialog st' = true
    /\ orig_str st' = None.
Proof.
  intros Hd Hbl H Ew.
  destruct (track_item unicode_alnum st it H) as (Bl & Dl & Mn & Sr).
  destruct (match_caption it H Ew) as (m & Em & Gm).
  unfold loop_body.
  set (st1 := track unicode_alnum (normalize (item_line it)) st) in *.
  unfold dispatch. rewrite Bl, Dl, Hd, Hbl. cbn [Z.eqb andb].
  rewrite Em, Gm.
  match goal with |- context [emit (set_pending ?i ?h _ ?s1)] =>
    destruct (emit_pending i h (i_wide it) (i_body it) s1) as (s & Es & Ee)
  end.
  eexists. exists s. split; [exact Ee|]. split; [exact Es|].
  cbn [strings block_level menu dialog orig_str append_string set_pending].
  rewrite Sr, Bl, Dl. repeat split; assumption.
Qed.

(** X7: inside the block of a menu or a dialog, a line made of a word,
    tabs or blanks and a literal whose body has no double quote appends
    what the literal stands for, whatever follows the literal on the line
    (an identifier after a comma, a comment); the level and the kind of
    the block stay.  A literal that is not wide stands for its body with
    the escapes replaced. *)
Theorem X7_item_line (st : locals) (it : item) :
  (menu st || dialog st) = true -> block_level st <> 0%Z ->
  item_ok it = true ->
  exists st' s,
    loop_body unicode_alnum st (item_line it) = Ok st'
    /\ decode (literal (i_wide it) (i_body it)) = Ok s
    /\ (i_wide it = false -> s = unescape (i_body it))
    /\ strings st' = strings st ++ [s]
    /\ block_level st' = block_level st
    /\ (menu st' || dialog st') = true.
Proof.
  intros Hmd Hbl H.
  destruct (loop_body_item st it Hmd Hbl H) as (st' & s & E & D & S & B & M & _).
  exists st', s. repeat split; try assumption.
  intros W. destruct (item_ok_parts it H) as (_ & _ & _ & _ & Hb & _).
  rewrite decode_literal, W in D by exact Hb. congruence.
Qed.

(** X8: in a dialog, before its block, a [CAPTION] line appends what its
    literal stands for and leaves the dialog open at level 0. *)
Theorem X8_caption_line (st : locals) (it : item) :
  dialog st = true -> block_level st = 0%Z ->
  item_ok it = true -> i_word it = u "CAPTION" ->
  exists st' s,
    loop_body unicode_alnum st (item_line it) = Ok st'
    /\ decode (literal (i_wide it) (i_body it)) = Ok s
    /\ strings st' = strings st ++ [s]
    /\ block_level st' = 0%Z /\ dialog st' = true.
Proof.
  intros Hd Hbl H Ew.
  destruct (loop_body_caption st it Hd Hbl H Ew)
    as (st' & s & E & D & S & B & M & _).
  exists st', s. repeat split; assumption.
Qed.

End ItemLines.

(** ** Menus *)

Lemma has_dq_space (ws : str) : forallb is_space ws = true -> has_dq ws = false.
Proof.
  unfold has_dq. induction ws as [|x ws IH]; [reflexivity|].
  cbn [forallb existsb]. intros H. apply andb_true_iff in H.
  destruct H as [Hx H]. rewrite IH by exact H.
  destruct (N.eqb_spec DQ x) as [<-|]; [discriminate Hx | reflexivity].
Qed.

Lemma ident_no_linebreak (a : str) :
  forallb is_ident_char a = true -> no_linebreak a = true.
Proof.
  unfold no_linebreak. rewrite !forallb_forall. intros H x Hx.
  pose proof (ident_char_range x (H x Hx)) as R.
  unfold is_linebreak.
  repeat match goal with
         | |- context [?a <=? ?b] => destruct (N.leb_spec a b)
         | |- context [?a =? ?b] => destruct (N.eqb_spec a b)
         end; cbn; try reflexivity; lia.
Qed.

Lemma tabsp_no_linebreak (a : str) :
  forallb is_tabsp a = true -> no_linebreak a = true.
Proof.
  unfold no_linebreak. rewrite !forallb_forall. intros H x Hx.
  specialize (H x Hx). unfold is_tabsp, TAB, SP in H.
  apply orb_true_iff in H. destruct H as [H | H]; apply N.eqb_eq in H;
    subst x; reflexivity.
Qed.

Lemma no_linebreak_app (a b : str) :
  no_linebreak (a ++ b) = no_linebreak a && no_linebreak b.
Proof. apply forallb_app. Qed.

Lemma item_line_no_linebreak (it : item) :
  item_ok it = true -> no_linebreak (i_tail it) = true ->
  no_linebreak (item_line it) = true.
Proof.
  intros H Ht.
  destruct (item_ok_parts it H)
    as (Hi & (x & w' & Ew & Hx & Hw) & (g & gs & Eg & Hg & Hgs) & Hq & Hb & _).
  unfold item_line. rewrite !no_linebreak_app.
  rewrite (tabsp_no_linebreak _ Hi), Ht.
  rewrite ident_no_linebreak
    by (rewrite Ew; cbn [forallb]; rewrite Hx, Hw; reflexivity).
  rewrite tabsp_no_linebreak
    by (rewrite Eg; cbn [forallb]; rewrite Hg, Hgs; reflexivity).
  unfold literal, quoted. rewrite no_linebreak_app.
  change (no_linebreak (DQ :: i_body it ++ [DQ]))
    with (no_linebreak ([DQ] ++ i_body it ++ [DQ])).
  rewrite !no_linebreak_app, Hb. destruct (i_wide it); reflexivity.
Qed.

Section Rows.

Variable unicode_alnum : char -> bool.

(** A line keeps a menu or a dialog open, unless it is the [END] that
    brings the level to 0. *)
Lemma track_open (norm : str) (st : locals) :
  (menu st || dialog st) = true ->
  (str_eqb norm (u "END") = true -> (block_level st - 1)%Z <> 0%Z) ->
  let st' := track unicode_alnum norm st in
  (menu st' || dialog st') = true.
Proof.
  intros Hmd Hend. destruct (str_eqb norm (u "END")) eqn:E.
  - apply str_eqb_eq in E. subst norm. cbv zeta. rewrite track_end.
    specialize (Hend eq_refl). apply Z.eqb_neq in Hend. rewrite Hend.
    exact Hmd.
  - cbv zeta. unfold track. rewrite E.
    destruct (endswith norm (u " MENU"));
      destruct (re_match (dialog_re unicode_alnum) norm);
      destruct (str_eqb norm (u "STRINGTABLE"));
      destruct (str_eqb norm (u "BEGIN")); cbn;
      first [reflexivity | apply orb_true_r | exact Hmd].
Qed.

(** A line without a double quote, when no string is pending: no string
    is added, and the level follows the normal form of the line. *)
Lemma loop_body_plain (st : locals) (line : str) :
  (menu st || dialog st) = true -> truthy (orig_str st) = false ->
  has_dq line = false ->
  (str_eqb (normalize line) (u "END") = true -> (block_level st - 1)%Z <> 0%Z) ->
  exists st',
    loop_body unicode_alnum st line = Ok st'
    /\ strings st' = strings st
    /\ truthy (orig_str st') = false
    /\ block_level st'
       = (block_level st
          + (if str_eqb (normalize line) (u "BEGIN") then 1 else 0)
          - (if str_eqb (normalize line) (u "END") then 1 else 0))%Z
    /\ (menu st' || dialog st') = true.
Proof.
  intros Hmd Ho Hq Hend.
  destruct (loop_body_pending unicode_alnum st line) as (st' & E & Ho' & Hs & _).
  destruct (loop_body_total unicode_alnum st line)
    as (st2 & E2 & Hm & Hd & _ & Hb & _).
  rewrite E in E2. injection E2 as <-.
  exists st'. split; [exact E|]. split; [exact (Hs Ho Hq)|].
  split; [exact Ho'|]. split.
  - rewrite Hb. apply track_block_level.
  - rewrite Hm, Hd. apply (track_open (normalize line) st Hmd Hend).
Qed.

Lemma scan_rows (rows : list row) : forall (depth : nat) (st : locals),
  in_block st depth -> rows_ok depth rows = true ->
  exists st' out,
    scan unicode_alnum st (map row_line rows) = Ok st'
    /\ strings st' = strings st ++ out
    /\ Forall2 stands_for (row_items rows) out
    /\ truthy (orig_str st') = false.
Proof.
  induction rows as [|r rows IH]; intros depth st (Hmd & Hbl & Ho) H.
  - exists st, []. cbn [map scan row_items]. rewrite app_nil_r.
    repeat split; [constructor | exact Ho].
  - destruct r as [it | line]; cbn [rows_ok] in H.
    + apply andb_true_iff in H. destruct H as [H Hr].
      apply andb_true_iff in H. destruct H as [Hit _].
      destruct (loop_body_item unicode_alnum st it Hmd) as
        (st1 & s & E & D & S & B & M & O); [rewrite Hbl; lia | exact Hit |].
      destruct (IH depth st1) as (st' & out & E' & S' & F & O');
        [split; [exact M|]; split; [rewrite B; exact Hbl | rewrite O; reflexivity]
        | exact Hr |].
      exists st', (s :: out). cbn [map scan row_line row_items].
      rewrite E. cbn [bind]. split; [exact E'|]. split.
      * rewrite S', S, <- app_assoc. reflexivity.
      * split; [constructor; [exact D | exact F] | exact O'].
    + apply andb_true_iff in H. destruct H as [H Hr].
      apply andb_true_iff in H. destruct H as [Hq _].
      assert (Hq' : has_dq line = false)
        by (destruct (has_dq line); [discriminate Hq | reflexivity]).
      assert (Hend : str_eqb (normalize line) (u "END") = true ->
                     (block_level st - 1)%Z <> 0%Z).
      { intros E. destruct (str_eqb (normalize line) (u "BEGIN")) eqn:B.
        - apply str_eqb_eq in B. rewrite B in E. discriminate E.
        - rewrite E in Hr. destruct depth; [discriminate Hr|]. rewrite Hbl. lia. }
      destruct (loop_body_plain st line Hmd Ho Hq' Hend)
        as (st1 & E & Hs & O & B & M).
      assert (N : exists depth', in_block st1 depth' /\ rows_ok depth' rows = true).
      { destruct (str_eqb (normalize line) (u "BEGIN")) eqn:Eb.
        - exists (S depth). split; [|exact Hr].
          split; [exact M|]. split; [|exact O]. rewrite B, Hbl.
          destruct (str_eqb (normalize line) (u "END")) eqn:Ee.
          + apply str_eqb_eq in Eb. rewrite Eb in Ee. discriminate Ee.
          + lia.
        - destruct (str_eqb (normalize line) (u "END")) eqn:Ee.
          + destruct depth as [|d]; [discriminate Hr|]. exists d.
            split; [|exact Hr]. split; [exact M|]. split; [|exact O].
            rewrite B, Hbl. lia.
          + exists depth. split; [|exact Hr]. split; [exact M|].
            split; [|exact O]. rewrite B, Hbl. lia. }
      destruct N as (depth' & I & R).
      destruct (IH depth' st1 I R) as (st' & out & E' & S' & F & O').
      exists st', out. cbn [map scan row_line row_items].
      rewrite E. cbn [bind]. split; [exact E'|]. split; [congruence|].
      split; assumption.
Qed.

Lemma rows_no_linebreak (rows : list row) : forall depth,
  rows_ok depth rows = true -> forallb no_linebreak (map row_line rows) = true.
Proof.
  induction rows as [|r rows IH]; intros depth H; [reflexivity|].
  destruct r as [it | line]; cbn [rows_ok] in H; cbn [map forallb row_line].
  - apply andb_true_iff in H. destruct H as [H Hr].
    apply andb_true_iff in H. destruct H as [Hit Ht].
    rewrite (item_line_no_linebreak it Hit Ht). exact (IH depth Hr).
  - apply andb_true_iff in H. destruct H as [H Hr].
    apply andb_true_iff in H. destruct H as [_ ->]. cbn [andb].
    destruct (str_eqb (normalize line) (u "BEGIN")); [exact (IH _ Hr)|].
    destruct (str_eqb (normalize line) (u "END")); [|exact (IH _ Hr)].
    destruct depth; [discriminate Hr | exact (IH _ Hr)].
Qed.

Lemma is_ident_parts (name : str) :
  is_ident name = true ->
  exists x w', name = x :: w' /\ is_ident_char x = true
               /\ forallb is_ident_char w' = true.
Proof.
  unfold is_ident. intros H. apply andb_true_iff in H. destruct H as [Hn H].
  destruct name as [|x w']; [discriminate Hn|]. exists x, w'.
  cbn [forallb] in H. apply andb_true_iff in H. destruct H as [Hx H].
  repeat split; assumption.
Qed.

Lemma normalize_menu_header (name : str) :
  is_ident name = true -> normalize (name ++ u " MENU") = name ++ u " MENU".
Proof.
  intros H. destruct (is_ident_parts name H) as (x & w' & -> & Hx & Hw).
  assert (Hn : forallb is_ident_char (x :: w') = true)
    by (cbn [forallb]; rewrite Hx, Hw; reflexivity).
  destruct (ident_facts unicode_alnum _ Hn) as (D & _ & Sl & T).
  rewrite normalize_cut_collapse
    by (rewrite forallb_app, D; reflexivity).
  replace (strip ((x :: w') ++ u " MENU")) with ((x :: w') ++ u " MENU").
  2:{ pose proof (strip_keep x (w' ++ u " MEN") 85
                    (proj1 (proj2 (proj2 (ident_char_facts unicode_alnum x Hx))))
                    eq_refl) as K.
      rewrite <- app_assoc in K. symmetry. exact K. }
  unfold collapse. rewrite collapse_go_keep by exact T.
  rewrite cut_comment_keep by exact Sl. reflexivity.
Qed.

Lemma track_menu_set (norm : str) (st : locals) :
  endswith norm (u " MENU") = true -> str_eqb norm (u "END") = false ->
  menu (track unicode_alnum norm st) = true.
Proof.
  intros Hm He. unfold track. rewrite Hm, He.
  destruct (re_match (dialog_re unicode_alnum) norm);
    destruct (str_eqb norm (u "STRINGTABLE"));
    destruct (str_eqb norm (u "BEGIN")); reflexivity.
Qed.

(** The first line of a menu: [menu] is set and nothing else happens. *)
Lemma loop_body_menu_header (st : locals) (name : str) :
  block_level st = 0%Z -> truthy (orig_str st) = false ->
  is_ident name = true ->
  exists st',
    loop_body unicode_alnum st (name ++ u " MENU") = Ok st'
    /\ strings st' = strings st
    /\ truthy (orig_str st') = false
    /\ block_level st' = 0%Z
    /\ menu st' = true.
Proof.
  intros Hbl Ho H.
  destruct (is_ident_parts name H) as (x & w' & En & Hx & Hw).
  assert (Hn : forallb is_ident_char name = true)
    by (rewrite En; cbn [forallb]; rewrite Hx, Hw; reflexivity).
  destruct (ident_facts unicode_alnum _ Hn) as (_ & Q & _).
  destruct (loop_body_pending unicode_alnum st (name ++ u " MENU"))
    as (st' & E & Ho' & Hs & _).
  destruct (loop_body_total unicode_alnum st (name ++ u " MENU"))
    as (st2 & E2 & Hm & _ & _ & Hb & _).
  rewrite E in E2. injection E2 as <-.
  exists st'. split; [exact E|]. split.
  { apply Hs; [exact Ho|]. rewrite has_dq_app, Q. reflexivity. }
  split; [exact Ho'|].
  rewrite normalize_menu_header in Hm, Hb by exact H.
  assert (N1 : str_eqb (name ++ u " MENU") (u "BEGIN") = false)
    by exact (str_eqb_blank name (u "MENU") (u "BEGIN") eq_refl).
  assert (N2 : str_eqb (name ++ u " MENU") (u "END") = false)
    by exact (str_eqb_blank name (u "MENU") (u "END") eq_refl).
  split.
  - rewrite Hb, track_block_level, N1, N2, Hbl. reflexivity.
  - rewrite Hm. apply track_menu_set; [|exact N2].
    unfold endswith. rewrite rev_app_distr. reflexivity.
Qed.

(** The lines of a menu: nothing is left pending at the end of the
    block, whatever the level is then. *)
Lemma scan_menu (name : str) (rows : list row) :
  is_ident name = true -> rows_ok 0 rows = true ->
  exists st' out,
    scan unicode_alnum init
      ([name ++ u " MENU"; u "BEGIN"] ++ map row_line rows ++ [u "END"])
    = Ok st'
    /\ strings st' = out
    /\ Forall2 stands_for (row_items rows) out.
Proof.
  intros Hn Hr.
  destruct (loop_body_menu_header init name eq_refl eq_refl Hn)
    as (st1 & E1 & S1 & O1 & B1 & M1).
  destruct (loop_body_plain st1 (u "BEGIN")) as (st2 & E2 & S2 & O2 & B2 & M2);
    [rewrite M1; reflexivity | exact O1 | reflexivity | discriminate |].
  replace (normalize (u "BEGIN")) with (u "BEGIN") in B2
    by (vm_compute; reflexivity).
  change (str_eqb (u "BEGIN") (u "BEGIN")) with true in B2.
  change (str_eqb (u "BEGIN") (u "END")) with false in B2.
  cbv iota in B2.
  destruct (scan_rows rows 0 st2) as (st3 & out & E3 & S3 & F & O3);
    [split; [exact M2|]; split; [rewrite B2, B1; reflexivity | exact O2]
    | exact Hr |].
  destruct (loop_body_pending unicode_alnum st3 (u "END"))
    as (st4 & E4 & _ & S4 & _).
  exists st4, out.
  change ([name ++ u " MENU"; u "BEGIN"] ++ map row_line rows ++ [u "END"])
    with ((name ++ u " MENU") :: u "BEGIN" :: (map row_line rows ++ [u "END"])).
  cbn [scan]. rewrite E1. cbn [bind]. rewrite E2. cbn [bind].
  rewrite scan_app, E3. cbn [bind scan]. rewrite E4. cbn [bind].
  split; [reflexivity|]. split; [|exact F].
  rewrite (S4 O3 eq_refl), S3, S2, S1. reflexivity.
Qed.

(** X9: for a menu whose lines are a name followed by [MENU], [BEGIN],
    rows and [END], where a row is an item or a line without a double
    quote, and the blocks that the rows open inside the menu are not
    closed more often than opened, the extractor returns what the
    literals of the items stand for, in the order of the items. *)
Theorem X9_menu_block (name : str) (rows : list row) :
  is_ident name = true -> rows_ok 0 rows = true ->
  exists out,
    parse_rc_file unicode_alnum (menu_text name rows) = Ok out
    /\ Forall2 stands_for (row_items rows) out.
Proof.
  intros Hn Hr. unfold parse_rc_file, menu_text.
  rewrite splitlines_join.
  - destruct (scan_menu name rows Hn Hr) as (st' & out & -> & S & F).
    exists out. cbn [bind]. rewrite S. split; [reflexivity | exact F].
  - cbn [app forallb]. rewrite forallb_app, (rows_no_linebreak rows 0 Hr).
    rewrite no_linebreak_app.
    destruct (is_ident_parts name Hn) as (x & w' & En & Hx & Hw).
    rewrite ident_no_linebreak
      by (rewrite En; cbn [forallb]; rewrite Hx, Hw; reflexivity).
    reflexivity.
  - change ([name ++ u " MENU"; u "BEGIN"] ++ map row_line rows ++ [u "END"])
      with (([name ++ u " MENU"; u "BEGIN"] ++ map row_line rows) ++ [u "END"]).
    rewrite last_last. discriminate.
Qed.

End Rows.

(** ** Dialogs *)

Lemma skip_tabsp_split (line : str) :
  exists ind, line = ind ++ skip_tabsp line /\ forallb is_tabsp ind = true
    /\ match skip_tabsp line with y :: _ => is_tabsp y = false | [] => True end.
Proof.
  induction line as [|x line (ind & E & Hi & Hh)].
  - exists []. repeat split.
  - cbn [skip_tabsp]. destruct (is_tabsp x) eqn:T.
    + exists (x :: ind). cbn [app forallb]. rewrite T, Hi, <- E.
      repeat split. exact Hh.
    + exists []. repeat split. exact T.
Qed.

Lemma text_none (w : str) : forall (s : str) i c (k : cont),
  startswith s w = false -> exec (cat (map lit w)) i s c k = None.
Proof.
  induction w as [|a w IH]; intros s i c k H; [discriminate H|].
  cbn [map cat fold_right]. unfold lit at 1. cbn [exec].
  destruct s as [|x s]; [reflexivity|]. cbn [startswith] in H.
  rewrite N.eqb_sym. destruct (x =? a); [|reflexivity].
  cbn [andb] in H. exact (IH s (S i) c _ H).
Qed.

(** [caption_re] matches no line that does not begin with [CAPTION]
    after its tabs and blanks. *)
Lemma caption_no_match (line : str) :
  startswith (skip_tabsp line) (u "CAPTION") = false ->
  re_match caption_re line = None.
Proof.
  intros H. destruct (skip_tabsp_split line) as (ind & E & Hi & Hh).
  rewrite E. unfold re_match, match_at, caption_re.
  cbn [cat fold_right]. rewrite seq_bol. cbn [exec]. unfold tabsp.
  rewrite star_chr_none; [reflexivity | exact Hi | exact Hh |].
  intros j _. cbn [exec]. unfold text.
  apply text_none.
  destruct (skipn_cases j ind) as [-> | (y & r & -> & Hy)]; [exact H|].
  rewrite forallb_forall in Hi. specialize (Hi y Hy).
  cbn [app]. change (u "CAPTION") with (67 :: u "APTION"). cbn [startswith].
  unfold is_tabsp, TAB, SP in Hi. apply orb_true_iff in Hi.
  destruct Hi as [Hi | Hi]; apply N.eqb_eq in Hi; subst y; reflexivity.
Qed.

Lemma emit_idle (st : locals) : truthy (orig_str st) = false -> emit st = Ok st.
Proof.
  unfold emit. destruct (orig_str st) as [o|]; [|reflexivity].
  intros ->. reflexivity.
Qed.

Section Dialogs.

Variable unicode_alnum : char -> bool.

Lemma track_dialog_kept (norm : str) (st : locals) :
  dialog st = true -> str_eqb norm (u "END") = false ->
  dialog (track unicode_alnum norm st) = true.
Proof.
  intros Hd He. unfold track. rewrite He.
  destruct (endswith norm (u " MENU"));
    destruct (re_match (dialog_re unicode_alnum) norm);
    destruct (str_eqb norm (u "STRINGTABLE"));
    destruct (str_eqb norm (u "BEGIN")); cbn;
    first [reflexivity | exact Hd].
Qed.

Lemma track_dialog_set (norm : str) (st : locals) (m : rmatch) :
  re_match (dialog_re unicode_alnum) norm = Some m ->
  str_eqb norm (u "END") = false ->
  dialog (track unicode_alnum norm st) = true.
Proof.
  intros Hm He. unfold track. rewrite He, Hm.
  destruct (endswith norm (u " MENU"));
    destruct (str_eqb norm (u "STRINGTABLE"));
    destruct (str_eqb norm (u "BEGIN")); reflexivity.
Qed.

(** In a dialog before its block, a line that does not begin with
    [CAPTION] adds no string. *)
Lemma loop_body_head_other (st : locals) (line : str) :
  in_head st -> other_ok line = true ->
  exists st',
    loop_body unicode_alnum st line = Ok st'
    /\ strings st' = strings st /\ in_head st'.
Proof.
  intros (Hd & Hbl & Ho) H. unfold other_ok in H.
  apply andb_true_iff in H. destruct H as [H He].
  apply andb_true_iff in H. destruct H as [Hc Hb].
  apply negb_true_iff in Hc, Hb, He.
  unfold loop_body.
  set (st1 := track unicode_alnum (normalize line) st).
  assert (D1 : dialog st1 = true) by (apply track_dialog_kept; assumption).
  assert (B1 : block_level st1 = 0%Z).
  { unfold st1. rewrite track_block_level, Hb, He, Hbl. reflexivity. }
  assert (O1 : truthy (orig_str st1) = false).
  { unfold st1. rewrite track_orig_str. exact Ho. }
  unfold dispatch. rewrite D1, B1. cbn [Z.eqb andb].
  rewrite caption_no_match by exact Hc.
  rewrite emit_idle by exact O1.
  exists st1. split; [reflexivity|]. split; [apply track_strings|].
  repeat split; assumption.
Qed.

Lemma match_dialog (name : str) (ex : bool) (rest : str) :
  is_ident name = true ->
  exists m, re_match (dialog_re unicode_alnum)
              (name ++ SP :: keyword ex ++ SP :: rest) = Some m.
Proof.
  intros H. destruct (is_ident_parts name H) as (x & w' & -> & Hx & Hw).
  destruct (ident_char_facts unicode_alnum x Hx) as (Wx & _).
  assert (Ww : forallb (is_word unicode_alnum) w' = true).
  { rewrite forallb_forall in *. intros z Hz.
    apply (ident_char_facts unicode_alnum z (Hw z Hz)). }
  assert (E : exists v,
             exec (dialog_re unicode_alnum) 0
               ((x :: w') ++ SP :: keyword ex ++ SP :: rest) [] accept = Some v).
  { destruct ex; eexists; unfold dialog_re; cbn [cat fold_right];
      rewrite seq_bol;
      (apply (seq_grp_plus (is_word unicode_alnum) 1 _ x w');
       [exact Wx | exact Ww | reflexivity |]); reflexivity. }
  destruct E as ([j c] & E). unfold re_match, match_at. rewrite E.
  eexists. reflexivity.
Qed.

Lemma more_ok_parts (more : str) :
  more_ok more = true ->
  (exists g more', more = g :: more' /\ is_space g = false)
  /\ has_dq more = false /\ no_linebreak more = true.
Proof.
  unfold more_ok. intros H. apply andb_true_iff in H. destruct H as [H Hn].
  apply andb_true_iff in H. destruct H as [Hg Hq].
  apply negb_true_iff in Hq. repeat split; try assumption.
  destruct more as [|g more']; [discriminate Hg|].
  apply negb_true_iff in Hg. exists g, more'. split; [reflexivity | exact Hg].
Qed.

Lemma space_tabsp (x : char) : is_space x = false -> is_tabsp x = false.
Proof.
  intros H. unfold is_tabsp, TAB, SP.
  destruct (N.eqb_spec x 9) as [->|]; [discriminate H|].
  destruct (N.eqb_spec x 32) as [->|]; [discriminate H | reflexivity].
Qed.

Lemma normalize_dialog_header (name : str) (ex : bool) (more : str) :
  is_ident name = true -> more_ok more = true ->
  exists rest, normalize (dialog_header name ex more)
               = name ++ SP :: keyword ex ++ SP :: rest.
Proof.
  intros H Hm. destruct (is_ident_parts name H) as (x & w' & En & Hx & Hw).
  destruct (more_ok_parts more Hm) as ((g & more' & Em & Hg) & Hq & Hl).
  assert (Hn : forallb is_ident_char name = true)
    by (rewrite En; cbn [forallb]; rewrite Hx, Hw; reflexivity).
  destruct (ident_facts unicode_alnum _ Hn) as (D & _ & Sl & T).
  unfold dialog_header.
  rewrite normalize_cut_collapse.
  2:{ rewrite forallb_app, D. cbn [forallb].
      change (is_dot SP) with true. cbn [andb]. rewrite forallb_app.
      cbn [forallb]. rewrite (forallb_no_linebreak_dot _ Hl).
      destruct ex; reflexivity. }
  assert (S : exists c', strip (name ++ SP :: keyword ex ++ SP :: more)
                         = name ++ SP :: keyword ex ++ SP :: g :: c').
  { rewrite En, Em.
    destruct (strip_prefix x (w' ++ SP :: keyword ex ++ [SP]) g more'
                (proj1 (proj2 (proj2 (ident_char_facts unicode_alnum x Hx)))) Hg)
      as [c' E].
    exists c'.
    replace ((x :: w') ++ SP :: keyword ex ++ SP :: g :: more')
      with ((x :: (w' ++ SP :: keyword ex ++ [SP]) ++ [g]) ++ more').
    2:{ cbn [app]. repeat (rewrite <- app_assoc; cbn [app]). reflexivity. }
    rewrite E. cbn [app]. repeat (rewrite <- app_assoc; cbn [app]).
    reflexivity. }
  destruct S as [c' ->]. unfold collapse.
  rewrite collapse_go_keep by exact T.
  rewrite cut_comment_keep by exact Sl.
  pose proof (space_tabsp g Hg) as Tg.
  exists (cut_comment (g :: collapse_go false c')).
  f_equal.
  destruct ex; cbn [keyword u list_ascii_of_string map N_of_ascii app];
    cbn; rewrite Tg; reflexivity.
Qed.

(** The first line of a dialog: [dialog] is set and nothing else
    happens. *)
Lemma loop_body_dialog_header (st : locals) (name : str) (ex : bool) (more : str) :
  block_level st = 0%Z -> truthy (orig_str st) = false ->
  is_ident name = true -> more_ok more = true ->
  exists st',
    loop_body unicode_alnum st (dialog_header name ex more) = Ok st'
    /\ strings st' = strings st /\ in_head st'.
Proof.
  intros Hbl Ho H Hm.
  destruct (is_ident_parts name H) as (x & w' & En & Hx & Hw).
  assert (Hn : forallb is_ident_char name = true)
    by (rewrite En; cbn [forallb]; rewrite Hx, Hw; reflexivity).
  destruct (ident_facts unicode_alnum _ Hn) as (_ & Q & _).
  destruct (more_ok_parts more Hm) as (_ & Qm & _).
  destruct (loop_body_pending unicode_alnum st (dialog_header name ex more))
    as (st' & E & Ho' & Hs & _).
  destruct (loop_body_total unicode_alnum st (dialog_header name ex more))
    as (st2 & E2 & _ & Hd & _ & Hb & _).
  rewrite E in E2. injection E2 as <-.
  exists st'. split; [exact E|]. split.
  { apply Hs; [exact Ho|]. unfold dialog_header.
    rewrite has_dq_app, Q. cbn [orb].
    replace (SP :: keyword ex ++ SP :: more)
      with ((SP :: keyword ex ++ [SP]) ++ more)
      by (cbn [app]; rewrite <- app_assoc; reflexivity).
    rewrite has_dq_app, Qm. destruct ex; reflexivity. }
  destruct (normalize_dialog_header name ex more H Hm) as (rest & N).
  rewrite N in Hd, Hb.
  assert (N1 : str_eqb (name ++ SP :: keyword ex ++ SP :: rest) (u "BEGIN") = false)
    by exact (str_eqb_blank name _ (u "BEGIN") eq_refl).
  assert (N2 : str_eqb (name ++ SP :: keyword ex ++ SP :: rest) (u "END") = false)
    by exact (str_eqb_blank name _ (u "END") eq_refl).
  destruct (match_dialog name ex rest H) as (m & M).
  split; [|split].
  - rewrite Hd. exact (track_dialog_set _ st m M N2).
  - rewrite Hb, track_block_level, N1, N2, Hbl. reflexivity.
  - exact Ho'.
Qed.

Lemma scan_heads (heads : list head) : forall (st : locals),
  in_head st -> forallb head_ok heads = true ->
  exists st' out,
    scan unicode_alnum st (map head_line heads) = Ok st'
    /\ strings st' = strings st ++ out
    /\ Forall2 stands_for (head_items heads) out
    /\ in_head st'.
Proof.
  induction heads as [|h heads IH]; intros st I H.
  - exists st, []. cbn [map scan head_items]. rewrite app_nil_r.
    repeat split; [constructor | apply I..].
  - cbn [forallb] in H. apply andb_true_iff in H. destruct H as [Hh Hr].
    destruct h as [it | line]; cbn [head_ok] in Hh.
    + apply andb_true_iff in Hh. destruct Hh as [Hh _].
      apply andb_true_iff in Hh. destruct Hh as [Hit Hw].
      apply str_eqb_eq in Hw. destruct I as (Hd & Hbl & Ho).
      destruct (loop_body_caption unicode_alnum st it Hd Hbl Hit Hw)
        as (st1 & s & E & D & S & B & M & O).
      destruct (IH st1) as (st' & out & E' & S' & F & I');
        [repeat split; [exact M | exact B | rewrite O; reflexivity] | exact Hr |].
      exists st', (s :: out). cbn [map scan head_line head_items].
      rewrite E. cbn [bind]. split; [exact E'|]. split.
      * rewrite S', S, <- app_assoc. reflexivity.
      * split; [constructor; [exact D | exact F] | exact I'].
    + apply andb_true_iff in Hh. destruct Hh as [Hh _].
      destruct (loop_body_head_other st line I Hh) as (st1 & E & S & I1).
      destruct (IH st1 I1 Hr) as (st' & out & E' & S' & F & I').
      exists st', out. cbn [map scan head_line head_items].
      rewrite E. cbn [bind]. split; [exact E'|]. split; [congruence|].
      split; assumption.
Qed.

Lemma heads_no_linebreak (heads : list head) :
  forallb head_ok heads = true ->
  forallb no_linebreak (map head_line heads) = true.
Proof.
  induction heads as [|h heads IH]; intros H; [reflexivity|].
  cbn [forallb] in H. apply andb_true_iff in H. destruct H as [Hh Hr].
  cbn [map forallb]. rewrite (IH Hr), andb_true_r.
  destruct h as [it | line]; cbn [head_ok head_line] in *.
  - apply andb_true_iff in Hh. destruct Hh as [Hh Ht].
    apply andb_true_iff in Hh. destruct Hh as [Hit _].
    exact (item_line_no_linebreak it Hit Ht).
  - apply andb_true_iff in Hh. apply Hh.
Qed.

Lemma scan_dialog (name : str) (ex : bool) (more : str)
    (heads : list head) (rows : list row) :
  is_ident name = true -> more_ok more = true ->
  forallb head_ok heads = true -> rows_ok 0 rows = true ->
  exists st' out,
    scan unicode_alnum init
      ([dialog_header name ex more] ++ map head_line heads
       ++ [u "BEGIN"] ++ map row_line rows ++ [u "END"])
    = Ok st'
    /\ strings st' = out
    /\ Forall2 stands_for (head_items heads ++ row_items rows) out.
Proof.
  intros Hn Hm Hh Hr.
  destruct (loop_body_dialog_header init name ex more eq_refl eq_refl Hn Hm)
    as (st1 & E1 & S1 & I1).
  destruct (scan_heads heads st1 I1 Hh) as (st2 & out1 & E2 & S2 & F1 & D2 & B2 & O2).
  destruct (loop_body_plain unicode_alnum st2 (u "BEGIN"))
    as (st3 & E3 & S3 & O3 & B3 & M3);
    [rewrite D2; apply orb_true_r | exact O2 | reflexivity | discriminate |].
  replace (normalize (u "BEGIN")) with (u "BEGIN") in B3
    by (vm_compute; reflexivity).
  change (str_eqb (u "BEGIN") (u "BEGIN")) with true in B3.
  change (str_eqb (u "BEGIN") (u "END")) with false in B3.
  cbv iota in B3.
  destruct (scan_rows unicode_alnum rows 0 st3) as (st4 & out2 & E4 & S4 & F2 & O4);
    [split; [exact M3|]; split; [rewrite B3, B2; reflexivity | exact O3]
    | exact Hr |].
  destruct (loop_body_pending unicode_alnum st4 (u "END"))
    as (st5 & E5 & _ & S5 & _).
  exists st5, (out1 ++ out2).
  cbn [app scan]. rewrite E1. cbn [bind].
  rewrite scan_app, E2. cbn [bind app scan]. rewrite E3. cbn [bind].
  rewrite scan_app, E4. cbn [bind scan]. rewrite E5. cbn [bind].
  split; [reflexivity|]. split; [|apply Forall2_app; assumption].
  rewrite (S5 O4 eq_refl), S4, S3, S2, S1. reflexivity.
Qed.

(** X10: in a dialog before its block, a line that does not begin with
    [CAPTION] after its tabs and blanks, and whose normal form is neither
    [BEGIN] nor [END], adds no string, with or without a literal on it;
    the dialog stays open at level 0. *)
Theorem X10_dialog_statement (st : locals) (line : str) :
  dialog st = true -> block_level st = 0%Z -> truthy (orig_str st) = false ->
  other_ok line = true ->
  exists st',
    loop_body unicode_alnum st line = Ok st'
    /\ strings st' = strings st
    /\ dialog st' = true /\ block_level st' = 0%Z.
Proof.
  intros Hd Hbl Ho H.
  destruct (loop_body_head_other st line (conj Hd (conj Hbl Ho)) H)
    as (st' & E & S & D & B & _).
  exists st'. repeat split; assumption.
Qed.

(** X11: for a dialog whose lines are a name, [DIALOG] or [DIALOGEX] and
    the rest of the first line, then lines before the block, [BEGIN],
    rows and [END], the extractor returns what the literals of the
    [CAPTION] lines and of the items stand for, in their order; no other
    line before the block gives a string. *)
Theorem X11_dialog_block (name : str) (ex : bool) (more : str)
    (heads : list head) (rows : list row) :
  is_ident name = true -> more_ok more = true ->
  forallb head_ok heads = true -> rows_ok 0 rows = true ->
  exists out,
    parse_rc_file unicode_alnum (dialog_text name ex more heads rows) = Ok out
    /\ Forall2 stands_for (head_items heads ++ row_items rows) out.
Proof.
  intros Hn Hm Hh Hr. unfold parse_rc_file, dialog_text.
  rewrite splitlines_join.
  - destruct (scan_dialog name ex more heads rows Hn Hm Hh Hr)
      as (st' & out & -> & S & F).
    exists out. cbn [bind]. rewrite S. split; [reflexivity | exact F].
  - cbn [app forallb]. rewrite forallb_app, (heads_no_linebreak heads Hh).
    cbn [app forallb andb].
    rewrite forallb_app, (rows_no_linebreak rows 0 Hr).
    unfold dialog_header. rewrite no_linebreak_app.
    destruct (is_ident_parts name Hn) as (x & w' & En & Hx & Hw).
    rewrite ident_no_linebreak
      by (rewrite En; cbn [forallb]; rewrite Hx, Hw; reflexivity).
    destruct (more_ok_parts more Hm) as (_ & _ & Hl).
    replace (SP :: keyword ex ++ SP :: more)
      with ((SP :: keyword ex ++ [SP]) ++ more)
      by (cbn [app]; rewrite <- app_assoc; reflexivity).
    rewrite no_linebreak_app, Hl. destruct ex; reflexivity.
  - rewrite !app_assoc. rewrite last_last. discriminate.
Qed.

End Dialogs.

(** ** The last branch of the dispatch *)

Lemma star_chr_reach p (s : str) : forall n i c (k : cont) v,
  star_iter (exec (Chr p)) true n i s c k = Some v ->
  exists j, (j <= length s)%nat /\ k (i + j)%nat (skipn j s) c = Some v.
Proof.
  induction s as [|x s IH]; intros n i c k v H.
  - exists 0%nat. split; [lia|]. rewrite Nat.add_0_r.
    destruct n; [exact H|]. cbn [star_iter exec] in H. exact H.
  - destruct n as [|n].
    + exists 0%nat. split; [cbn; lia|]. rewrite Nat.add_0_r. exact H.
    + cbn [star_iter exec] in H. destruct (p x).
      * rewrite ltb_succ in H. cbv iota in H.
        change (star_iter _ true n (S i) s c k)
          with (star_iter (exec (Chr p)) true n (S i) s c k) in H.
        destruct (star_iter (exec (Chr p)) true n (S i) s c k) as [m|] eqn:E.
        -- injection H as <-. destruct (IH n (S i) c k m E) as (j & Hj & Hk).
           exists (S j). split; [cbn; lia|].
           replace (i + S j)%nat with (S i + j)%nat by lia. exact Hk.
        -- exists 0%nat. split; [cbn; lia|]. rewrite Nat.add_0_r. exact H.
      * exists 0%nat. split; [cbn; lia|]. rewrite Nat.add_0_r. exact H.
Qed.

Lemma search_from_none r (s : str) : forall i j,
  search_from r i s = None -> (j <= length s)%nat ->
  match_at r (i + j) (skipn j s) = None.
Proof.
  induction s as [|x s IH]; intros i j H Hj.
  - cbn in Hj. replace j with 0%nat by lia. rewrite Nat.add_0_r.
    cbn [skipn]. cbn [search_from] in H.
    destruct (match_at r i []); [discriminate H | reflexivity].
  - cbn [search_from] in H.
    destruct (match_at r i (x :: s)) eqn:E; [discriminate H|].
    destruct j as [|j].
    + rewrite Nat.add_0_r. exact E.
    + cbn [skipn]. replace (i + S j)%nat with (S i + j)%nat by lia.
      apply IH; [exact H | cbn in Hj; lia].
Qed.

(** The third pattern of the last branch matches no line on which the
    first one finds nothing. *)
Lemma leading_needs_quoted (line : str) :
  re_search quoted_re line = None -> re_match leading_quoted_re line = None.
Proof.
  intros H. unfold re_match, match_at.
  destruct (exec leading_quoted_re 0 line [] accept) as [[e c]|] eqn:X;
    [exfalso | reflexivity].
  unfold leading_quoted_re in X. cbn [cat fold_right] in X.
  rewrite seq_bol in X. cbn [exec] in X. unfold tabsp in X.
  apply star_chr_reach in X. destruct X as (j & Hj & X).
  pose proof (search_from_none quoted_re line 0 j H Hj) as N.
  unfold match_at, quoted_re in N. cbn [cat fold_right exec] in N.
  cbn [plus Nat.add] in X, N.
  unfold accept in *. rewrite X in N. discriminate N.
Qed.

Lemma last_branch_parts (st : locals) :
  last_branch st = true ->
  (dialog st && (block_level st =? 0)%Z) = false
  /\ ((menu st || dialog st) && negb (block_level st =? 0)%Z) = false.
Proof.
  unfold last_branch. intros H. apply andb_true_iff in H.
  destruct H as [H1 H2]. apply negb_true_iff in H1, H2. split; assumption.
Qed.

Section LastBranch.

Variable unicode_alnum : char -> bool.

(** X12: when neither the branch of the dialog caption nor the branch of
    the menu and dialog items applies, [orig_str] becomes the leftmost
    match of the pattern for a literal anywhere on the line, and stays
    as it is when there is none: the third pattern of the branch, the one
    that reads [id_str], never matches where it is tried. *)
Theorem X12_last_branch (line : str) (st : locals) :
  last_branch st = true ->
  (re_search quoted_re line = None -> re_match leading_quoted_re line = None)
  /\ orig_str (dispatch unicode_alnum line st)
     = match re_search quoted_re line with
       | Some m => Some (m_text m)
       | None => orig_str st
       end.
Proof.
  intros H. destruct (last_branch_parts st H) as (H1 & H2).
  split; [apply leading_needs_quoted|].
  unfold dispatch. rewrite H1, H2.
  destruct (re_search quoted_re line) as [m|] eqn:E; [reflexivity|].
  rewrite (leading_needs_quoted line E).
  destruct (re_match (ident_re unicode_alnum) line); reflexivity.
Qed.

End LastBranch.

(** ** From the first to the last double quote *)

Lemma star_dot_span (body post : str) : forall n i c (k : cont),
  forallb is_dot body = true -> forallb is_dot post = true ->
  (length body + length post < n)%nat ->
  (forall j, (j <= length post)%nat ->
     k (S (i + length body) + j)%nat (skipn j post) c = None) ->
  k (i + length body)%nat (DQ :: post) c <> None ->
  star_iter (exec dot) true n i (body ++ DQ :: post) c k
  = k (i + length body)%nat (DQ :: post) c.
Proof.
  induction body as [|x body IH]; intros n i c k Hb Hp Hn Hfail Hk.
  - cbn [length app] in *. rewrite Nat.add_0_r in *.
    destruct n as [|n]; [lia|].
    cbn [star_iter]. unfold dot at 1. cbn [exec].
    change (is_dot DQ) with true. cbv iota. rewrite ltb_succ.
    assert (E : star_iter (exec dot) true n (S i) post c k = None).
    { pose proof (star_chr_none is_dot post [] n (S i) c k Hp I) as E.
      rewrite app_nil_r in E. apply E.
      intros j Hj. rewrite app_nil_r. exact (Hfail j Hj). }
    rewrite E. reflexivity.
  - cbn [forallb] in Hb. apply andb_true_iff in Hb. destruct Hb as [Hx Hb].
    cbn [length] in Hn. destruct n as [|n]; [lia|].
    cbn [star_iter app]. unfold dot at 1. cbn [exec]. rewrite Hx, ltb_succ.
    cbn [length] in *. rewrite <- !Nat.add_succ_comm in *.
    rewrite IH; try assumption; try lia.
    destruct (k (S i + length body)%nat (DQ :: post) c);
      [reflexivity | congruence].
Qed.

Lemma dq_fails_after (post : str) (j : nat) :
  has_dq post = false ->
  match skipn j post with
  | y :: _ => (DQ =? y) = false
  | [] => True
  end.
Proof.
  intros H. destruct (skipn_cases j post) as [-> | (y & r & -> & Hy)]; [exact I|].
  unfold has_dq in H.
  destruct (DQ =? y) eqn:E; [|reflexivity].
  assert (X : existsb (N.eqb DQ) post = true)
    by (apply existsb_exists; exists y; split; assumption).
  rewrite H in X. discriminate X.
Qed.

Lemma exec_dq_none (y : char) (r : str) i c (k : cont) :
  (DQ =? y) = false -> exec (Seq dq Eps) i (y :: r) c k = None.
Proof. intros H. unfold dq, lit. cbn [exec]. rewrite H. reflexivity. Qed.

(** The pattern for a literal takes the text from a double quote, or from
    the [L] before it, to the last double quote of the line. *)
Lemma exec_quoted_span (wide : bool) (body post : str) (i : nat) :
  forallb is_dot body = true -> forallb is_dot post = true ->
  has_dq post = false ->
  exists c, exec quoted_re i (literal wide body ++ post) [] accept
            = Some ((i + length (literal wide body))%nat, c).
Proof.
  intros Hb Hp Hq. rewrite literal_app, length_literal. unfold quoted_re.
  destruct wide; cbn [exec cat fold_right opt lit dq app N.eqb Pos.eqb DQ].
  - rewrite star_dot_span; try assumption.
    + cbn [exec lit N.eqb Pos.eqb DQ]. unfold accept. eexists.
      f_equal. f_equal. lia.
    + rewrite length_app. cbn [length]. lia.
    + intros j Hj. pose proof (dq_fails_after post j Hq) as F.
      destruct (skipn j post) as [|y r]; [reflexivity|].
      exact (exec_dq_none _ _ _ _ _ F).
    + cbn [exec lit N.eqb Pos.eqb DQ]. discriminate.
  - rewrite star_dot_span; try assumption.
    + cbn [exec lit N.eqb Pos.eqb DQ]. unfold accept. eexists.
      f_equal. f_equal. lia.
    + rewrite length_app. cbn [length]. lia.
    + intros j Hj. pose proof (dq_fails_after post j Hq) as F.
      destruct (skipn j post) as [|y r]; [reflexivity|].
      exact (exec_dq_none _ _ _ _ _ F).
    + cbn [exec lit N.eqb Pos.eqb DQ]. discriminate.
Qed.

Lemma match_quoted_span (wide : bool) (body post : str) (i : nat) :
  forallb is_dot body = true -> forallb is_dot post = true ->
  has_dq post = false ->
  exists m, match_at quoted_re i (literal wide body ++ post) = Some m
            /\ group 0 m = Some (literal wide body).
Proof.
  intros Hb Hp Hq. unfold match_at.
  destruct (exec_quoted_span wide body post i Hb Hp Hq) as [c ->].
  eexists. split; [reflexivity|]. cbn [group m_text].
  rewrite Nat.add_comm, Nat.add_sub, firstn_length_app. reflexivity.
Qed.

Lemma search_quoted_span (pre : str) (wide : bool) (body post : str) : forall i,
  has_dq pre = false -> last pre 0 <> 76 ->
  forallb is_dot body = true -> forallb is_dot post = true ->
  has_dq post = false ->
  exists m, search_from quoted_re i (pre ++ literal wide body ++ post) = Some m
            /\ group 0 m = Some (literal wide body).
Proof.
  induction pre as [|x pre IH]; intros i Hq Hl Hb Hp Hq'.
  - destruct (match_quoted_span wide body post i Hb Hp Hq') as (m & E & G).
    exists m. split; [apply search_from_hit, E | exact G].
  - unfold has_dq in Hq. cbn [existsb] in Hq. apply orb_false_iff in Hq.
    destruct Hq as [Hx Hq].
    cbn [app search_from]. rewrite match_quoted_none.
    + apply IH; try assumption.
      destruct pre; [cbn; discriminate | exact Hl].
    + exact Hx.
    + destruct pre as [|y pre]; cbn [app].
      * left. cbn [last] in Hl. apply N.eqb_neq. congruence.
      * right. unfold has_dq in Hq. cbn [existsb] in Hq.
        apply orb_false_iff in Hq. apply Hq.
Qed.

Lemma last_cons_default (x : char) (l : str) (d d' : char) :
  last (x :: l) d = last (x :: l) d'.
Proof.
  revert x. induction l as [|z l IH]; intros x; [reflexivity|].
  cbn [last] in *. exact (IH z).
Qed.

Lemma last_after (a : str) (y : char) (c : str) (d : char) :
  last (a ++ y :: c) d = last c y.
Proof.
  induction a as [|x a IH]; cbn [app].
  - destruct c as [|z c]; [reflexivity|].
    change (last (y :: z :: c) d) with (last (z :: c) d).
    apply last_cons_default.
  - cbn [last]. destruct (a ++ y :: c) eqn:E; [|exact IH].
    destruct a; discriminate E.
Qed.

Section Spans.

Variable unicode_alnum : char -> bool.

(** A line of the last branch with a double quote: one string, from the
    first double quote to the last one. *)
Lemma loop_body_span (st : locals) (pre : str) (wide : bool) (body post : str) :
  last_branch (track unicode_alnum
                 (normalize (pre ++ literal wide body ++ post)) st) = true ->
  has_dq pre = false -> last pre 0 <> 76 ->
  no_linebreak body = true ->
  has_dq post = false -> forallb is_dot post = true ->
  exists st' s,
    loop_body unicode_alnum st (pre ++ literal wide body ++ post) = Ok st'
    /\ decode (literal wide body) = Ok s
    /\ strings st' = strings st ++ [s].
Proof.
  intros Hl Hq Hlast Hb Hq' Hp. unfold loop_body.
  set (st1 := track unicode_alnum _ st) in *.
  destruct (last_branch_parts st1 Hl) as (H1 & H2).
  destruct (search_quoted_span pre wide body post 0 Hq Hlast
              (forallb_no_linebreak_dot _ Hb) Hp Hq') as (m & Em & Gm).
  unfold dispatch. rewrite H1, H2.
  change (search_from quoted_re 0) with (re_search quoted_re) in Em.
  rewrite Em, Gm.
  match goal with |- context [emit (set_pending ?i ?h _ ?s1)] =>
    destruct (emit_pending i h wide body s1) as (s & Es & Ee)
  end.
  eexists. exists s. split; [exact Ee|]. split; [exact Es|].
  cbn [strings append_string set_pending]. unfold st1.
  rewrite track_strings. reflexivity.
Qed.

(** X13: when the last branch runs for a line, the text from the first
    double quote of the line (with the [L] before it, when there is one)
    to the last double quote is taken as one literal: a line with several
    literals gives one string, with the quotes and the text in between
    inside it. *)
Theorem X13_first_to_last_quote (st : locals) (pre : str) (wide : bool)
    (body post : str) :
  last_branch (track unicode_alnum
                 (normalize (pre ++ literal wide body ++ post)) st) = true ->
  has_dq pre = false -> last pre 0 <> 76 ->
  no_linebreak body = true ->
  has_dq post = false -> forallb is_dot post = true ->
  exists st' s,
    loop_body unicode_alnum st (pre ++ literal wide body ++ post) = Ok st'
    /\ decode (literal wide body) = Ok s
    /\ (wide = false -> s = unescape body)
    /\ strings st' = strings st ++ [s].
Proof.
  intros Hl Hq Hlast Hb Hq' Hp.
  destruct (loop_body_span st pre wide body post Hl Hq Hlast Hb Hq' Hp)
    as (st' & s & E & D & S).
  exists st', s. repeat split; try assumption.
  intros ->. rewrite decode_literal in D by exact Hb. congruence.
Qed.

Lemma normalize_comment_line (ws rest : str) :
  forallb is_space ws = true -> forallb is_dot (ws ++ u "//" ++ rest) = true ->
  normalize (ws ++ u "//" ++ rest) = [].
Proof.
  intros Hw Hd. rewrite normalize_cut_collapse by exact Hd.
  destruct (strip_core ws 47 [] 47 rest Hw eq_refl eq_refl) as [c' E].
  assert (E' : strip (ws ++ u "//" ++ rest) = u "//" ++ c') by exact E.
  rewrite E'. reflexivity.
Qed.

(** X14: outside a menu and a dialog, a literal in a comment is
    extracted like any other: the patterns run on the line as it is, not
    on [norm_line]. *)
Theorem X14_literal_in_comment (st : locals) (ws c : str) (wide : bool)
    (body post : str) :
  menu st = false -> dialog st = false ->
  forallb is_tabsp ws = true ->
  has_dq c = false -> last c 47 <> 76 -> forallb is_dot c = true ->
  no_linebreak body = true ->
  has_dq post = false -> forallb is_dot post = true ->
  exists st' s,
    loop_body unicode_alnum st
      (ws ++ u "//" ++ c ++ literal wide body ++ post) = Ok st'
    /\ decode (literal wide body) = Ok s
    /\ strings st' = strings st ++ [s].
Proof.
  intros Hm Hd Hw Hq Hl Hc Hb Hq' Hp.
  destruct (tabsp_facts ws Hw) as (Dw & Qw & _).
  assert (L : ws ++ u "//" ++ c ++ literal wide body ++ post
              = (ws ++ u "//" ++ c) ++ literal wide body ++ post).
  { rewrite <- !app_assoc. reflexivity. }
  rewrite L.
  apply loop_body_span; try assumption.
  - rewrite <- L. rewrite normalize_comment_line.
    + unfold last_branch.
      change (track unicode_alnum [] st) with st.
      rewrite Hm, Hd. reflexivity.
    + exact (tabsp_space ws Hw).
    + rewrite !forallb_app, Dw, Hc, Hp. unfold literal, quoted.
      rewrite forallb_app. cbn [forallb]. rewrite forallb_app.
      rewrite (forallb_no_linebreak_dot _ Hb).
      destruct wide; reflexivity.
  - rewrite !has_dq_app, Qw, Hq. reflexivity.
  - change (ws ++ u "//" ++ c) with (ws ++ [47] ++ 47 :: c).
    rewrite app_assoc, last_after. exact Hl.
Qed.

End Spans.

(** ** Lines of a block that are no items *)

Lemma lstrip_all (ws : str) : forallb is_space ws = true -> lstrip ws = [].
Proof.
  induction ws as [|w ws IH]; [reflexivity|]. cbn [forallb lstrip].
  intros H. apply andb_true_iff in H. destruct H as [-> H]. exact (IH H).
Qed.

Lemma strip_head (ws : str) (x : char) (t : str) :
  forallb is_space ws = true -> is_space x = false ->
  exists t', strip (ws ++ x :: t) = x :: t'.
Proof.
  intros Hw Hx. unfold strip. rewrite lstrip_spaces by assumption.
  cbn [rev].
  destruct (lstrip_app_keep (rev t) x [] Hx) as [a' ->].
  exists (rev a'). rewrite rev_app_distr. reflexivity.
Qed.

Lemma str_eqb_head (x : char) (t : str) (y : char) (w : str) :
  (x =? y) = false -> str_eqb (x :: t) (y :: w) = false.
Proof. intros H. cbn [str_eqb]. rewrite H. reflexivity. Qed.

Section NoItems.

Variable unicode_alnum : char -> bool.

(** The normal form of such a line is empty, or begins with the same
    character as the line after its tabs and blanks. *)
Lemma normalize_not_item (line : str) :
  forallb is_dot line = true ->
  not_item_start (is_word unicode_alnum) line = true ->
  str_eqb (normalize line) (u "BEGIN") = false
  /\ str_eqb (normalize line) (u "END") = false.
Proof.
  intros Hd H. unfold not_item_start in H.
  destruct (skip_tabsp_split line) as (ind & E & Hi & _).
  rewrite normalize_cut_collapse by exact Hd.
  destruct (skip_tabsp line) as [|x t].
  - rewrite E, app_nil_r. unfold strip.
    rewrite (lstrip_all ind) by (apply tabsp_space; exact Hi).
    split; reflexivity.
  - apply andb_true_iff in H. destruct H as [Hs Hw].
    apply negb_true_iff in Hs, Hw.
    destruct (strip_head ind x t (tabsp_space ind Hi) Hs) as [t' S].
    rewrite E, S. unfold collapse. cbn [collapse_go].
    rewrite (space_tabsp x Hs).
    assert (B : (x =? 66) = false).
    { destruct (N.eqb_spec x 66) as [->|]; [discriminate Hw | reflexivity]. }
    assert (F : (x =? 69) = false).
    { destruct (N.eqb_spec x 69) as [->|]; [discriminate Hw | reflexivity]. }
    destruct (cut_comment (x :: collapse_go false t')) as [|y z] eqn:C;
      [split; reflexivity|].
    assert (y = x).
    { cbn [cut_comment] in C. destruct (collapse_go false t') as [|y' z'];
        [congruence|].
      destruct ((x =? 47) && (y' =? 47)); congruence. }
    subst y. split; apply str_eqb_head; assumption.
Qed.

Lemma item_no_match (line : str) :
  not_item_start (is_word unicode_alnum) line = true ->
  re_match (item_re unicode_alnum) line = None.
Proof.
  intros H. unfold not_item_start in H.
  destruct (skip_tabsp_split line) as (ind & E & Hi & Hh).
  rewrite E. unfold re_match, match_at, item_re.
  cbn [cat fold_right]. rewrite seq_bol. cbn [exec]. unfold tabsp.
  rewrite star_chr_none; [reflexivity | exact Hi | exact Hh |].
  intros j _. unfold plus, word. cbn [exec].
  destruct (skipn_cases j ind) as [-> | (y & r & -> & Hy)].
  - cbn [app]. destruct (skip_tabsp line) as [|x t]; [reflexivity|].
    apply andb_true_iff in H. destruct H as [_ Hw].
    apply negb_true_iff in Hw. rewrite Hw. reflexivity.
  - cbn [app]. rewrite forallb_forall in Hi. specialize (Hi y Hy).
    unfold is_tabsp, TAB, SP in Hi. apply orb_true_iff in Hi.
    destruct Hi as [Hi | Hi]; apply N.eqb_eq in Hi; subst y; reflexivity.
Qed.

(** X15: inside the block of a menu or a dialog, with no string pending,
    a line that is empty after its tabs and blanks, or goes on with a
    character that is neither white space nor a word character, adds no
    string, with or without a literal on it: a comment line, or a literal
    alone on its line.  The level and the kind of the block stay. *)
Theorem X15_not_an_item (st : locals) (line : str) :
  (menu st || dialog st) = true -> block_level st <> 0%Z ->
  truthy (orig_str st) = false ->
  forallb is_dot line = true ->
  not_item_start (is_word unicode_alnum) line = true ->
  exists st',
    loop_body unicode_alnum st line = Ok st'
    /\ strings st' = strings st
    /\ block_level st' = block_level st
    /\ (menu st' || dialog st') = true.
Proof.
  intros Hmd Hbl Ho Hd H.
  destruct (normalize_not_item line Hd H) as (Nb & Ne).
  unfold loop_body.
  set (st1 := track unicode_alnum (normalize line) st).
  assert (M1 : (menu st1 || dialog st1) = true).
  { apply (track_open unicode_alnum (normalize line) st Hmd).
    rewrite Ne. discriminate. }
  assert (B1 : block_level st1 = block_level st).
  { unfold st1. rewrite track_block_level, Nb, Ne. lia. }
  assert (O1 : truthy (orig_str st1) = false).
  { unfold st1. rewrite track_orig_str. exact Ho. }
  unfold dispatch. rewrite B1.
  apply Z.eqb_neq in Hbl. rewrite Hbl, andb_false_r, M1. cbn [negb andb].
  rewrite (item_no_match line H), emit_idle by exact O1.
  exists st1. split; [reflexivity|]. split; [apply track_strings|].
  split; assumption.
Qed.

End NoItems.

(** ** Line ends *)

(** One line and its end.  After a carriage return alone, the next line
    must not begin with a line feed. *)
Lemma splitlines_app_end (l sep rest : str) :
  no_linebreak l = true -> line_end sep = true ->
  (sep = [CR] -> match rest with y :: _ => (y =? LF) = false | [] => True end) ->
  splitlines (l ++ sep ++ rest) = l :: splitlines rest.
Proof.
  intros Hl Hs Hr. induction l as [|x l IH].
  - cbn [app]. unfold line_end in Hs.
    destruct sep as [|a [|b [|c sep]]]; try discriminate Hs.
    + cbn [app]. rewrite splitlines_cons, Hs.
      destruct (N.eqb_spec a CR) as [->|]; [|reflexivity].
      specialize (Hr eq_refl).
      destruct rest as [|y rest]; [reflexivity|]. rewrite Hr. reflexivity.
    + apply andb_true_iff in Hs. destruct Hs as [Ha Hb].
      cbn [app]. rewrite splitlines_cons.
      apply N.eqb_eq in Ha. subst a.
      change (is_linebreak CR) with true. change (CR =? CR) with true.
      cbv iota. rewrite Hb. reflexivity.
  - unfold no_linebreak in Hl. cbn [forallb] in Hl.
    apply andb_true_iff in Hl. destruct Hl as [Hx Hl].
    cbn [app]. rewrite splitlines_cons.
    destruct (is_linebreak x); [discriminate Hx|].
    rewrite (IH Hl). reflexivity.
Qed.

Lemma join_cr_head (ls : list str) :
  forallb no_linebreak ls = true ->
  match join_with [CR] ls with y :: _ => (y =? LF) = false | [] => True end.
Proof.
  destruct ls as [|x ls]; [exact (fun _ => I)|]. intros H.
  cbn [forallb] in H. apply andb_true_iff in H. destruct H as [Hx _].
  assert (Lx : match x with y :: _ => (y =? LF) = false | [] => True end).
  { destruct x as [|y x]; [exact I|].
    unfold no_linebreak in Hx. cbn [forallb] in Hx.
    apply andb_true_iff in Hx. destruct Hx as [Hy _].
    destruct (N.eqb_spec y LF) as [->|]; [discriminate Hy | reflexivity]. }
  destruct ls as [|y ls]; [exact Lx|].
  change (join_with [CR] (x :: y :: ls))
    with (x ++ [CR] ++ join_with [CR] (y :: ls)).
  destruct x as [|a x]; [reflexivity | exact Lx].
Qed.

(** [str.splitlines] gives the lines back, with and without a line end
    after the last line. *)
Lemma splitlines_join_with (sep : str) (ls : list str) :
  ls <> [] ->
  forallb no_linebreak ls = true -> last ls [LF] <> [] ->
  line_end sep = true ->
  splitlines (join_with sep ls) = ls
  /\ splitlines (join_with sep ls ++ sep) = ls.
Proof.
  intros Hn H Hl Hs. induction ls as [|x ls IH]; [congruence|]. clear Hn.
  cbn [forallb] in H. apply andb_true_iff in H. destruct H as [Hx H].
  destruct ls as [|y ls].
  - cbn [join_with last] in *. split.
    + destruct x as [|a x]; [congruence|].
      apply splitlines_no_linebreak, Hx.
    + pose proof (splitlines_app_end x sep [] Hx Hs (fun _ => I)) as E.
      rewrite app_nil_r in E. exact E.
  - change (join_with sep (x :: y :: ls))
      with (x ++ sep ++ join_with sep (y :: ls)).
    destruct (IH ltac:(discriminate) H Hl) as (I1 & I2). split.
    + rewrite splitlines_app_end; try assumption; [rewrite I1; reflexivity|].
      intros ->. apply join_cr_head, H.
    + rewrite <- !app_assoc.
      rewrite splitlines_app_end; try assumption; [rewrite I2; reflexivity|].
      intros ->.
      pose proof (join_cr_head (y :: ls) H) as J.
      destruct (join_with [CR] (y :: ls)); [reflexivity | exact J].
Qed.

Section LineEnds.

Variable unicode_alnum : char -> bool.

(** X23: the way the lines end does not matter.  A text whose lines end
    with a carriage return and a line feed, or with any one boundary
    character of [str.splitlines], gives the same strings as the text
    whose lines are joined by line feeds, with or without a line end
    after the last line. *)
Theorem X23_line_ends (sep : str) (ls : list str) :
  forallb no_linebreak ls = true -> last ls [LF] <> [] ->
  line_end sep = true ->
  parse_rc_file unicode_alnum (join_with sep ls)
  = parse_rc_file unicode_alnum (join_lines ls)
  /\ parse_rc_file unicode_alnum (join_with sep ls ++ sep)
     = parse_rc_file unicode_alnum (join_lines ls).
Proof.
  intros H Hl Hs. unfold parse_rc_file. destruct ls as [|x ls].
  - cbn [join_with join_lines app]. split; [reflexivity|].
    pose proof (splitlines_app_end [] sep [] eq_refl Hs (fun _ => I)) as E.
    cbn [app] in E. rewrite app_nil_r in E. rewrite E. reflexivity.
  - destruct (splitlines_join_with sep (x :: ls) ltac:(discriminate) H Hl Hs)
      as (-> & ->).
    rewrite (splitlines_join (x :: ls) H Hl). split; reflexivity.
Qed.

End LineEnds.

(** ** The variables that are only written *)

Lemma observed_eq (st st' : locals) :
  observed st = observed st' ->
  strings st = strings st' /\ menu st = menu st' /\ dialog st = dialog st'
  /\ block_level st = block_level st' /\ orig_str st = orig_str st'.
Proof.
  unfold observed. intros H. injection H as H1 H2 H3 H4 H5.
  repeat split; assumption.
Qed.

Lemma observed_intro (st st' : locals) :
  strings st = strings st' -> menu st = menu st' -> dialog st = dialog st' ->
  block_level st = block_level st' -> orig_str st = orig_str st' ->
  observed st = observed st'.
Proof. unfold observed. intros -> -> -> -> ->. reflexivity. Qed.

Section Observed.

Variable unicode_alnum : char -> bool.

Lemma track_observed (norm : str) (st st' : locals) :
  observed st = observed st' ->
  observed (track unicode_alnum norm st) = observed (track unicode_alnum norm st').
Proof.
  intros H. destruct (observed_eq st st' H) as (S & M & D & B & O).
  unfold track.
  destruct (endswith norm (u " MENU"));
    destruct (re_match (dialog_re unicode_alnum) norm);
    destruct (str_eqb norm (u "STRINGTABLE"));
    destruct (str_eqb norm (u "BEGIN"));
    destruct (str_eqb norm (u "END"));
    cbn [block_level set_block_level set_stringtable set_dialog set_menu];
    rewrite ?B;
    repeat match goal with
           | |- context [if ?b then _ else _] => destruct b
           end;
    apply observed_intro; cbn; congruence.
Qed.

Lemma dispatch_observed (line : str) (st st' : locals) :
  observed st = observed st' ->
  observed (dispatch unicode_alnum line st)
  = observed (dispatch unicode_alnum line st').
Proof.
  intros H. destruct (observed_eq st st' H) as (S & M & D & B & O).
  unfold dispatch. rewrite M, D, B.
  destruct (dialog st' && (block_level st' =? 0)%Z).
  - destruct (re_match caption_re line); [|exact H].
    apply observed_intro; cbn; congruence.
  - destruct ((menu st' || dialog st') && negb (block_level st' =? 0)%Z).
    + destruct (re_match (item_re unicode_alnum) line); [|exact H].
      apply observed_intro; cbn; congruence.
    + destruct (re_search quoted_re line) eqn:Q.
      * apply observed_intro; cbn; congruence.
      * rewrite (leading_needs_quoted line Q).
        destruct (re_match (ident_re unicode_alnum) line);
          apply observed_intro; cbn; congruence.
Qed.

Lemma emit_observed (st st' : locals) :
  observed st = observed st' ->
  exists r r', emit st = Ok r /\ emit st' = Ok r' /\ observed r = observed r'.
Proof.
  intros H. destruct (observed_eq st st' H) as (S & M & D & B & O).
  unfold emit. rewrite O. destruct (orig_str st') as [o|].
  - destruct (truthy (Some o)).
    + destruct (decode_total o) as [s ->]. cbn [bind].
      eexists. eexists. split; [reflexivity|]. split; [reflexivity|].
      apply observed_intro; cbn; congruence.
    + exists st, st'. repeat split. exact H.
  - exists st, st'. repeat split. exact H.
Qed.

Lemma loop_body_observed (line : str) (st st' : locals) :
  observed st = observed st' ->
  exists r r',
    loop_body unicode_alnum st line = Ok r
    /\ loop_body unicode_alnum st' line = Ok r'
    /\ observed r = observed r'.
Proof.
  intros H. unfold loop_body.
  apply emit_observed, dispatch_observed, track_observed, H.
Qed.

Lemma scan_observed (lines : list str) : forall (st st' : locals),
  observed st = observed st' ->
  exists r r',
    scan unicode_alnum st lines = Ok r
    /\ scan unicode_alnum st' lines = Ok r'
    /\ observed r = observed r'.
Proof.
  induction lines as [|line lines IH]; intros st st' H.
  - exists st, st'. repeat split. exact H.
  - destruct (loop_body_observed line st st' H) as (r1 & r1' & E & E' & H1).
    destruct (IH r1 r1' H1) as (r & r' & F & F' & H2).
    exists r, r'. cbn [scan]. rewrite E, E'. cbn [bind].
    repeat split; assumption.
Qed.

(** X24: the strings of the result depend on [strings], [menu],
    [dialog], [block_level] and [orig_str] only.  [stringtable], [id_str],
    [hint] and [dialog_id] are written and never read in a way that
    matters: from two states that differ in these four variables only,
    the loop appends the same strings, whatever the lines. *)
Theorem X24_written_only (lines : list str) (st st' : locals) :
  observed st = observed st' ->
  exists r r',
    scan unicode_alnum st lines = Ok r
    /\ scan unicode_alnum st' lines = Ok r'
    /\ strings r = strings r'.
Proof.
  intros H. destruct (scan_observed lines st st' H) as (r & r' & E & E' & O).
  exists r, r'. split; [exact E|]. split; [exact E'|].
  apply (observed_eq r r' O).
Qed.

End Observed.

(** ** Texts with several blocks *)

Lemma pending_set (i h o : option str) (st : locals) :
  pending (set_pending i h o st) = if truthy o then o else None.
Proof. reflexivity. Qed.

Section Compose.

Variable unicode_alnum : char -> bool.

Lemma track_extends (p : list str) (norm : str) (st st' : locals) :
  extends p st st' ->
  extends p (track unicode_alnum norm st) (track unicode_alnum norm st').
Proof.
  intros (S & M & D & B & O). unfold extends, pending in *.
  rewrite !track_orig_str, !track_strings.
  split; [exact S|]. unfold track.
  destruct (endswith norm (u " MENU"));
    destruct (re_match (dialog_re unicode_alnum) norm);
    destruct (str_eqb norm (u "STRINGTABLE"));
    destruct (str_eqb norm (u "BEGIN"));
    destruct (str_eqb norm (u "END"));
    cbn [block_level set_block_level set_stringtable set_dialog set_menu];
    rewrite ?B;
    repeat match goal with
           | |- context [if ?b then _ else _] =>
               lazymatch b with
               | truthy _ => fail
               | _ => destruct b
               end
           end;
    cbn; repeat split; congruence.
Qed.

Lemma dispatch_extends (p : list str) (line : str) (st st' : locals) :
  extends p st st' ->
  extends p (dispatch unicode_alnum line st) (dispatch unicode_alnum line st').
Proof.
  intros H. pose proof H as (S & M & D & B & O).
  unfold dispatch. rewrite M, D, B.
  destruct (dialog st' && (block_level st' =? 0)%Z).
  - destruct (re_match caption_re line); [|exact H].
    unfold extends. rewrite !pending_set. cbn. repeat split; congruence.
  - destruct ((menu st' || dialog st') && negb (block_level st' =? 0)%Z).
    + destruct (re_match (item_re unicode_alnum) line); [|exact H].
      unfold extends. rewrite !pending_set. cbn. repeat split; congruence.
    + destruct (re_search quoted_re line) eqn:Q.
      * unfold extends. rewrite !pending_set. cbn. repeat split; congruence.
      * rewrite (leading_needs_quoted line Q).
        destruct (re_match (ident_re unicode_alnum) line);
          unfold extends; rewrite !pending_set; cbn;
          repeat split; try congruence; exact O.
Qed.

Lemma emit_extends (p : list str) (st st' : locals) :
  extends p st st' ->
  exists r r', emit st = Ok r /\ emit st' = Ok r' /\ extends p r r'
               /\ pending r = None.
Proof.
  intros H. pose proof H as (S & M & D & B & O).
  unfold pending in O. unfold emit.
  destruct (orig_str st) as [o|] eqn:E; destruct (orig_str st') as [o'|] eqn:E'.
  - destruct (truthy (Some o)) eqn:T; destruct (truthy (Some o')) eqn:T';
      try discriminate O.
    + injection O as ->. destruct (decode_total o') as [s ->]. cbn [bind].
      eexists. eexists. split; [reflexivity|]. split; [reflexivity|].
      split; [|reflexivity].
      unfold extends, pending. cbn. rewrite S, <- app_assoc.
      repeat split; congruence.
    + exists st, st'. repeat split; try assumption.
      * unfold pending. rewrite E, E', T, T'. reflexivity.
      * unfold pending. rewrite E, T. reflexivity.
  - destruct (truthy (Some o)) eqn:T; [discriminate O|].
    exists st, st'. repeat split; try assumption.
    + unfold pending. rewrite E, E', T. reflexivity.
    + unfold pending. rewrite E, T. reflexivity.
  - destruct (truthy (Some o')) eqn:T'; [discriminate O|].
    exists st, st'. repeat split; try assumption.
    + unfold pending. rewrite E, E', T'. reflexivity.
    + unfold pending. rewrite E. reflexivity.
  - exists st, st'. repeat split; try assumption.
    + unfold pending. rewrite E, E'. reflexivity.
    + unfold pending. rewrite E. reflexivity.
Qed.

Lemma scan_extends (p : list str) (lines : list str) : forall (st st' : locals),
  extends p st st' ->
  exists r r',
    scan unicode_alnum st lines = Ok r
    /\ scan unicode_alnum st' lines = Ok r'
    /\ extends p r r'.
Proof.
  induction lines as [|line lines IH]; intros st st' H.
  - exists st, st'. repeat split; apply H.
  - destruct (emit_extends p _ _
                (dispatch_extends p line _ _
                   (track_extends p (normalize line) st st' H)))
      as (r1 & r1' & E & E' & H1 & _).
    destruct (IH r1 r1' H1) as (r & r' & F & F' & H2).
    exists r, r'. cbn [scan]. unfold loop_body. rewrite E, E'. cbn [bind].
    repeat split; try assumption; apply H2.
Qed.

Lemma scan_pending (lines : list str) : forall (st r : locals),
  pending st = None -> scan unicode_alnum st lines = Ok r -> pending r = None.
Proof.
  induction lines as [|line lines IH]; intros st r P E.
  - cbn [scan] in E. injection E as <-. exact P.
  - cbn [scan] in E.
    destruct (loop_body_pending unicode_alnum st line) as (st1 & E1 & T & _).
    rewrite E1 in E. cbn [bind] in E. apply (IH st1 r); [|exact E].
    unfold pending. rewrite T. reflexivity.
Qed.

(** X25: texts with several blocks.  When the loop leaves [menu] and
    [dialog] unset and [block_level] at 0 after some lines, the lines that
    follow give the strings that they give on their own, after the
    strings of the lines before. *)
Theorem X25_blocks_compose (before after : list str) (r : locals) :
  scan unicode_alnum init before = Ok r ->
  menu r = false -> dialog r = false -> block_level r = 0%Z ->
  exists r1 r2,
    scan unicode_alnum init after = Ok r1
    /\ scan unicode_alnum init (before ++ after) = Ok r2
    /\ strings r2 = strings r ++ strings r1.
Proof.
  intros E M D B.
  assert (X : extends (strings r) r init).
  { unfold extends. rewrite M, D, B, app_nil_r.
    rewrite (scan_pending before init r eq_refl E). repeat split. }
  destruct (scan_extends (strings r) after r init X) as (r2 & r1 & F & F' & H).
  exists r1, r2. split; [exact F'|].
  rewrite scan_app, E. cbn [bind]. split; [exact F | apply H].
Qed.

End Compose.

(** * [to_snake_case] *)

Lemma sub_from_none want r f (s : str) : forall i,
  demands want r -> existsb want s = false -> sub_from r f i s = s.
Proof.
  induction s as [|x s IH]; intros i D H.
  - unfold sub_from. cbn [pieces_go].
    destruct (match_at r i []) as [m|] eqn:E; [|reflexivity].
    apply (match_at_demands want r i [] m D) in E. discriminate E.
  - rewrite sub_from_keep.
    + rewrite IH; [reflexivity | exact D |].
      cbn [existsb] in H. apply orb_false_iff in H. apply H.
    + destruct (match_at r i (x :: s)) as [m|] eqn:E; [|reflexivity].
      apply (match_at_demands want r i (x :: s) m D) in E.
      rewrite H in E. discriminate E.
Qed.

(** [re.sub] leaves a text alone that has none of the characters which
    every match needs. *)
Lemma re_sub_none want r f (s : str) :
  demands want r -> existsb want s = false -> re_sub r f s = s.
Proof. intros D H. rewrite re_sub_from. exact (sub_from_none want r f s 0 D H). Qed.

Lemma camel_demands_upper : demands is_upper camel_re.
Proof. cbn. right. left. left. exact (fun x H => H). Qed.

Lemma under_demands_upper : demands is_upper under_re.
Proof. cbn. do 2 right. left. exact (fun x H => H). Qed.

Lemma hump_demands_upper : demands is_upper hump_re.
Proof. cbn. right. left. exact (fun x H => H). Qed.

Lemma match_at_class p i (x : char) (s : str) :
  match_at (Chr p) i (x :: s)
  = if p x
    then Some {| m_start := i; m_end := S i;
                 m_text := firstn (S i - i) (x :: s); m_caps := [] |}
    else None.
Proof. unfold match_at. cbn [exec]. destruct (p x); reflexivity. Qed.

(** [re.sub] with a pattern that is one set of characters. *)
Lemma sub_from_class p (a : str) (s : str) : forall i,
  sub_from (Chr p) (fun _ => a) i s = flat_map (fun x => if p x then a else [x]) s.
Proof.
  induction s as [|x s IH]; intros i; [reflexivity|].
  unfold sub_from in *. cbn [pieces_go]. rewrite match_at_class.
  destruct (p x) eqn:P.
  - cbn [m_end]. rewrite ltb_succ.
    replace (S i - i - 1)%nat with 0%nat by lia.
    cbn [flat_map]. rewrite P. f_equal. apply IH.
  - cbn [flat_map]. rewrite P. cbn [app]. f_equal. apply IH.
Qed.

Lemma re_sub_class p (a : char) (s : str) :
  re_sub (Chr p) (fun _ => [a]) s = map (fun x => if p x then a else x) s.
Proof.
  rewrite re_sub_from, sub_from_class.
  induction s as [|x s IH]; [reflexivity|].
  cbn [flat_map map]. rewrite IH. destruct (p x); reflexivity.
Qed.

Lemma replace_single (a : char) (s : str) :
  replace [a] [] s = filter (fun x => negb (x =? a)) s.
Proof.
  unfold replace. induction s as [|x s IH]; [reflexivity|].
  cbn [replace_go startswith filter length Nat.sub app].
  rewrite andb_true_r. destruct (x =? a); cbn [negb]; rewrite IH; reflexivity.
Qed.

Lemma snake_facts (c : char) :
  is_snake c = true ->
  is_upper c = false /\ is_not_alnum c = (c =? 95) /\ (c <? 128) = true
  /\ (c =? 38) = false.
Proof.
  unfold is_snake, is_not_alnum, is_upper, is_lower, is_digit. intros H.
  apply orb_true_iff in H. destruct H as [H | H].
  - apply orb_true_iff in H.
    destruct H as [H | H]; apply andb_true_iff in H; destruct H as [A B];
      apply N.leb_le in A, B; decide_cmp; repeat split; reflexivity.
  - apply N.eqb_eq in H. subst c. repeat split; reflexivity.
Qed.

Lemma snake_no_upper (s : str) :
  forallb is_snake s = true -> existsb is_upper s = false.
Proof.
  induction s as [|x s IH]; [reflexivity|]. cbn [forallb existsb].
  intros H. apply andb_true_iff in H. destruct H as [Hx H].
  destruct (snake_facts x Hx) as (-> & _). exact (IH H).
Qed.

Section LowerFacts.

Variable unicode_lower : str -> str.

Lemma lower_ascii (s : str) :
  forallb (fun c => c <? 128) s = true ->
  lower unicode_lower s = map ascii_lower s.
Proof. intros H. unfold lower. rewrite H. reflexivity. Qed.

Lemma lower_snake (s : str) :
  forallb is_snake s = true -> lower unicode_lower s = s.
Proof.
  intros H. rewrite lower_ascii.
  - induction s as [|x s IH]; [reflexivity|].
    cbn [forallb] in H. apply andb_true_iff in H. destruct H as [Hx H].
    cbn [map]. rewrite (IH H). unfold ascii_lower.
    destruct (snake_facts x Hx) as (-> & _). reflexivity.
  - rewrite forallb_forall in *. intros x Hx.
    apply (snake_facts x (H x Hx)).
Qed.

(** A character that is a letter, a digit or the underscore. *)
Lemma lower_class (x : char) :
  is_snake (ascii_lower (if is_not_alnum x then 95 else x)) = true
  /\ ((if is_not_alnum x then 95 else x) <? 128) = true.
Proof.
  unfold is_not_alnum.
  destruct (is_lower x) eqn:L;
    [|destruct (is_upper x) eqn:U; [|destruct (is_digit x) eqn:D]];
    cbn [orb negb]; [| | |split; reflexivity].
  - unfold is_lower in L. apply andb_true_iff in L.
    destruct L as [A B]. apply N.leb_le in A, B.
    unfold ascii_lower, is_snake, is_upper, is_lower.
    decide_cmp. cbn [andb]. decide_cmp. split; reflexivity.
  - unfold ascii_lower. rewrite U. unfold is_upper in U.
    apply andb_true_iff in U. destruct U as [A B]. apply N.leb_le in A, B.
    unfold is_snake, is_lower.
    decide_cmp. split; reflexivity.
  - unfold ascii_lower. rewrite U. unfold is_snake. rewrite D.
    unfold is_digit in D. apply andb_true_iff in D.
    destruct D as [A B]. apply N.leb_le in A, B.
    decide_cmp. rewrite L. split; reflexivity.
Qed.

Lemma snake_alphabet (name : str) :
  forallb is_snake (TextualPaint.to_snake_case unicode_lower name) = true.
Proof.
  unfold TextualPaint.to_snake_case. cbv zeta.
  set (t := re_sub hump_re _ _). unfold other_re. rewrite re_sub_class.
  rewrite lower_ascii.
  - rewrite forallb_forall. intros y Hy. apply in_map_iff in Hy.
    destruct Hy as (z & <- & Hz). apply in_map_iff in Hz.
    destruct Hz as (x & <- & _). apply lower_class.
  - rewrite forallb_forall. intros y Hy. apply in_map_iff in Hy.
    destruct Hy as (x & <- & _). apply lower_class.
Qed.

(** X16: whatever the name, the identifier that [to_snake_case] of
    [textual_paint/menus.py] makes of it has only the letters [a] to [z],
    digits and underscores. *)
Theorem X16_snake_case_alphabet (name : str) :
  forallb is_snake (TextualPaint.to_snake_case unicode_lower name) = true.
Proof. exact (snake_alphabet name). Qed.

Lemma snake_fixed (name : str) :
  forallb is_snake name = true ->
  Menus.to_snake_case unicode_lower name = name
  /\ TextualPaint.to_snake_case unicode_lower name = name.
Proof.
  intros H. pose proof (snake_no_upper name H) as U.
  unfold Menus.to_snake_case, TextualPaint.to_snake_case. cbv zeta.
  assert (R : replace [38] [] name = name).
  { rewrite replace_single. clear U.
    induction name as [|x s IH]; [reflexivity|].
    cbn [forallb] in H. apply andb_true_iff in H. destruct H as [Hx H].
    cbn [filter]. destruct (snake_facts x Hx) as (_ & _ & _ & ->).
    cbn [negb]. rewrite (IH H). reflexivity. }
  rewrite R.
  rewrite (re_sub_none is_upper camel_re _ name camel_demands_upper U).
  rewrite (re_sub_none is_upper under_re _ name under_demands_upper U).
  rewrite (re_sub_none is_upper hump_re _ name hump_demands_upper U).
  unfold other_re. rewrite re_sub_class.
  match goal with |- context [map ?g name] =>
    assert (M : map g name = name) end.
  { clear U R. induction name as [|x s IH]; [reflexivity|].
    cbn [forallb] in H. apply andb_true_iff in H. destruct H as [Hx H].
    cbn [map]. rewrite (IH H).
    destruct (snake_facts x Hx) as (_ & -> & _).
    destruct (N.eqb_spec x 95) as [->|]; reflexivity. }
  rewrite M, lower_snake by exact H. split; reflexivity.
Qed.

(** X17: a name made of the letters [a] to [z], digits and underscores
    is left as it is by both versions of [to_snake_case]. *)
Theorem X17_snake_case_fixed (name : str) :
  forallb is_snake name = true ->
  Menus.to_snake_case unicode_lower name = name
  /\ TextualPaint.to_snake_case unicode_lower name = name.
Proof. exact (snake_fixed name). Qed.

(** X18: [to_snake_case] of [textual_paint/menus.py] changes nothing when
    it is applied a second time. *)
Theorem X18_snake_case_idempotent (name : str) :
  TextualPaint.to_snake_case unicode_lower
    (TextualPaint.to_snake_case unicode_lower name)
  = TextualPaint.to_snake_case unicode_lower name.
Proof. apply snake_fixed, snake_alphabet. Qed.

(** X19: a name without any of the letters [A] to [Z] is only put in
    lower case by [to_snake_case] of [menus.py]: the three substitutions
    leave it alone, the ampersand of a hotkey included. *)
Theorem X19_no_capital (name : str) :
  existsb is_upper name = false ->
  Menus.to_snake_case unicode_lower name = lower unicode_lower name.
Proof.
  intros U. unfold Menus.to_snake_case. cbv zeta.
  rewrite (re_sub_none is_upper camel_re _ name camel_demands_upper U).
  rewrite (re_sub_none is_upper under_re _ name under_demands_upper U).
  rewrite (re_sub_none is_upper hump_re _ name hump_demands_upper U).
  reflexivity.
Qed.

End LowerFacts.

(** ** The substitutions as scans *)

Lemma star_chr_max p (s : str) : forall n i c (k : cont) v,
  (length s <= n)%nat ->
  k (i + run p s)%nat (skipn (run p s) s) c = Some v ->
  star_iter (exec (Chr p)) true n i s c k = Some v.
Proof.
  induction s as [|x s IH]; intros n i c k v Hn Hk.
  - cbn [run skipn] in Hk. rewrite Nat.add_0_r in Hk.
    destruct n; cbn [star_iter exec]; exact Hk.
  - destruct n as [|n]; [cbn in Hn; lia|].
    cbn [run] in Hk. cbn [star_iter]. cbn [exec].
    destruct (p x).
    + rewrite ltb_succ.
      assert (E : star_iter (exec (Chr p)) true n (S i) s c k = Some v).
      { apply IH; [cbn in Hn; lia|].
        cbn [skipn] in Hk. rewrite <- Nat.add_succ_comm in Hk. exact Hk. }
      cbn [exec] in E. rewrite E. reflexivity.
    + cbn [skipn] in Hk. rewrite Nat.add_0_r in Hk. exact Hk.
Qed.

Lemma firstn_run_app (n : nat) (a t : str) :
  firstn (length a + n) (a ++ t) = a ++ firstn n t.
Proof. induction a as [|x a IH]; [reflexivity|]. cbn. rewrite IH. reflexivity. Qed.

Lemma match_camel_hit i (x b l : char) (t : str) :
  is_dot x = true -> is_upper b = true -> is_lower l = true ->
  exists m, match_at camel_re i (x :: b :: l :: t) = Some m
    /\ m_end m = (3 + i + run is_lower t)%nat
    /\ template_1_2 m = x :: 95 :: b :: l :: firstn (run is_lower t) t.
Proof.
  intros Hx Hb Hl. unfold match_at, camel_re, plus.
  cbn [cat fold_right]. unfold dot. cbn [exec]. rewrite Hx, Hb, Hl.
  match goal with |- context [star_iter ?B true ?n ?j ?s ?c ?k] =>
    assert (E : star_iter B true n j s c k
                = k (j + run is_lower s)%nat (skipn (run is_lower s) s) c)
  end.
  { match goal with |- _ = ?R => destruct R as [v|] eqn:K end.
    - apply (star_chr_max is_lower t); [lia | exact K].
    - discriminate K. }
  cbn [exec] in E. rewrite E. unfold accept.
  eexists. split; [reflexivity|]. cbn [m_end]. split; [lia|].
  unfold template_1_2, template_group. cbn [group m_caps lookup Nat.eqb].
  replace (S i - i)%nat with 1%nat by lia.
  replace (S (S (S i)) + run is_lower t - S i)%nat
    with (length [b; l] + run is_lower t)%nat by (cbn [length]; lia).
  change (b :: l :: t) with ([b; l] ++ t). rewrite firstn_run_app.
  reflexivity.
Qed.

Lemma match_camel_none i (s : str) :
  match s with
  | x :: b :: l :: _ => (is_dot x && is_upper b && is_lower l) = false
  | _ => True
  end ->
  match_at camel_re i s = None.
Proof.
  intros H. unfold match_at, camel_re, plus. cbn [cat fold_right].
  unfold dot. cbn [exec].
  destruct s as [|x [|b [|l t]]]; try reflexivity.
  - destruct (is_dot x); reflexivity.
  - destruct (is_dot x); [|reflexivity]. destruct (is_upper b); reflexivity.
  - destruct (is_dot x); [|reflexivity].
    destruct (is_upper b); [|reflexivity].
    destruct (is_lower l); [discriminate H | reflexivity].
Qed.

Lemma sub_camel_both (n : nat) : forall (s : str) i,
  (length s <= n)%nat ->
  sub_from camel_re template_1_2 i s = camel_go false s
  /\ firstn (run is_lower s) s
     ++ flat_map (fun p => match p with Lit x => [x] | Hit m => template_1_2 m end)
          (pieces_go camel_re (run is_lower s) i s)
     = camel_go true s.
Proof.
  induction n as [|n IH]; intros s i Hn.
  - destruct s; [split; reflexivity | cbn in Hn; lia].
  - destruct s as [|x s']; [split; reflexivity|]. cbn [length] in Hn.
    assert (P1 : sub_from camel_re template_1_2 i (x :: s')
                 = camel_go false (x :: s')).
    { unfold sub_from. cbn [pieces_go camel_go andb].
      destruct s' as [|b [|l t]].
      - rewrite match_camel_none by exact I. reflexivity.
      - rewrite match_camel_none by exact I. cbn [flat_map app].
        f_equal. apply (IH [b] (S i)). cbn in *. lia.
      - destruct (is_dot x && is_upper b && is_lower l) eqn:C.
        + apply andb_true_iff in C. destruct C as [C Hl].
          apply andb_true_iff in C. destruct C as [Hx Hb].
          destruct (match_camel_hit i x b l t Hx Hb Hl) as (m & -> & Em & Tm).
          rewrite Em.
          replace (i <? 3 + i + run is_lower t)%nat with true
            by (symmetry; apply Nat.ltb_lt; lia).
          replace (3 + i + run is_lower t - i - 1)%nat
            with (S (S (run is_lower t))) by lia.
          cbn [pieces_go flat_map]. rewrite Tm. cbn [app].
          do 4 f_equal.
          apply (IH t (S (S (S i)))). cbn [length] in Hn. lia.
        + rewrite match_camel_none by exact C. cbn [flat_map app].
          f_equal. apply (IH (b :: l :: t) (S i)). lia. }
    split; [exact P1|].
    cbn [run camel_go]. destruct (is_lower x) eqn:L; cbn [andb].
    + cbn [firstn pieces_go app]. f_equal. apply (IH s' (S i)). lia.
    + cbn [firstn app]. exact P1.
Qed.

(** The first substitution. *)
Lemma re_sub_camel (s : str) :
  re_sub camel_re template_1_2 s = camel_go false s.
Proof. rewrite re_sub_from. apply (sub_camel_both (length s) s 0 (le_n _)). Qed.

Lemma match_under i (s : str) :
  match_at under_re i s
  = match s with
    | x :: y :: b :: t =>
        if (x =? 95) && (y =? 95) && is_upper b
        then Some {| m_start := i; m_end := S (S (S i));
                     m_text := firstn (S (S (S i)) - i) s;
                     m_caps := [(1%nat, firstn (S (S (S i)) - S (S i)) (b :: t))] |}
        else None
    | _ => None
    end.
Proof.
  unfold match_at, under_re, lit. cbn [cat fold_right exec].
  destruct s as [|x [|y [|b t]]]; try reflexivity.
  - destruct (95 =? x); reflexivity.
  - destruct (95 =? x); [|reflexivity].
    destruct (95 =? y); reflexivity.
  - rewrite (N.eqb_sym x 95), (N.eqb_sym y 95).
    destruct (95 =? x); [|reflexivity]. destruct (95 =? y); [|reflexivity].
    destruct (is_upper b); reflexivity.
Qed.

Lemma sub_under (n : nat) : forall (s : str) i,
  (length s <= n)%nat -> sub_from under_re template_u_1 i s = under_go s.
Proof.
  induction n as [|n IH]; intros s i Hn.
  - destruct s; [reflexivity | cbn in Hn; lia].
  - destruct s as [|x s']; [reflexivity|]. cbn [length] in Hn.
    unfold sub_from. cbn [pieces_go under_go]. rewrite match_under.
    destruct s' as [|y [|b t]].
    + reflexivity.
    + cbn [flat_map app]. f_equal. apply (IH [y] (S i)). cbn in *. lia.
    + destruct ((x =? 95) && (y =? 95) && is_upper b) eqn:C.
      * cbn [m_end].
        replace (i <? S (S (S i)))%nat with true
          by (symmetry; apply Nat.ltb_lt; lia).
        replace (S (S (S i)) - i - 1)%nat with 2%nat by lia.
        cbn [pieces_go flat_map]. unfold template_u_1, template_group.
        cbn [group m_caps lookup Nat.eqb].
        replace (S (S (S i)) - S (S i))%nat with 1%nat by lia.
        cbn [firstn app]. do 2 f_equal.
        apply (IH t (S (S (S i)))). cbn [length] in Hn. lia.
      * cbn [flat_map app]. f_equal. apply (IH (y :: b :: t) (S i)). lia.
Qed.

(** The second substitution. *)
Lemma re_sub_under (s : str) : re_sub under_re template_u_1 s = under_go s.
Proof. rewrite re_sub_from. apply (sub_under (length s) s 0 (le_n _)). Qed.

Lemma match_hump i (s : str) :
  match_at hump_re i s
  = match s with
    | x :: b :: t =>
        if is_lower_digit x && is_upper b
        then Some {| m_start := i; m_end := S (S i);
                     m_text := firstn (S (S i) - i) s;
                     m_caps := [(2%nat, firstn (S (S i) - S i) (b :: t));
                                (1%nat, firstn (S i - i) s)] |}
        else None
    | _ => None
    end.
Proof.
  unfold match_at, hump_re. cbn [cat fold_right exec].
  destruct s as [|x [|b t]]; try reflexivity.
  - destruct (is_lower_digit x); reflexivity.
  - destruct (is_lower_digit x); [|reflexivity].
    destruct (is_upper b); reflexivity.
Qed.

Lemma sub_hump (n : nat) : forall (s : str) i,
  (length s <= n)%nat -> sub_from hump_re template_1_2 i s = hump_go s.
Proof.
  induction n as [|n IH]; intros s i Hn.
  - destruct s; [reflexivity | cbn in Hn; lia].
  - destruct s as [|x s']; [reflexivity|]. cbn [length] in Hn.
    unfold sub_from. cbn [pieces_go hump_go]. rewrite match_hump.
    destruct s' as [|b t]; [reflexivity|].
    destruct (is_lower_digit x && is_upper b) eqn:C.
    + cbn [m_end].
      replace (i <? S (S i))%nat with true
        by (symmetry; apply Nat.ltb_lt; lia).
      replace (S (S i) - i - 1)%nat with 1%nat by lia.
      cbn [pieces_go flat_map]. unfold template_1_2, template_group.
      cbn [group m_caps lookup Nat.eqb].
      replace (S (S i) - S i)%nat with 1%nat by lia.
      replace (S i - i)%nat with 1%nat by lia.
      cbn [firstn app]. do 3 f_equal.
      apply (IH t (S (S i))). cbn [length] in Hn. lia.
    + cbn [flat_map app]. f_equal. apply (IH (b :: t) (S i)). lia.
Qed.

(** The third substitution. *)
Lemma re_sub_hump (s : str) : re_sub hump_re template_1_2 s = hump_go s.
Proof. rewrite re_sub_from. apply (sub_hump (length s) s 0 (le_n _)). Qed.

(** ** Names in camel case *)

Lemma lower_facts (c : char) :
  is_lower c = true ->
  is_upper c = false /\ is_dot c = true /\ is_lower_digit c = true
  /\ (c =? 95) = false /\ (c <? 128) = true /\ is_not_alnum c = false
  /\ (c =? 38) = false.
Proof.
  unfold is_lower_digit, is_not_alnum, is_dot, LF. intros H. rewrite H.
  unfold is_lower, is_upper in *. apply andb_true_iff in H.
  destruct H as [A B]. apply N.leb_le in A, B.
  decide_cmp. repeat split; reflexivity.
Qed.

Lemma upper_facts (c : char) :
  is_upper c = true ->
  is_lower c = false /\ is_lower_digit c = false
  /\ (c =? 95) = false /\ (c <? 128) = true /\ is_not_alnum c = false
  /\ (c =? 38) = false /\ is_lower (c + 32) = true.
Proof.
  unfold is_lower_digit, is_not_alnum. intros H. rewrite H.
  unfold is_upper, is_lower, is_digit in *. apply andb_true_iff in H.
  destruct H as [A B]. apply N.leb_le in A, B.
  decide_cmp. repeat split; reflexivity.
Qed.

Lemma word_ok_parts (w : char * str) :
  word_ok w = true ->
  is_upper (fst w) = true
  /\ exists c l, snd w = c :: l /\ is_lower c = true /\ forallb is_lower l = true.
Proof.
  unfold word_ok. intros H. apply andb_true_iff in H. destruct H as [H Hl].
  apply andb_true_iff in H. destruct H as [Hu Hn]. split; [exact Hu|].
  destruct (snd w) as [|c l]; [discriminate Hn|]. exists c, l.
  cbn [forallb] in Hl. apply andb_true_iff in Hl. destruct Hl as [Hc Hl].
  repeat split; assumption.
Qed.

(** *** The first scan *)

Lemma camel_go_switch (s : str) :
  match s with x :: _ => is_lower x = false | [] => True end ->
  camel_go true s = camel_go false s.
Proof.
  destruct s as [|x s]; [reflexivity|]. intros H. cbn [camel_go].
  rewrite H. reflexivity.
Qed.

Lemma camel_go_copy (l t : str) :
  forallb is_lower l = true -> camel_go true (l ++ t) = l ++ camel_go true t.
Proof.
  induction l as [|c l IH]; intros H; [reflexivity|].
  cbn [forallb] in H. apply andb_true_iff in H. destruct H as [Hc H].
  cbn [app camel_go]. rewrite Hc. cbn [andb]. rewrite (IH H). reflexivity.
Qed.

(** A character before a small letter is kept. *)
Lemma camel_go_keep (x c : char) (t : str) :
  is_lower c = true ->
  camel_go false (x :: c :: t) = x :: camel_go false (c :: t).
Proof.
  intros Hc. destruct (lower_facts c Hc) as (U & _).
  cbn [camel_go andb]. rewrite U, andb_false_r.
  destruct t; reflexivity.
Qed.

Lemma last_cons (x : char) (l : str) (d : char) : last (x :: l) d = last l x.
Proof. exact (last_after [] x l d). Qed.

Lemma camel_go_lowers (l : str) : forall (x c : char) (t : str),
  is_lower c = true -> forallb is_lower l = true ->
  camel_go false (x :: c :: l ++ t)
  = x :: removelast (c :: l) ++ camel_go false (last l c :: t).
Proof.
  induction l as [|d l IH]; intros x c t Hc Hl.
  - cbn [app removelast last]. apply camel_go_keep, Hc.
  - cbn [forallb] in Hl. apply andb_true_iff in Hl. destruct Hl as [Hd Hl].
    rewrite camel_go_keep by exact Hc. cbn [app].
    rewrite (IH c d t Hd Hl).
    change (removelast (c :: d :: l)) with (c :: removelast (d :: l)).
    rewrite (last_cons d l c). reflexivity.
Qed.

Lemma removelast_last (c : char) (l : str) :
  removelast (c :: l) ++ [last l c] = c :: l.
Proof.
  revert c. induction l as [|d l IH]; intros c; [reflexivity|].
  change (removelast (c :: d :: l)) with (c :: removelast (d :: l)).
  rewrite (last_cons d l c). cbn [app]. rewrite IH. reflexivity.
Qed.

Lemma last_lower (c : char) (l : str) :
  is_lower c = true -> forallb is_lower l = true -> is_lower (last l c) = true.
Proof.
  revert c. induction l as [|d l IH]; intros c Hc Hl; [exact Hc|].
  cbn [forallb] in Hl. apply andb_true_iff in Hl. destruct Hl as [Hd Hl].
  rewrite (last_cons d l c). exact (IH d Hd Hl).
Qed.

Lemma camel_head (ws : list (char * str)) :
  forallb word_ok ws = true ->
  match camel ws with x :: _ => is_lower x = false | [] => True end.
Proof.
  destruct ws as [|w ws]; [exact (fun _ => I)|]. cbn [forallb camel flat_map].
  intros H. apply andb_true_iff in H. destruct H as [H _].
  destruct (word_ok_parts w H) as (U & _).
  cbn [word_text app]. apply (upper_facts _ U).
Qed.

Lemma camel_cons (w : char * str) (ws : list (char * str)) :
  camel (w :: ws) = fst w :: snd w ++ camel ws.
Proof. reflexivity. Qed.

Lemma paired_one (b : bool) (w : char * str) : paired b [w] = fst w :: snd w.
Proof. cbn [paired word_text]. rewrite app_nil_r. reflexivity. Qed.

Lemma paired_cons (b : bool) (w1 w2 : char * str) (ws : list (char * str)) :
  paired b (w1 :: w2 :: ws)
  = fst w1 :: snd w1 ++ (if b then [95] else []) ++ paired (negb b) (w2 :: ws).
Proof. reflexivity. Qed.

(** A word alone, and a word before another word. *)
Lemma camel_go_word (x c : char) (l : str) :
  is_lower c = true -> forallb is_lower l = true ->
  camel_go false (x :: c :: l) = x :: c :: l.
Proof.
  intros Hc Hl. pose proof (camel_go_lowers l x c [] Hc Hl) as E.
  rewrite app_nil_r in E. rewrite E. cbn [camel_go andb].
  rewrite removelast_last. reflexivity.
Qed.

Lemma camel_go_pair (x c1 : char) (l1 : str) (b c2 : char) (l2 t : str) :
  is_lower c1 = true -> forallb is_lower l1 = true ->
  is_upper b = true -> is_lower c2 = true -> forallb is_lower l2 = true ->
  match t with y :: _ => is_lower y = false | [] => True end ->
  camel_go false (x :: c1 :: l1 ++ b :: c2 :: l2 ++ t)
  = x :: c1 :: l1 ++ 95 :: b :: c2 :: l2 ++ camel_go false t.
Proof.
  intros Hc1 Hl1 Hb Hc2 Hl2 Ht.
  rewrite (camel_go_lowers l1 x c1 _ Hc1 Hl1).
  pose proof (last_lower c1 l1 Hc1 Hl1) as Hz.
  destruct (lower_facts _ Hz) as (_ & Dz & _).
  cbn [camel_go andb]. rewrite Dz, Hb, Hc2. cbn [andb].
  rewrite camel_go_copy by exact Hl2.
  rewrite camel_go_switch by exact Ht.
  f_equal.
  transitivity ((removelast (c1 :: l1) ++ [last l1 c1])
                ++ 95 :: b :: c2 :: l2 ++ camel_go false t);
    [rewrite <- app_assoc; reflexivity | rewrite removelast_last; reflexivity].
Qed.

Lemma camel_go_words (n : nat) : forall (ws : list (char * str)),
  (length ws <= n)%nat -> forallb word_ok ws = true ->
  camel_go false (camel ws) = paired true ws.
Proof.
  induction n as [|n IH]; intros ws Hn H.
  - destruct ws; [reflexivity | cbn in Hn; lia].
  - destruct ws as [|w1 ws]; [reflexivity|].
    cbn [forallb] in H. apply andb_true_iff in H. destruct H as [H1 H].
    destruct (word_ok_parts w1 H1) as (U1 & c1 & l1 & E1 & Hc1 & Hl1).
    destruct ws as [|w2 ws].
    + rewrite camel_cons, paired_one, E1, app_nil_r.
      apply camel_go_word; assumption.
    + cbn [forallb] in H. apply andb_true_iff in H. destruct H as [H2 H].
      destruct (word_ok_parts w2 H2) as (U2 & c2 & l2 & E2 & Hc2 & Hl2).
      rewrite !camel_cons, E1, E2. cbn [app].
      rewrite camel_go_pair; try assumption; [|apply camel_head; exact H].
      rewrite (IH ws) by (try assumption; cbn [length] in Hn; lia).
      rewrite paired_cons, E1. cbn [negb app]. do 3 f_equal.
      destruct ws as [|w3 ws].
      * rewrite paired_one, E2, app_nil_r. reflexivity.
      * rewrite paired_cons, E2. reflexivity.
Qed.

(** *** The second scan *)

Lemma under_go_keep (x : char) (s : str) :
  (x =? 95) = false -> under_go (x :: s) = x :: under_go s.
Proof.
  intros H. cbn [under_go]. destruct s as [|y [|b t]]; try reflexivity.
  rewrite H. reflexivity.
Qed.

Lemma under_go_single (y : char) (s : str) :
  (y =? 95) = false -> under_go (95 :: y :: s) = 95 :: under_go (y :: s).
Proof.
  intros H. cbn [under_go]. destruct s as [|b t]; [reflexivity|].
  rewrite H. reflexivity.
Qed.

Lemma under_go_letters (a t : str) :
  forallb (fun c => negb (c =? 95)) a = true ->
  under_go (a ++ t) = a ++ under_go t.
Proof.
  induction a as [|x a IH]; intros H; [reflexivity|].
  cbn [forallb] in H. apply andb_true_iff in H. destruct H as [Hx H].
  apply negb_true_iff in Hx. cbn [app].
  rewrite under_go_keep by exact Hx. rewrite (IH H). reflexivity.
Qed.

Lemma lowers_no_under (l : str) :
  forallb is_lower l = true -> forallb (fun c => negb (c =? 95)) l = true.
Proof.
  rewrite !forallb_forall. intros H x Hx.
  destruct (lower_facts x (H x Hx)) as (_ & _ & _ & -> & _). reflexivity.
Qed.

Lemma under_go_words (ws : list (char * str)) : forall b,
  forallb word_ok ws = true -> under_go (paired b ws) = paired b ws.
Proof.
  induction ws as [|w1 ws IH]; intros b H; [reflexivity|].
  cbn [forallb] in H. apply andb_true_iff in H. destruct H as [H1 H].
  destruct (word_ok_parts w1 H1) as (U1 & c1 & l1 & E1 & Hc1 & Hl1).
  destruct (upper_facts _ U1) as (_ & _ & N1 & _).
  assert (L1 : forallb (fun c => negb (c =? 95)) (snd w1) = true).
  { apply lowers_no_under. rewrite E1. cbn [forallb].
    rewrite Hc1, Hl1. reflexivity. }
  destruct ws as [|w2 ws].
  - rewrite paired_one, under_go_keep by exact N1.
    pose proof (under_go_letters (snd w1) [] L1) as E.
    cbn [under_go] in E. rewrite !app_nil_r in E. rewrite E. reflexivity.
  - rewrite paired_cons, under_go_keep by exact N1.
    rewrite under_go_letters by exact L1.
    specialize (IH (negb b) H).
    destruct b; cbn [app]; [|rewrite IH; reflexivity].
    cbn [forallb] in H. apply andb_true_iff in H. destruct H as [H2 _].
    destruct (word_ok_parts w2 H2) as (U2 & _).
    destruct (upper_facts _ U2) as (_ & _ & N2 & _).
    assert (P : exists t, paired (negb true) (w2 :: ws) = fst w2 :: t)
      by (eexists; reflexivity).
    destruct P as [t P]. rewrite P in *.
    rewrite under_go_single by exact N2. rewrite IH. reflexivity.
Qed.

(** *** The third scan *)

Lemma hump_go_keep (x : char) (s : str) :
  is_lower_digit x = false -> hump_go (x :: s) = x :: hump_go s.
Proof.
  intros H. cbn [hump_go]. destruct s as [|b t]; [reflexivity|].
  rewrite H. reflexivity.
Qed.

Lemma hump_go_next (x b : char) (t : str) :
  is_upper b = false -> hump_go (x :: b :: t) = x :: hump_go (b :: t).
Proof. intros H. cbn [hump_go]. rewrite H, andb_false_r. reflexivity. Qed.

Lemma hump_go_hit (x b : char) (t : str) :
  is_lower_digit x = true -> is_upper b = true ->
  hump_go (x :: b :: t) = x :: 95 :: b :: hump_go t.
Proof. intros Hx Hb. cbn [hump_go]. rewrite Hx, Hb. reflexivity. Qed.

Lemma hump_go_lowers (l : str) : forall (c : char) (t : str),
  forallb is_lower l = true ->
  hump_go (c :: l ++ t) = removelast (c :: l) ++ hump_go (last l c :: t).
Proof.
  induction l as [|d l IH]; intros c t Hl; [reflexivity|].
  cbn [forallb] in Hl. apply andb_true_iff in Hl. destruct Hl as [Hd Hl].
  destruct (lower_facts d Hd) as (Ud & _).
  cbn [app]. rewrite hump_go_next by exact Ud. rewrite (IH d t Hl).
  change (removelast (c :: d :: l)) with (c :: removelast (d :: l)).
  rewrite (last_cons d l c). reflexivity.
Qed.

Lemma paired_after (b : bool) (w : char * str) (ws : list (char * str)) :
  paired b (w :: ws) = fst w :: snd w ++ after_word b ws.
Proof. destruct ws; reflexivity. Qed.

Lemma joined_after (w : char * str) (ws : list (char * str)) :
  joined (w :: ws)
  = fst w :: snd w ++ match ws with [] => [] | _ :: _ => 95 :: joined ws end.
Proof.
  destruct ws; cbn [joined word_text]; [rewrite app_nil_r|]; reflexivity.
Qed.

Lemma hump_go_after (ws : list (char * str)) : forall b (c : char) (l : str),
  forallb word_ok ws = true ->
  is_lower c = true -> forallb is_lower l = true ->
  hump_go (c :: l ++ after_word b ws)
  = c :: l ++ match ws with [] => [] | _ :: _ => 95 :: joined ws end.
Proof.
  induction ws as [|w ws IH]; intros b c l H Hc Hl.
  - cbn [after_word]. rewrite hump_go_lowers by exact Hl.
    cbn [hump_go]. rewrite app_nil_r, removelast_last. reflexivity.
  - cbn [forallb] in H. apply andb_true_iff in H. destruct H as [Hw H].
    destruct (word_ok_parts w Hw) as (U & c' & l' & E & Hc' & Hl').
    destruct (upper_facts _ U) as (_ & Nu & _).
    pose proof (last_lower c l Hc Hl) as Hz.
    destruct (lower_facts _ Hz) as (_ & _ & Dz & _).
    rewrite hump_go_lowers by exact Hl.
    unfold after_word. rewrite paired_after, joined_after, E.
    assert (R : hump_go (c' :: l' ++ after_word (negb b) ws)
                = c' :: l' ++ match ws with [] => [] | _ :: _ => 95 :: joined ws end)
      by (apply IH; assumption).
    destruct b; cbn [app negb] in *.
    + rewrite hump_go_next by reflexivity.
      rewrite hump_go_keep by reflexivity.
      rewrite hump_go_keep by exact Nu.
      rewrite R.
      transitivity ((removelast (c :: l) ++ [last l c])
                    ++ 95 :: fst w :: c' :: l'
                    ++ match ws with [] => [] | _ :: _ => 95 :: joined ws end);
        [rewrite <- app_assoc; reflexivity | rewrite removelast_last; reflexivity].
    + rewrite hump_go_hit by assumption.
      rewrite R.
      transitivity ((removelast (c :: l) ++ [last l c])
                    ++ 95 :: fst w :: c' :: l'
                    ++ match ws with [] => [] | _ :: _ => 95 :: joined ws end);
        [rewrite <- app_assoc; reflexivity | rewrite removelast_last; reflexivity].
Qed.

Lemma hump_go_words (ws : list (char * str)) (b : bool) :
  forallb word_ok ws = true -> hump_go (paired b ws) = joined ws.
Proof.
  destruct ws as [|w ws]; [reflexivity|]. intros H.
  cbn [forallb] in H. apply andb_true_iff in H. destruct H as [Hw H].
  destruct (word_ok_parts w Hw) as (U & c & l & E & Hc & Hl).
  destruct (upper_facts _ U) as (_ & Nu & _).
  rewrite paired_after, joined_after, E.
  rewrite hump_go_keep by exact Nu. cbn [app].
  rewrite (hump_go_after ws b c l H Hc Hl). reflexivity.
Qed.

(** *** The words in lower case *)

Lemma word_letters (w : char * str) :
  word_ok w = true ->
  forallb (fun c => is_upper c || is_lower c) (word_text w) = true.
Proof.
  intros H. destruct (word_ok_parts w H) as (U & c & l & E & Hc & Hl).
  unfold word_text. cbn [forallb]. rewrite U, E. cbn [orb andb forallb].
  rewrite Hc, orb_true_r. cbn [andb].
  rewrite forallb_forall in *. intros x Hx. rewrite (Hl x Hx).
  apply orb_true_r.
Qed.

Lemma letter_facts (c : char) :
  (is_upper c || is_lower c) = true ->
  (c <? 128) = true /\ is_not_alnum c = false /\ (c =? 38) = false.
Proof.
  intros H. apply orb_true_iff in H. destruct H as [H | H].
  - destruct (upper_facts c H) as (_ & _ & _ & A & B & C & _).
    repeat split; assumption.
  - destruct (lower_facts c H) as (_ & _ & _ & _ & A & B & C).
    repeat split; assumption.
Qed.

(** The characters of the words, and of the words with underscores. *)
Lemma camel_letters (ws : list (char * str)) :
  forallb word_ok ws = true ->
  forallb (fun c => is_upper c || is_lower c) (camel ws) = true.
Proof.
  induction ws as [|w ws IH]; intros H; [reflexivity|].
  cbn [forallb] in H. apply andb_true_iff in H. destruct H as [Hw H].
  cbn [camel flat_map]. rewrite forallb_app, (word_letters w Hw).
  exact (IH H).
Qed.

Lemma joined_letters (ws : list (char * str)) :
  forallb word_ok ws = true ->
  forallb (fun c => is_upper c || is_lower c || (c =? 95)) (joined ws) = true.
Proof.
  induction ws as [|w ws IH]; intros H; [reflexivity|].
  cbn [forallb] in H. apply andb_true_iff in H. destruct H as [Hw H].
  assert (W : forallb (fun c => is_upper c || is_lower c || (c =? 95))
                (word_text w) = true).
  { pose proof (word_letters w Hw) as L. rewrite forallb_forall in *.
    intros x Hx. rewrite (L x Hx). reflexivity. }
  destruct ws as [|w2 ws]; [exact W|].
  change (joined (w :: w2 :: ws)) with (word_text w ++ 95 :: joined (w2 :: ws)).
  rewrite forallb_app, W. cbn [forallb andb]. exact (IH H).
Qed.

Lemma map_lower_word (w : char * str) :
  word_ok w = true -> map ascii_lower (word_text w) = (fst w + 32) :: snd w.
Proof.
  intros H. destruct (word_ok_parts w H) as (U & c & l & E & Hc & Hl).
  unfold word_text. cbn [map]. unfold ascii_lower at 1. rewrite U. f_equal.
  assert (L : forallb is_lower (snd w) = true)
    by (rewrite E; cbn [forallb]; rewrite Hc, Hl; reflexivity).
  clear E. induction (snd w) as [|x s IH]; [reflexivity|].
  cbn [forallb] in L. apply andb_true_iff in L. destruct L as [Hx L].
  cbn [map]. rewrite (IH L). unfold ascii_lower.
  destruct (lower_facts x Hx) as (-> & _). reflexivity.
Qed.

Lemma map_lower_joined (ws : list (char * str)) :
  forallb word_ok ws = true -> map ascii_lower (joined ws) = snake ws.
Proof.
  induction ws as [|w ws IH]; intros H; [reflexivity|].
  cbn [forallb] in H. apply andb_true_iff in H. destruct H as [Hw H].
  destruct ws as [|w2 ws]; [exact (map_lower_word w Hw)|].
  change (joined (w :: w2 :: ws)) with (word_text w ++ 95 :: joined (w2 :: ws)).
  change (snake (w :: w2 :: ws))
    with (((fst w + 32) :: snd w) ++ 95 :: snake (w2 :: ws)).
  rewrite map_app, (map_lower_word w Hw). cbn [map].
  rewrite (IH H). reflexivity.
Qed.

Section CamelCase.

Variable unicode_lower : str -> str.

(** [to_snake_case] without the patterns. *)
Lemma snake_case_scans (name : str) :
  Menus.to_snake_case unicode_lower name
  = lower unicode_lower (hump_go (under_go (camel_go false name)))
  /\ TextualPaint.to_snake_case unicode_lower name
     = map ascii_lower
         (map (fun x => if is_not_alnum x then 95 else x)
            (hump_go (under_go (camel_go false
               (filter (fun x => negb (x =? 38)) name))))).
Proof.
  unfold Menus.to_snake_case, TextualPaint.to_snake_case. cbv zeta.
  rewrite replace_single, !re_sub_camel, !re_sub_under, !re_sub_hump.
  split; [reflexivity|].
  unfold other_re. rewrite re_sub_class. apply lower_ascii.
  rewrite forallb_forall. intros y Hy. apply in_map_iff in Hy.
  destruct Hy as (x & <- & _). apply lower_class.
Qed.

(** X20: the three substitutions of [to_snake_case] are scans of the
    name from the left.  The first one puts an underscore after a
    character, other than a line feed, that a capital letter and a small
    letter follow; the second one takes one of two underscores before a
    capital letter away; the third one puts an underscore between a small
    letter or a digit and a capital letter.  The version of
    [textual_paint/menus.py] drops the ampersands before and turns what is
    no ASCII letter and no digit into an underscore after. *)
Theorem X20_snake_case_scans (name : str) :
  Menus.to_snake_case unicode_lower name
  = lower unicode_lower (hump_go (under_go (camel_go false name)))
  /\ TextualPaint.to_snake_case unicode_lower name
     = map ascii_lower
         (map (fun x => if is_not_alnum x then 95 else x)
            (hump_go (under_go (camel_go false
               (filter (fun x => negb (x =? 38)) name))))).
Proof. exact (snake_case_scans name). Qed.

(** X21: a name in camel case, made of words that are a capital letter
    followed by small letters, becomes the words in lower case with an
    underscore between two of them, in both versions of
    [to_snake_case]. *)
Theorem X21_camel_case (ws : list (char * str)) :
  forallb word_ok ws = true ->
  Menus.to_snake_case unicode_lower (camel ws) = snake ws
  /\ TextualPaint.to_snake_case unicode_lower (camel ws) = snake ws.
Proof.
  intros H. destruct (snake_case_scans (camel ws)) as (-> & ->).
  assert (F : filter (fun x => negb (x =? 38)) (camel ws) = camel ws).
  { pose proof (camel_letters ws H) as L.
    induction (camel ws) as [|x s IH]; [reflexivity|].
    cbn [forallb] in L. apply andb_true_iff in L. destruct L as [Hx L].
    cbn [filter]. destruct (letter_facts x Hx) as (_ & _ & ->).
    cbn [negb]. rewrite (IH L). reflexivity. }
  rewrite F, (camel_go_words (length ws) ws (le_n _) H).
  rewrite (under_go_words ws true H), (hump_go_words ws true H).
  pose proof (joined_letters ws H) as J.
  assert (A : forallb (fun c => c <? 128) (joined ws) = true).
  { rewrite forallb_forall in *. intros x Hx. specialize (J x Hx).
    apply orb_true_iff in J. destruct J as [J | J].
    - apply (letter_facts x J).
    - apply N.eqb_eq in J. subst x. reflexivity. }
  assert (M : map (fun x => if is_not_alnum x then 95 else x) (joined ws)
              = joined ws).
  { clear A. induction (joined ws) as [|x s IH]; [reflexivity|].
    cbn [forallb] in J. apply andb_true_iff in J. destruct J as [Hx J].
    cbn [map]. rewrite (IH J). f_equal.
    apply orb_true_iff in Hx. destruct Hx as [Hx | Hx].
    - destruct (letter_facts x Hx) as (_ & -> & _). reflexivity.
    - apply N.eqb_eq in Hx. subst x. reflexivity. }
  rewrite lower_ascii by exact A. rewrite M.
  rewrite (map_lower_joined ws H). split; reflexivity.
Qed.

End CamelCase.

(** ** The two versions *)

Section Alphabet.

Variable P : char -> bool.
Hypothesis P_under : P 95 = true.

Lemma camel_go_alphabet (n : nat) : forall (s : str) (b : bool),
  (length s <= n)%nat -> forallb P s = true -> forallb P (camel_go b s) = true.
Proof.
  induction n as [|n IH]; intros s b Hn H.
  - destruct s; [reflexivity | cbn in Hn; lia].
  - destruct s as [|x s']; [reflexivity|]. cbn [length] in Hn.
    cbn [forallb] in H. apply andb_true_iff in H. destruct H as [Hx H].
    cbn [camel_go]. destruct (b && is_lower x).
    + cbn [forallb]. rewrite Hx. apply IH; [cbn [length] in *; lia | exact H].
    + destruct s' as [|y [|l t]].
      * cbn [forallb camel_go]. rewrite Hx. reflexivity.
      * cbn [forallb]. rewrite Hx. apply IH; [cbn in *; lia | exact H].
      * destruct (is_dot x && is_upper y && is_lower l).
        -- cbn [forallb] in *. rewrite Hx, P_under.
           apply andb_true_iff in H. destruct H as [-> H].
           apply andb_true_iff in H. destruct H as [-> H].
           apply IH; [cbn [length] in *; lia | exact H].
        -- cbn [forallb]. rewrite Hx. apply IH; [cbn [length] in *; lia | exact H].
Qed.

Lemma under_go_alphabet (n : nat) : forall (s : str),
  (length s <= n)%nat -> forallb P s = true -> forallb P (under_go s) = true.
Proof.
  induction n as [|n IH]; intros s Hn H.
  - destruct s; [reflexivity | cbn in Hn; lia].
  - destruct s as [|x s']; [reflexivity|]. cbn [length] in Hn.
    cbn [forallb] in H. apply andb_true_iff in H. destruct H as [Hx H].
    cbn [under_go]. destruct s' as [|y [|b t]].
    + cbn [forallb under_go]. rewrite Hx. reflexivity.
    + cbn [forallb]. rewrite Hx. apply IH; [cbn in *; lia | exact H].
    + destruct ((x =? 95) && (y =? 95) && is_upper b).
      * cbn [forallb] in *. rewrite P_under.
        apply andb_true_iff in H. destruct H as [_ H].
        apply andb_true_iff in H. destruct H as [-> H].
        apply IH; [cbn [length] in *; lia | exact H].
      * cbn [forallb]. rewrite Hx. apply IH; [cbn [length] in *; lia | exact H].
Qed.

Lemma hump_go_alphabet (n : nat) : forall (s : str),
  (length s <= n)%nat -> forallb P s = true -> forallb P (hump_go s) = true.
Proof.
  induction n as [|n IH]; intros s Hn H.
  - destruct s; [reflexivity | cbn in Hn; lia].
  - destruct s as [|x s']; [reflexivity|]. cbn [length] in Hn.
    cbn [forallb] in H. apply andb_true_iff in H. destruct H as [Hx H].
    cbn [hump_go]. destruct s' as [|b t].
    + cbn [forallb]. rewrite Hx. reflexivity.
    + destruct (is_lower_digit x && is_upper b).
      * cbn [forallb] in *. rewrite Hx, P_under.
        apply andb_true_iff in H. destruct H as [-> H].
        apply IH; [cbn [length] in *; lia | exact H].
      * cbn [forallb]. rewrite Hx. apply IH; [cbn [length] in *; lia | exact H].
Qed.

End Alphabet.

Lemma ident_char_other (x : char) :
  is_ident_char x = true ->
  (if is_not_alnum x then 95 else x) = x /\ (x =? 38) = false
  /\ (x <? 128) = true.
Proof.
  intros H. pose proof (ident_char_range x H) as R.
  unfold is_not_alnum, is_lower, is_upper, is_digit.
  destruct R as [R | [R | [R | ->]]]; [| | |repeat split; reflexivity];
    decide_cmp; repeat split; reflexivity.
Qed.

Section Versions.

Variable unicode_lower : str -> str.

(** X22: on a name made of ASCII letters, digits and underscores, the
    two versions of [to_snake_case] give the same identifier. *)
Theorem X22_versions_agree (name : str) :
  forallb is_ident_char name = true ->
  TextualPaint.to_snake_case unicode_lower name
  = Menus.to_snake_case unicode_lower name.
Proof.
  intros H. destruct (snake_case_scans unicode_lower name) as (-> & ->).
  assert (F : filter (fun x => negb (x =? 38)) name = name).
  { induction name as [|x s IH]; [reflexivity|].
    cbn [forallb] in H. apply andb_true_iff in H. destruct H as [Hx H].
    cbn [filter]. destruct (ident_char_other x Hx) as (_ & -> & _).
    cbn [negb]. rewrite (IH H). reflexivity. }
  rewrite F.
  set (t := hump_go (under_go (camel_go false name))).
  assert (T : forallb is_ident_char t = true).
  { unfold t.
    apply (hump_go_alphabet is_ident_char eq_refl _ _ (le_n _)).
    apply (under_go_alphabet is_ident_char eq_refl _ _ (le_n _)).
    apply (camel_go_alphabet is_ident_char eq_refl _ _ _ (le_n _)).
    exact H. }
  assert (M : map (fun x => if is_not_alnum x then 95 else x) t = t).
  { clearbody t. induction t as [|x s IH]; [reflexivity|].
    cbn [forallb] in T. apply andb_true_iff in T. destruct T as [Hx T].
    cbn [map]. rewrite (IH T). destruct (ident_char_other x Hx) as (-> & _).
    reflexivity. }
  rewrite M. symmetry. apply lower_ascii.
  rewrite forallb_forall in *. intros x Hx.
  apply (ident_char_other x (T x Hx)).
Qed.

End Versions.

(** * The focus of a menu *)

Lemma on_key_range (key : str) (items i : Z) :
  (0 < items)%Z -> (0 <= i < items)%Z -> (0 <= on_key key items i < items)%Z.
Proof.
  intros Hn Hi. unfold on_key.
  destruct (str_eqb key (u "up")); [|destruct (str_eqb key (u "down"))];
    cbv zeta.
  - destruct (Z.ltb_spec (i - 1) 0); lia.
  - destruct (Z.geb_spec (i + 1) items); lia.
  - exact Hi.
Qed.

(** X26: in a menu with at least one item, [focus_index] stays an index
    of an item whatever keys are pressed: below the first item it goes to
    the last one, and after the last one to the first.  In a menu without
    items the key [up] sets it to -1. *)
Theorem X26_focus_in_range (keys : list str) (items : Z) :
  (0 < items)%Z ->
  (0 <= after_keys keys items < items)%Z
  /\ on_key (u "up") 0 0 = (-1)%Z.
Proof.
  intros Hn. split; [|reflexivity]. unfold after_keys.
  assert (G : forall i, (0 <= i < items)%Z ->
                (0 <= fold_left (fun i key => on_key key items i) keys i < items)%Z).
  { induction keys as [|k keys IH]; intros i Hi; [exact Hi|].
    cbn [fold_left]. apply IH, on_key_range; assumption. }
  apply G. lia.
Qed.

(** X27: in a menu with at least one item, the keys [up] and [down] undo
    each other. *)
Theorem X27_up_down (items i : Z) :
  (0 < items)%Z -> (0 <= i < items)%Z ->
  on_key (u "down") items (on_key (u "up") items i) = i
  /\ on_key (u "up") items (on_key (u "down") items i) = i.
Proof.
  intros Hn Hi. unfold on_key.
  change (str_eqb (u "up") (u "up")) with true.
  change (str_eqb (u "down") (u "up")) with false.
  change (str_eqb (u "down") (u "down")) with true.
  cbv zeta iota. split.
  - destruct (Z.ltb_spec (i - 1) 0).
    + destruct (Z.geb_spec (items - 1 + 1) items); lia.
    + destruct (Z.geb_spec (i - 1 + 1) items); lia.
  - destruct (Z.geb_spec (i + 1) items).
    + destruct (Z.ltb_spec (0 - 1) 0); lia.
    + destruct (Z.ltb_spec (i + 1 - 1) 0); lia.
Qed.

(** ** Instances of the further properties *)

Lemma X2_no_quote_no_string_witness :
  has_dq (join_lines [u "STRINGTABLE"; u "BEGIN"; u "IDS_A text"; u "END"]) = false
  /\ parse_rc_file no_unicode_alnum
       (join_lines [u "STRINGTABLE"; u "BEGIN"; u "IDS_A text"; u "END"])
     = Ok [].
Proof.
  split; [reflexivity|].
  apply (X2_no_quote_no_string no_unicode_alnum). reflexivity.
Defined.

Lemma X3_normal_form_witness :
  forallb is_dot (u "  POPUP   x // y ") = true
  /\ normalize (u "  POPUP   x // y ")
     = cut_comment (collapse (strip (u "  POPUP   x // y "))).
Proof.
  split; [reflexivity|]. apply X3_normal_form. reflexivity.
Defined.

Lemma X4_indented_begin_end_witness :
  forallb is_space [TAB; SP] = true /\ forallb is_space [SP; 160] = true
  /\ exists st',
       loop_body no_unicode_alnum init ([TAB; SP] ++ u "BEGIN" ++ [SP; 160])
       = Ok st'
       /\ block_level st' = (block_level init + 1)%Z.
Proof.
  split; [reflexivity|]. split; [reflexivity|].
  exact (proj1 (X4_indented_begin_end no_unicode_alnum init [TAB; SP] [SP; 160]
                  eq_refl eq_refl)).
Defined.

Lemma X5_comment_after_begin_end_witness :
  forallb is_dot (u " menu") = true
  /\ exists st',
       loop_body no_unicode_alnum init (u "BEGIN //" ++ u " menu") = Ok st'
       /\ block_level st' = block_level init.
Proof.
  split; [reflexivity|].
  exact (proj1 (X5_comment_after_begin_end no_unicode_alnum init (u " menu")
                  eq_refl)).
Defined.

Lemma X6_string_table_witness :
  forallb entry_ok
    [ {| e_indent := u "    "; e_id := u "IDS_HELLO"; e_gap := [TAB];
         e_body := u "Hello\nWorld" |};
      {| e_indent := []; e_id := u "IDS_PATH"; e_gap := u "  ";
         e_body := u "a\tb/c" |} ] = true
  /\ parse_rc_file no_unicode_alnum
       (stringtable_text
          [ {| e_indent := u "    "; e_id := u "IDS_HELLO"; e_gap := [TAB];
               e_body := u "Hello\nWorld" |};
            {| e_indent := []; e_id := u "IDS_PATH"; e_gap := u "  ";
               e_body := u "a\tb/c" |} ])
     = Ok [u "Hello" ++ LF :: u "World"; u "a" ++ TAB :: u "b/c"].
Proof.
  split; [reflexivity|].
  apply (X6_string_table no_unicode_alnum). reflexivity.
Defined.

Lemma X7_item_line_witness :
  (menu (set_block_level 1 (set_menu true init))
   || dialog (set_block_level 1 (set_menu true init))) = true
  /\ block_level (set_block_level 1 (set_menu true init)) <> 0%Z
  /\ item_ok {| i_indent := u "    "; i_word := u "MENUITEM"; i_gap := [TAB];
                i_wide := false; i_body := u "&Open...\tCtrl+O";
                i_tail := u ", ID_FILE_OPEN // open" |} = true
  /\ exists st' s,
       loop_body no_unicode_alnum (set_block_level 1 (set_menu true init))
         (item_line {| i_indent := u "    "; i_word := u "MENUITEM";
                       i_gap := [TAB]; i_wide := false;
                       i_body := u "&Open...\tCtrl+O";
                       i_tail := u ", ID_FILE_OPEN // open" |}) = Ok st'
       /\ decode (literal false (u "&Open...\tCtrl+O")) = Ok s
       /\ (false = false -> s = unescape (u "&Open...\tCtrl+O"))
       /\ strings st' = [] ++ [s]
       /\ block_level st' = 1%Z
       /\ (menu st' || dialog st') = true.
Proof.
  split; [reflexivity|]. split; [discriminate|]. split; [reflexivity|].
  apply (X7_item_line no_unicode_alnum (set_block_level 1 (set_menu true init))
           {| i_indent := u "    "; i_word := u "MENUITEM"; i_gap := [TAB];
              i_wide := false; i_body := u "&Open...\tCtrl+O";
              i_tail := u ", ID_FILE_OPEN // open" |});
    [reflexivity | discriminate | reflexivity].
Defined.

Lemma X8_caption_line_witness :
  dialog (set_dialog true (Some (u "IDD_ABOUT")) init) = true
  /\ block_level (set_dialog true (Some (u "IDD_ABOUT")) init) = 0%Z
  /\ item_ok {| i_indent := []; i_word := u "CAPTION"; i_gap := u " ";
                i_wide := false; i_body := u "About"; i_tail := [] |} = true
  /\ exists st' s,
       loop_body no_unicode_alnum (set_dialog true (Some (u "IDD_ABOUT")) init)
         (item_line {| i_indent := []; i_word := u "CAPTION"; i_gap := u " ";
                       i_wide := false; i_body := u "About"; i_tail := [] |})
       = Ok st'
       /\ decode (literal false (u "About")) = Ok s
       /\ strings st' = [] ++ [s]
       /\ block_level st' = 0%Z /\ dialog st' = true.
Proof.
  split; [reflexivity|]. split; [reflexivity|]. split; [reflexivity|].
  apply (X8_caption_line no_unicode_alnum
           (set_dialog true (Some (u "IDD_ABOUT")) init)
           {| i_indent := []; i_word := u "CAPTION"; i_gap := u " ";
              i_wide := false; i_body := u "About"; i_tail := [] |});
    reflexivity.
Defined.

Lemma X9_menu_block_witness :
  is_ident (u "IDR_MAINMENU") = true /\ rows_ok 0 popup_rows = true
  /\ exists out,
       parse_rc_file no_unicode_alnum (menu_text (u "IDR_MAINMENU") popup_rows)
       = Ok out
       /\ Forall2 stands_for (row_items popup_rows) out.
Proof.
  split; [reflexivity|]. split; [reflexivity|].
  apply (X9_menu_block no_unicode_alnum); reflexivity.
Defined.

Lemma X10_dialog_statement_witness :
  dialog (set_dialog true (Some (u "IDD_ABOUT")) init) = true
  /\ block_level (set_dialog true (Some (u "IDD_ABOUT")) init) = 0%Z
  /\ truthy (orig_str (set_dialog true (Some (u "IDD_ABOUT")) init)) = false
  /\ other_ok (u "FONT 8, " ++ quoted (u "MS Sans Serif")) = true
  /\ exists st',
       loop_body no_unicode_alnum (set_dialog true (Some (u "IDD_ABOUT")) init)
         (u "FONT 8, " ++ quoted (u "MS Sans Serif")) = Ok st'
       /\ strings st' = []
       /\ dialog st' = true /\ block_level st' = 0%Z.
Proof.
  split; [reflexivity|]. split; [reflexivity|]. split; [reflexivity|].
  split; [reflexivity|].
  apply (X10_dialog_statement no_unicode_alnum
           (set_dialog true (Some (u "IDD_ABOUT")) init)); reflexivity.
Defined.

Lemma X11_dialog_block_witness :
  is_ident (u "IDD_ABOUT") = true /\ more_ok (u "0, 0, 235, 55") = true
  /\ forallb head_ok about_heads = true /\ rows_ok 0 about_rows = true
  /\ exists out,
       parse_rc_file no_unicode_alnum
         (dialog_text (u "IDD_ABOUT") true (u "0, 0, 235, 55")
            about_heads about_rows) = Ok out
       /\ Forall2 stands_for (head_items about_heads ++ row_items about_rows) out.
Proof.
  split; [reflexivity|]. split; [reflexivity|]. split; [reflexivity|].
  split; [reflexivity|].
  apply (X11_dialog_block no_unicode_alnum); reflexivity.
Defined.

Lemma X12_last_branch_witness :
  last_branch init = true
  /\ (re_search quoted_re (u "  IDS_GREETING") = None ->
      re_match leading_quoted_re (u "  IDS_GREETING") = None)
  /\ orig_str (dispatch no_unicode_alnum (u "  IDS_GREETING") init)
     = match re_search quoted_re (u "  IDS_GREETING") with
       | Some m => Some (m_text m)
       | None => orig_str init
       end.
Proof.
  split; [reflexivity|].
  apply (X12_last_branch no_unicode_alnum (u "  IDS_GREETING") init).
  reflexivity.
Defined.

Lemma X13_first_to_last_quote_witness :
  last_branch
    (track no_unicode_alnum
       (normalize (u "IDS_A " ++ literal false (u "x" ++ DQ :: u ", " ++ DQ :: u "y")
                   ++ u " // c")) init) = true
  /\ has_dq (u "IDS_A ") = false /\ last (u "IDS_A ") 0 <> 76
  /\ no_linebreak (u "x" ++ DQ :: u ", " ++ DQ :: u "y") = true
  /\ has_dq (u " // c") = false /\ forallb is_dot (u " // c") = true
  /\ exists st' s,
       loop_body no_unicode_alnum init
         (u "IDS_A " ++ literal false (u "x" ++ DQ :: u ", " ++ DQ :: u "y")
          ++ u " // c") = Ok st'
       /\ decode (literal false (u "x" ++ DQ :: u ", " ++ DQ :: u "y")) = Ok s
       /\ (false = false -> s = unescape (u "x" ++ DQ :: u ", " ++ DQ :: u "y"))
       /\ strings st' = strings init ++ [s].
Proof.
  split; [reflexivity|]. split; [reflexivity|]. split; [discriminate|].
  split; [reflexivity|]. split; [reflexivity|]. split; [reflexivity|].
  apply (X13_first_to_last_quote no_unicode_alnum init (u "IDS_A "));
    solve [reflexivity | discriminate].
Defined.

Lemma X14_literal_in_comment_witness :
  menu init = false /\ dialog init = false
  /\ forallb is_tabsp [TAB] = true
  /\ has_dq (u " was: ") = false /\ last (u " was: ") 47 <> 76
  /\ forallb is_dot (u " was: ") = true
  /\ no_linebreak (u "Hello") = true
  /\ has_dq [] = false /\ forallb is_dot [] = true
  /\ exists st' s,
       loop_body no_unicode_alnum init
         ([TAB] ++ u "//" ++ u " was: " ++ literal false (u "Hello") ++ [])
       = Ok st'
       /\ decode (literal false (u "Hello")) = Ok s
       /\ strings st' = strings init ++ [s].
Proof.
  split; [reflexivity|]. split; [reflexivity|]. split; [reflexivity|].
  split; [reflexivity|]. split; [discriminate|]. split; [reflexivity|].
  split; [reflexivity|]. split; [reflexivity|]. split; [reflexivity|].
  apply (X14_literal_in_comment no_unicode_alnum init [TAB] (u " was: "));
    solve [reflexivity | discriminate].
Defined.

Lemma X15_not_an_item_witness :
  (menu (set_block_level 1 (set_menu true init))
   || dialog (set_block_level 1 (set_menu true init))) = true
  /\ block_level (set_block_level 1 (set_menu true init)) <> 0%Z
  /\ truthy (orig_str (set_block_level 1 (set_menu true init))) = false
  /\ forallb is_dot (u "    // MENUITEM " ++ quoted (u "&Old")) = true
  /\ not_item_start (is_word no_unicode_alnum)
       (u "    // MENUITEM " ++ quoted (u "&Old")) = true
  /\ exists st',
       loop_body no_unicode_alnum (set_block_level 1 (set_menu true init))
         (u "    // MENUITEM " ++ quoted (u "&Old")) = Ok st'
       /\ strings st' = strings (set_block_level 1 (set_menu true init))
       /\ block_level st' = block_level (set_block_level 1 (set_menu true init))
       /\ (menu st' || dialog st') = true.
Proof.
  split; [reflexivity|]. split; [discriminate|]. split; [reflexivity|].
  split; [reflexivity|]. split; [reflexivity|].
  apply (X15_not_an_item no_unicode_alnum
           (set_block_level 1 (set_menu true init)));
    solve [reflexivity | discriminate].
Defined.

Lemma X17_snake_case_fixed_witness :
  forallb is_snake (u "file_open_2") = true
  /\ Menus.to_snake_case no_unicode_lower (u "file_open_2") = u "file_open_2"
  /\ TextualPaint.to_snake_case no_unicode_lower (u "file_open_2")
     = u "file_open_2".
Proof.
  split; [reflexivity|].
  apply (X17_snake_case_fixed no_unicode_lower). reflexivity.
Defined.

Lemma X19_no_capital_witness :
  existsb is_upper (u "&file...") = false
  /\ Menus.to_snake_case no_unicode_lower (u "&file...")
     = lower no_unicode_lower (u "&file...").
Proof.
  split; [reflexivity|].
  apply (X19_no_capital no_unicode_lower). reflexivity.
Defined.

Lemma X21_camel_case_witness :
  forallb word_ok [(70, u "ile"); (79, u "pen"); (65, u "s")] = true
  /\ Menus.to_snake_case no_unicode_lower
       (camel [(70, u "ile"); (79, u "pen"); (65, u "s")])
     = snake [(70, u "ile"); (79, u "pen"); (65, u "s")]
  /\ TextualPaint.to_snake_case no_unicode_lower
       (camel [(70, u "ile"); (79, u "pen"); (65, u "s")])
     = snake [(70, u "ile"); (79, u "pen"); (65, u "s")].
Proof.
  split; [reflexivity|].
  apply (X21_camel_case no_unicode_lower). reflexivity.
Defined.

Lemma X22_versions_agree_witness :
  forallb is_ident_char (u "getHTTPResponse2") = true
  /\ TextualPaint.to_snake_case no_unicode_lower (u "getHTTPResponse2")
     = Menus.to_snake_case no_unicode_lower (u "getHTTPResponse2").
Proof.
  split; [reflexivity|].
  apply (X22_versions_agree no_unicode_lower). reflexivity.
Defined.

Lemma X23_line_ends_witness :
  forallb no_linebreak menu_lines = true /\ last menu_lines [LF] <> []
  /\ line_end [CR; LF] = true
  /\ parse_rc_file no_unicode_alnum (join_with [CR; LF] menu_lines)
     = parse_rc_file no_unicode_alnum (join_lines menu_lines)
  /\ parse_rc_file no_unicode_alnum (join_with [CR; LF] menu_lines ++ [CR; LF])
     = parse_rc_file no_unicode_alnum (join_lines menu_lines).
Proof.
  split; [reflexivity|]. split; [discriminate|]. split; [reflexivity|].
  apply (X23_line_ends no_unicode_alnum [CR; LF] menu_lines);
    solve [reflexivity | discriminate].
Defined.

Lemma X24_written_only_witness :
  observed init
  = observed (set_stringtable true
                (set_pending (Some (u "IDS_A")) (Some (u "IDS_A")) None init))
  /\ exists r r',
       scan no_unicode_alnum init [u "IDS_B"; quoted (u "text")] = Ok r
       /\ scan no_unicode_alnum
            (set_stringtable true
               (set_pending (Some (u "IDS_A")) (Some (u "IDS_A")) None init))
            [u "IDS_B"; quoted (u "text")] = Ok r'
       /\ strings r = strings r'.
Proof.
  split; [reflexivity|].
  apply (X24_written_only no_unicode_alnum). reflexivity.
Defined.

Lemma X25_blocks_compose_witness :
  scan no_unicode_alnum init menu_lines = Ok after_menu
  /\ menu after_menu = false /\ dialog after_menu = false
  /\ block_level after_menu = 0%Z
  /\ exists r1 r2,
       scan no_unicode_alnum init table_lines = Ok r1
       /\ scan no_unicode_alnum init (menu_lines ++ table_lines) = Ok r2
       /\ strings r2 = strings after_menu ++ strings r1.
Proof.
  split; [reflexivity|]. split; [reflexivity|]. split; [reflexivity|].
  split; [reflexivity|].
  apply (X25_blocks_compose no_unicode_alnum); reflexivity.
Defined.

Lemma X26_focus_in_range_witness :
  (0 < 3)%Z
  /\ (0 <= after_keys [u "up"; u "up"; u "escape"; u "down"] 3 < 3)%Z
  /\ on_key (u "up") 0 0 = (-1)%Z.
Proof.
  split; [reflexivity|].
  apply (X26_focus_in_range [u "up"; u "up"; u "escape"; u "down"] 3).
  reflexivity.
Defined.

Lemma X27_up_down_witness :
  (0 < 3)%Z /\ (0 <= 2 < 3)%Z
  /\ on_key (u "down") 3 (on_key (u "up") 3 2) = 2%Z
  /\ on_key (u "up") 3 (on_key (u "down") 3 2) = 2%Z.
Proof.
  split; [reflexivity|]. split; [split; [discriminate | reflexivity]|].
  apply (X27_up_down 3 2); [reflexivity | split; [discriminate | reflexivity]].
Defined.
